(** * Scan-to-reward ledger and Airtable reconciliation

    A shallow embedding of [processQrScan] / [handleScan]
    (QrScannerCamera.tsx) and [airtableFetch] (lib.ts), with the
    properties of the loyalty-rewards specification stated over it;
    then of the dialog of the scanner, of the session of
    authProvider.ts and of the leaderboard of Dashboard.tsx, with
    properties read off their code.

    Conventions of the embedding:
    - JavaScript numbers that hold counters and ids are integers ([Z]);
      the arithmetic of the source ([+ 1], [-], [<= 0]) is exact on them
      below 2^53.
    - A nullable column is an [option]; [!x] on a nullable string is
      [negb (truthy x)]: null and the empty string are falsy.
    - [String.prototype.toLowerCase] is a parameter of the sync
      ([LowerCase]): any function that lowers the letters A to Z of an
      ASCII string and leaves its other characters.
    - Every call that leaves the function (a data-provider request, a
      notification, a React state setter, reading the clock) is a [call];
      a function of the source is a [prog], a tree of calls with
      try/catch, run against a [world]. *)

From Stdlib Require Import ZArith String Ascii List Lia DecimalString.
From stdpp Require Import base decidable option list sorting gmap strings.

Local Open Scope string_scope.
Local Open Scope list_scope.
Local Open Scope stdpp_scope.
Local Open Scope Z_scope.

(** ** Records exchanged with the data provider *)

Module Member.
Record t := mk {
  id : Z;
  qr_code : string;
  name : string;
  member_type_id : Z;
  points : Z;
  total_scans : Z;
  points_to_reward : Z;
  reward_due : bool;
  reward_earned_at : option string;
  last_scan_at : option string;
  (* every other column of the row, copied by the spread [...member] *)
  rest : list (string * string)
}.
End Member.

#[global] Instance Member_eq_dec : EqDecision Member.t.
Proof. solve_decision. Defined.

Module MemberType.
Record t := mk {
  id : Z;
  name : string;
  scans_required : Z;
  reward_type_id : Z;
  total_scans : Z;
  (* every other column of the row, copied by [...memberType] *)
  rest : list (string * string)
}.
End MemberType.

#[global] Instance MemberType_eq_dec : EqDecision MemberType.t.
Proof. solve_decision. Defined.

Module ScanLog.
Record t := mk { id : Z; scanned_value : string }.
End ScanLog.

#[global] Instance ScanLog_eq_dec : EqDecision ScanLog.t.
Proof. solve_decision. Defined.

Module RedeemLog.
Record t := mk { id : Z; member_id : Z; reward_type_id : Z }.
End RedeemLog.

#[global] Instance RedeemLog_eq_dec : EqDecision RedeemLog.t.
Proof. solve_decision. Defined.

(** The object built by the [map] of [airtableFetch] (lib.ts, 78-87) and
    sent as [data] of [create('pending_members', ...)]. *)
Module PendingMemberData.
Record t := mk {
  airtable_id : string;
  name : string;
  email : string;
  membership_type : string;
  qr_code_url : string;
  created_at : string;
  status : string;
  source : string
}.
End PendingMemberData.

#[global] Instance PendingMemberData_eq_dec : EqDecision PendingMemberData.t.
Proof. solve_decision. Defined.

(** A stored row of [pending_members]: the data with the id the store
    gave it. *)
Module PendingMember.
Record t := mk { id : Z; data : PendingMemberData.t }.
Definition airtable_id (r : t) : string := PendingMemberData.airtable_id (data r).
Definition email (r : t) : string := PendingMemberData.email (data r).
End PendingMember.

#[global] Instance PendingMember_eq_dec : EqDecision PendingMember.t.
Proof. solve_decision. Defined.

(** [AirtableResponse] of types.ts, as far as [airtableFetch] reads it:
    [records[i].id] and the five [fields] ([createdTime] is not read). *)
Module Airtable.
Record fields := mkFields {
  Name : string;
  Email : string;
  Membership_Type : string;
  QR_Code : string;
  Created : string
}.
Record record := mkRecord { id : string; fields_of : fields }.
Record AirtableResponse := mkResponse { records : list record }.
(** What [fetch] resolves to: the status, the body as [text()] gives
    it, and the body as [json()] parses it ([None]: not JSON). *)
Record Response := mkHttp {
  status : Z;
  text : string;
  json : option AirtableResponse
}.
End Airtable.

Module DialogContentData.
Record t := mk {
  memberType : string;
  memberName : string;
  points : Z;
  scansRequiredForReward : Z
}.
End DialogContentData.

#[global] Instance DialogContentData_eq_dec : EqDecision DialogContentData.t.
Proof. solve_decision. Defined.

(** A thrown value. *)
Inductive error := Error (message : string).

#[global] Instance error_eq_dec : EqDecision error.
Proof. solve_decision. Defined.

Inductive notify_type := type_error | type_warning | type_success.

#[global] Instance notify_type_eq_dec : EqDecision notify_type.
Proof. solve_decision. Defined.

(** ** Calls

    One constructor per call site shape of the two files.  Both
    [getList] calls sort by [{ field: 'id', order: 'ASC' }]. *)
Inductive call : Type :=
| getList_members (page perPage : nat) (filter_qr_code : string)
| getOne_member_types (id : Z)
| update_members (id : Z) (previousData data : Member.t)
| update_member_types (id : Z) (previousData data : MemberType.t)
| create_scan_logs (scanned_value : string)
| create_redeem_logs (member_id reward_type_id : Z)
| getList_pending_members (page perPage : nat)
| create_pending_members (data : PendingMemberData.t)
| fetch_airtable
| new_Date_toISOString
| notify (message : string) (type : notify_type)
| console_error (message : string) (e : error)
| console_log (message : string)
| setOpenDialog (b : bool)
| setTimer (n : Z)
| setScanningPaused (b : bool)
| setRewardDueState (b : bool)
| setDialogContent (d : option DialogContentData.t).

#[global] Instance call_eq_dec : EqDecision call.
Proof. solve_decision. Defined.

(** What a call evaluates to when it does not throw. *)
Definition resp (c : call) : Type :=
  match c with
  | getList_members _ _ _ => list Member.t
  | getOne_member_types _ => option MemberType.t
  | getList_pending_members _ _ => list PendingMember.t
  | fetch_airtable => Airtable.Response
  | new_Date_toISOString => string
  | _ => unit
  end.

(** The requests that reach the record store or the external source:
    the awaited calls, the ones that can fail in transit. *)
Definition is_request (c : call) : bool :=
  match c with
  | getList_members _ _ _ | getOne_member_types _
  | update_members _ _ _ | update_member_types _ _ _
  | create_scan_logs _ | create_redeem_logs _ _
  | getList_pending_members _ _ | create_pending_members _
  | fetch_airtable => true
  | _ => false
  end.

(** The requests that change the store. *)
Definition is_write (c : call) : bool :=
  match c with
  | update_members _ _ _ | update_member_types _ _ _
  | create_scan_logs _ | create_redeem_logs _ _
  | create_pending_members _ => true
  | _ => false
  end.

(** ** Programs *)

Inductive prog : Type -> Type :=
| Ret {R : Type} (r : R) : prog R
| Throw {R : Type} (e : error) : prog R
| Call {R : Type} (c : call) (k : resp c -> prog R) : prog R
| TryCatch {A R : Type} (body : prog A) (handler : error -> prog A)
    (k : A -> prog R) : prog R.

Declare Scope prog_scope.
Delimit Scope prog_scope with prog.
Notation "x <- c ;; k" := (Call c (fun x => k%prog))
  (at level 100, c at next level, right associativity) : prog_scope.
Notation "c ;; k" := (Call c (fun _ => k%prog))
  (at level 100, right associativity) : prog_scope.

Fixpoint bind {A B : Type} (p : prog A) : (A -> prog B) -> prog B :=
  match p in prog T return (T -> prog B) -> prog B with
  | Ret a => fun f => f a
  | Throw e => fun _ => Throw e
  | Call c k => fun f => Call c (fun x => bind (k x) f)
  | TryCatch body handler k => fun f =>
      TryCatch body handler (fun a => bind (k a) f)
  end.

Inductive outcome (A : Type) : Type :=
| Value (a : A)
| Raised (e : error).
Arguments Value {A} a.
Arguments Raised {A} e.

(** ** The record store

    Modelled from the spec: the record store behind the data provider
    (the REST back end) is not among the sources.  Its operations are
    the four of the specification's Record Store Client, on five tables
    of rows; a table is a list of rows, [create] gives the new row the
    next free id and appends it, [getOne] and [update] address the row by
    id and fail when there is none, [getList] filters, sorts by id and
    returns the requested page.  Whether [update] compares the stored row
    with [previousData] is a switch of the store ([optimistic]): the
    specification gives it a precondition, the REST transport sends only
    [data]. *)
Record Store := mkStore {
  members : list Member.t;
  member_types : list MemberType.t;
  scan_logs : list ScanLog.t;
  redeem_logs : list RedeemLog.t;
  pending_members : list PendingMember.t
}.

Definition fresh_id (ids : list Z) : Z := 1 + foldr Z.max 0 ids.

(** [pagination: { page, perPage }] over a sorted result. *)
Definition paginate {A : Type} (page perPage : nat) (l : list A) : list A :=
  take perPage (drop ((page - 1) * perPage)%nat l).

Definition by_id {A : Type} (id : A -> Z) : relation A :=
  fun a b => id a <= id b.

#[global] Instance by_id_dec {A : Type} (id : A -> Z) (a b : A) :
  Decision (by_id id a b).
Proof. unfold by_id. apply _. Defined.

Definition find_by_id {A : Type} (id : A -> Z) (i : Z) (l : list A) : option A :=
  List.find (fun r => bool_decide (id r = i)) l.

Definition replace_by_id {A : Type} (id : A -> Z) (i : Z) (data : A)
    (l : list A) : list A :=
  (fun r => if bool_decide (id r = i) then data else r) <$> l.

Definition set_members (s : Store) (l : list Member.t) : Store :=
  mkStore l (member_types s) (scan_logs s) (redeem_logs s) (pending_members s).
Definition set_member_types (s : Store) (l : list MemberType.t) : Store :=
  mkStore (members s) l (scan_logs s) (redeem_logs s) (pending_members s).
Definition set_scan_logs (s : Store) (l : list ScanLog.t) : Store :=
  mkStore (members s) (member_types s) l (redeem_logs s) (pending_members s).
Definition set_redeem_logs (s : Store) (l : list RedeemLog.t) : Store :=
  mkStore (members s) (member_types s) (scan_logs s) l (pending_members s).
Definition set_pending_members (s : Store) (l : list PendingMember.t) : Store :=
  mkStore (members s) (member_types s) (scan_logs s) (redeem_logs s) l.

Definition not_found : error := Error "Not Found".
Definition conflict : error := Error "Conflict".

(** [update(resource, { id, previousData, data })] on one table. *)
Definition update_table {A : Type} `{EqDecision A} (id : A -> Z)
    (optimistic : bool) (i : Z) (previousData data : A) (l : list A)
    : outcome (list A) :=
  match find_by_id id i l with
  | None => Raised not_found
  | Some current =>
      if optimistic && negb (bool_decide (current = previousData))
      then Raised conflict
      else Value (replace_by_id id i data l)
  end.

(** The effect of a writing request on the store, when it arrives. *)
Definition apply_write (optimistic : bool) (c : call) (s : Store)
    : outcome Store :=
  match c with
  | update_members i previousData data =>
      match update_table Member.id optimistic i previousData data
              (members s) with
      | Value l => Value (set_members s l)
      | Raised e => Raised e
      end
  | update_member_types i previousData data =>
      match update_table MemberType.id optimistic i previousData data
              (member_types s) with
      | Value l => Value (set_member_types s l)
      | Raised e => Raised e
      end
  | create_scan_logs v =>
      Value (set_scan_logs s
        (scan_logs s ++
           [ScanLog.mk (fresh_id (ScanLog.id <$> scan_logs s)) v]))
  | create_redeem_logs m r =>
      Value (set_redeem_logs s
        (redeem_logs s ++
           [RedeemLog.mk (fresh_id (RedeemLog.id <$> redeem_logs s)) m r]))
  | create_pending_members d =>
      Value (set_pending_members s
        (pending_members s ++
           [PendingMember.mk
              (fresh_id (PendingMember.id <$> pending_members s)) d]))
  | _ => Value s
  end.

(** ** The world a program runs in *)

(** The React state of one [QrScannerCamera] component. *)
Record UiState := mkUi {
  openDialog : bool;
  timer : Z;
  scanningPaused : bool;
  rewardDueState : bool;
  dialogContent : option DialogContentData.t
}.

Definition initial_ui : UiState := mkUi false 30 false false None.

(** A call as it happened: [ev_ok] is false when it threw. *)
Record event := Ev { ev_call : call; ev_ok : bool }.

#[global] Instance event_eq_dec : EqDecision event.
Proof. solve_decision. Defined.

(** - [faults]: what the next requests meet in transit, in order:
      [Some e] makes the request throw [e] and leaves the store as it
      is; past the end of the list nothing fails;
    - [clock], [ticks]: [new Date().toISOString()] reads [clock ticks]
      and the clock moves on;
    - [trace]: every call made so far, oldest first. *)
Record world := mkWorld {
  store : Store;
  optimistic : bool;
  airtable : Airtable.Response;
  faults : list (option error);
  clock : nat -> string;
  ticks : nat;
  ui : UiState;
  trace : list event
}.

Definition with_store (w : world) (s : Store) : world :=
  mkWorld s (optimistic w) (airtable w) (faults w) (clock w) (ticks w)
    (ui w) (trace w).
Definition with_faults (w : world) (f : list (option error)) : world :=
  mkWorld (store w) (optimistic w) (airtable w) f (clock w) (ticks w)
    (ui w) (trace w).
Definition with_ticks (w : world) (n : nat) : world :=
  mkWorld (store w) (optimistic w) (airtable w) (faults w) (clock w) n
    (ui w) (trace w).
Definition with_ui (w : world) (u : UiState) : world :=
  mkWorld (store w) (optimistic w) (airtable w) (faults w) (clock w)
    (ticks w) u (trace w).
Definition record_event (w : world) (e : event) : world :=
  mkWorld (store w) (optimistic w) (airtable w) (faults w) (clock w)
    (ticks w) (ui w) (trace w ++ [e]).

Definition set_ui (w : world) (f : UiState -> UiState) : world :=
  with_ui w (f (ui w)).

Definition is_value {A : Type} (o : outcome A) : bool :=
  match o with Value _ => true | Raised _ => false end.

(** A writing request that has reached the store. *)
Definition written (c : call) (w : world) : outcome unit * world :=
  match apply_write (optimistic w) c (store w) with
  | Value s' => (Value tt, with_store w s')
  | Raised e => (Raised e, w)
  end.

(** What a call does once it is under way: a request acts on the store,
    the clock and the React setters on the browser's side of the world,
    a notification or a console line only leaves its trace. *)
Definition effect (c : call) (w : world) : outcome (resp c) * world :=
  let s := store w in
  match c return outcome (resp c) * world with
  | getList_members page perPage qr =>
      (Value (paginate page perPage
                (merge_sort (by_id Member.id)
                   (filter (fun m => Member.qr_code m = qr) (members s)))), w)
  | getOne_member_types i =>
      match find_by_id MemberType.id i (member_types s) with
      | Some t => (Value (Some t), w)
      | None => (Raised not_found, w)
      end
  | update_members i previousData data =>
      written (update_members i previousData data) w
  | update_member_types i previousData data =>
      written (update_member_types i previousData data) w
  | create_scan_logs v => written (create_scan_logs v) w
  | create_redeem_logs m r => written (create_redeem_logs m r) w
  | getList_pending_members page perPage =>
      (Value (paginate page perPage
                (merge_sort (by_id PendingMember.id) (pending_members s))), w)
  | create_pending_members d => written (create_pending_members d) w
  | fetch_airtable => (Value (airtable w), w)
  | new_Date_toISOString =>
      (Value (clock w (ticks w)), with_ticks w (S (ticks w)))
  | notify _ _ => (Value tt, w)
  | console_error _ _ => (Value tt, w)
  | console_log _ => (Value tt, w)
  | setOpenDialog b =>
      (Value tt, set_ui w (fun u => mkUi b (timer u) (scanningPaused u)
                                      (rewardDueState u) (dialogContent u)))
  | setTimer n =>
      (Value tt, set_ui w (fun u => mkUi (openDialog u) n (scanningPaused u)
                                      (rewardDueState u) (dialogContent u)))
  | setScanningPaused b =>
      (Value tt, set_ui w (fun u => mkUi (openDialog u) (timer u) b
                                      (rewardDueState u) (dialogContent u)))
  | setRewardDueState b =>
      (Value tt, set_ui w (fun u => mkUi (openDialog u) (timer u)
                                      (scanningPaused u) b (dialogContent u)))
  | setDialogContent d =>
      (Value tt, set_ui w (fun u => mkUi (openDialog u) (timer u)
                                      (scanningPaused u) (rewardDueState u) d))
  end.

(** The fault a call meets: only a request can meet one. *)
Definition fault_of (c : call) (w : world) : option error :=
  if is_request c then mjoin (head (faults w)) else None.

(** A request uses up the head of [faults], whether it was a fault or
    not. *)
Definition consume (c : call) (w : world) : world :=
  if is_request c then with_faults w (tail (faults w)) else w.

(** One call against the world. *)
Definition perform (c : call) (w : world) : outcome (resp c) * world :=
  match fault_of c w with
  | Some e => (Raised e, record_event (consume c w) (Ev c false))
  | None =>
      let '(o, w') := effect c (consume c w) in
      (o, record_event w' (Ev c (is_value o)))
  end.

(** Running a program to its end. *)
Fixpoint run {R : Type} (p : prog R) (w : world) : outcome R * world :=
  match p with
  | Ret r => (Value r, w)
  | Throw e => (Raised e, w)
  | Call c k =>
      match perform c w with
      | (Value x, w') => run (k x) w'
      | (Raised e, w') => (Raised e, w')
      end
  | TryCatch body handler k =>
      match run body w with
      | (Value a, w') => run (k a) w'
      | (Raised e, w') =>
          match run (handler e) w' with
          | (Value a, w'') => run (k a) w''
          | (Raised e', w'') => (Raised e', w'')
          end
      end
  end.

(** ** QrScannerCamera.tsx *)

Local Open Scope prog_scope.

Definition is_Some_b {A : Type} (x : option A) : bool :=
  match x with Some _ => true | None => false end.

(** Truthiness of a nullable string column, as [!member.reward_earned_at]
    tests it. *)
Definition truthy (x : option string) : bool :=
  match x with
  | Some s => negb (bool_decide (s = EmptyString))
  | None => false
  end.

(** Lines 103-106. *)
Definition newMemberPoints (member : Member.t) : Z := Member.points member + 1.

Definition newPointsToReward (member : Member.t) (memberType : MemberType.t) : Z :=
  MemberType.scans_required memberType - newMemberPoints member.

Definition rewardDue (member : Member.t) (memberType : MemberType.t) : bool :=
  (newPointsToReward member memberType <=? 0)%Z.

(** Lines 109-117: the payload of the member update. *)
Definition memberUpdateData (member : Member.t) (memberType : MemberType.t)
    (now : string) : Member.t :=
  {| Member.id := Member.id member;
     Member.qr_code := Member.qr_code member;
     Member.name := Member.name member;
     Member.member_type_id := Member.member_type_id member;
     Member.rest := Member.rest member;
     Member.total_scans := Member.total_scans member + 1;
     Member.points :=
       if rewardDue member memberType then 0 else newMemberPoints member;
     Member.points_to_reward := newPointsToReward member memberType;
     Member.reward_due := rewardDue member memberType;
     Member.reward_earned_at :=
       if rewardDue member memberType
          && negb (truthy (Member.reward_earned_at member))
       then Some now
       else Member.reward_earned_at member;
     Member.last_scan_at := Some now |}.

(** Lines 129-132: the payload of the member type update. *)
Definition memberTypeUpdateData (memberType : MemberType.t) : MemberType.t :=
  {| MemberType.id := MemberType.id memberType;
     MemberType.name := MemberType.name memberType;
     MemberType.scans_required := MemberType.scans_required memberType;
     MemberType.reward_type_id := MemberType.reward_type_id memberType;
     MemberType.rest := MemberType.rest memberType;
     MemberType.total_scans := MemberType.total_scans memberType + 1 |}.

(** Lines 151-156: what the dialog shows. *)
Definition dialogData (member : Member.t) (memberType : MemberType.t)
    : DialogContentData.t :=
  {| DialogContentData.memberType := MemberType.name memberType;
     DialogContentData.memberName := Member.name member;
     DialogContentData.points :=
       if rewardDue member memberType then 0 else newMemberPoints member;
     DialogContentData.scansRequiredForReward :=
       MemberType.scans_required memberType |}.

Definition scan_failed : string :=
  "Error processing QR scan, account may have just been scanned.".

(** Lines 79-163.  [null] is [None]. *)
Definition processQrScan (qrCode : string) : prog (option DialogContentData.t) :=
  TryCatch
    (members <- getList_members 1 1 qrCode ;;
     match members with
     | [] =>
         notify "No member found with this QR code" type_error ;;
         Ret None
     | member :: _ =>
         memberType <- getOne_member_types (Member.member_type_id member) ;;
         match memberType with
         | None =>
             notify "No Member Type found for this member" type_warning ;;
             Ret None
         | Some memberType =>
             now <- new_Date_toISOString ;;
             update_members (Member.id member) member
               (memberUpdateData member memberType now) ;;
             update_member_types (MemberType.id memberType) memberType
               (memberTypeUpdateData memberType) ;;
             create_scan_logs qrCode ;;
             if rewardDue member memberType then
               create_redeem_logs (Member.id member)
                 (MemberType.reward_type_id memberType) ;;
               Ret (Some (dialogData member memberType))
             else Ret (Some (dialogData member memberType))
         end
     end)
    (fun error =>
       console_error scan_failed error ;;
       notify scan_failed type_error ;;
       Ret None)
    Ret.

Record IDetectedBarcode := mkBarcode { rawValue : string }.

(** Lines 169-186.  [paused] is the [scanningPaused] the closure holds;
    [data] is [None] for a null argument; an empty array has no
    [data[0]] and reading its [rawValue] throws. *)
Definition handleScan (paused : bool) (data : option (list IDetectedBarcode))
    : prog unit :=
  if paused || negb (is_Some_b data) then Ret tt
  else
    setScanningPaused true ;;
    match data with
    | Some (first :: _) =>
        bind (processQrScan (rawValue first)) (fun dialogData =>
          match dialogData with
          | Some d =>
              setDialogContent (Some d) ;;
              setOpenDialog true ;;
              setRewardDueState
                (bool_decide (DialogContentData.points d = 0)) ;;
              setTimer 30 ;;
              notify "Visit logged successfully" type_success ;;
              Ret tt
          | None =>
              setScanningPaused false ;;
              Ret tt
          end)
    | _ => Throw (Error "TypeError: data[0] is undefined")
    end.

(** What [members[0]] is when [getList] answers: the first row of the
    requested page. *)
Definition members_page (qrCode : string) (s : Store) : list Member.t :=
  paginate 1 1
    (merge_sort (by_id Member.id)
       (filter (fun m => Member.qr_code m = qrCode) (members s))).

(** Lines 120-148: the writes of one scan, in the order of the source. *)
Definition scan_writes (qrCode : string) (member : Member.t)
    (memberType : MemberType.t) (now : string) : list call :=
  [update_members (Member.id member) member
     (memberUpdateData member memberType now);
   update_member_types (MemberType.id memberType) memberType
     (memberTypeUpdateData memberType);
   create_scan_logs qrCode] ++
  (if rewardDue member memberType then
     [create_redeem_logs (Member.id member)
        (MemberType.reward_type_id memberType)]
   else []).

(** The two calls of the catch block (lines 157-162). *)
Definition scan_caught (e : error) : list event :=
  [Ev (console_error scan_failed e) true;
   Ev (notify scan_failed type_error) true].

(** The ways through [processQrScan]: where it stopped, and on what. *)
Inductive scan_path : Type :=
| read_failed (e : error)
| no_member
| type_failed (member : Member.t) (e : error)
| write_failed (member : Member.t) (memberType : MemberType.t)
    (done_writes : nat) (e : error)
| committed (member : Member.t) (memberType : MemberType.t).

Definition succeeded (c : call) : event := Ev c true.

(** The calls made along a path, with how each ended. *)
Definition path_events (qrCode now : string) (p : scan_path) : list event :=
  match p with
  | read_failed e =>
      Ev (getList_members 1 1 qrCode) false :: scan_caught e
  | no_member =>
      [Ev (getList_members 1 1 qrCode) true;
       Ev (notify "No member found with this QR code" type_error) true]
  | type_failed member e =>
      [Ev (getList_members 1 1 qrCode) true;
       Ev (getOne_member_types (Member.member_type_id member)) false]
      ++ scan_caught e
  | write_failed member memberType n e =>
      [Ev (getList_members 1 1 qrCode) true;
       Ev (getOne_member_types (Member.member_type_id member)) true;
       Ev new_Date_toISOString true]
      ++ (succeeded <$> take n (scan_writes qrCode member memberType now))
      ++ match scan_writes qrCode member memberType now !! n with
         | Some c => [Ev c false]
         | None => []
         end
      ++ scan_caught e
  | committed member memberType =>
      [Ev (getList_members 1 1 qrCode) true;
       Ev (getOne_member_types (Member.member_type_id member)) true;
       Ev new_Date_toISOString true]
      ++ (succeeded <$> scan_writes qrCode member memberType now)
  end.

Definition path_result (p : scan_path) : option DialogContentData.t :=
  match p with
  | committed member memberType => Some (dialogData member memberType)
  | _ => None
  end.

(** The reads a path rests on. *)
Definition path_reads (qrCode now : string) (s : Store) (p : scan_path) : Prop :=
  match p with
  | read_failed _ => True
  | no_member => members_page qrCode s = []
  | type_failed member _ => head (members_page qrCode s) = Some member
  | write_failed member memberType n _ =>
      head (members_page qrCode s) = Some member
      /\ find_by_id MemberType.id (Member.member_type_id member)
           (member_types s) = Some memberType
      /\ (n < length (scan_writes qrCode member memberType now))%nat
  | committed member memberType =>
      head (members_page qrCode s) = Some member
      /\ find_by_id MemberType.id (Member.member_type_id member)
           (member_types s) = Some memberType
  end.

(** The store as the calls of a trace leave it: a call that succeeded
    has had its effect, a call that threw has had none.  [None]: the
    trace has a write succeed that the store refuses. *)
Definition replay_event (optimistic : bool) (s : Store) (e : event)
    : option Store :=
  if ev_ok e then
    match apply_write optimistic (ev_call e) s with
    | Value s' => Some s'
    | Raised _ => None
    end
  else Some s.

Fixpoint replay (optimistic : bool) (evs : list event) (s : Store)
    : option Store :=
  match evs with
  | [] => Some s
  | e :: rest =>
      match replay_event optimistic s e with
      | Some s' => replay optimistic rest s'
      | None => None
      end
  end.

(** The writing requests among some events. *)
Definition writes (evs : list event) : list event :=
  filter (fun e => is_write (ev_call e) = true) evs.

(** The requests among some events. *)
Definition requests (evs : list event) : list event :=
  filter (fun e => is_request (ev_call e) = true) evs.

(** ** Two scanners on one store

    A program is also run one call at a time, so that the calls of two
    programs can alternate. *)

Definition final {R : Type} (p : prog R) : option (outcome R) :=
  match p with
  | Ret r => Some (Value r)
  | Throw e => Some (Raised e)
  | _ => None
  end.

Fixpoint step {R : Type} (p : prog R) (w : world) : prog R * world :=
  match p with
  | Ret r => (Ret r, w)
  | Throw e => (Throw e, w)
  | Call c k =>
      match perform c w with
      | (Value x, w') => (k x, w')
      | (Raised e, w') => (Throw e, w')
      end
  | TryCatch body handler k =>
      match final body with
      | Some (Value a) => (k a, w)
      | Some (Raised e) => (bind (handler e) k, w)
      | None =>
          let '(body', w') := step body w in (TryCatch body' handler k, w')
      end
  end.

(** Two browsers, each with its own component state and its own
    [handleScan] under way; the store, the clock and the trace are
    shared. *)
Inductive client := scanner_A | scanner_B.

Record system := mkSystem {
  shared : world;
  uiA : UiState;
  taskA : prog unit;
  uiB : UiState;
  taskB : prog unit
}.

(** The next call of one of the two. *)
Definition advance (sys : system) (c : client) : system :=
  match c with
  | scanner_A =>
      let '(p, w) := step (taskA sys) (with_ui (shared sys) (uiA sys)) in
      mkSystem w (ui w) p (uiB sys) (taskB sys)
  | scanner_B =>
      let '(p, w) := step (taskB sys) (with_ui (shared sys) (uiB sys)) in
      mkSystem w (uiA sys) (taskA sys) (ui w) p
  end.

Definition schedule (sys : system) (turns : list client) : system :=
  foldl advance sys turns.

(** Both scanners have just detected [code]; neither is paused. *)
Definition two_scanners (w : world) (code : string) : system :=
  mkSystem w
    initial_ui (handleScan (scanningPaused initial_ui) (Some [mkBarcode code]))
    initial_ui (handleScan (scanningPaused initial_ui) (Some [mkBarcode code])).

(** ** lib.ts: the Airtable sync *)

(** [String.prototype.toLowerCase].  A string is the sequence of its
    bytes (UTF-8), an ASCII character being one byte below 128.  On a
    string of ASCII characters the method turns the letters A to Z into
    a to z and leaves every other character as it is; what it does to
    the other characters (É to é, ...) is Unicode's and is left open:
    the sync is verified for every function [toLowerCase] that is as
    described on the ASCII strings. *)
Definition lower_ascii (c : ascii) : ascii :=
  let n := nat_of_ascii c in
  if ((65 <=? n) && (n <=? 90))%nat then ascii_of_nat (n + 32) else c.

Fixpoint lower_ascii_letters (s : string) : string :=
  match s with
  | EmptyString => EmptyString
  | String c rest => String (lower_ascii c) (lower_ascii_letters rest)
  end.

Fixpoint is_ascii (s : string) : bool :=
  match s with
  | EmptyString => true
  | String c rest => (nat_of_ascii c <? 128)%nat && is_ascii rest
  end.

Class LowerCase := {
  toLowerCase : string -> string;
  toLowerCase_ascii :
    forall s, is_ascii s = true -> toLowerCase s = lower_ascii_letters s
}.

(** The method cut down to ASCII: the other bytes are left as they
    are.  The sample worlds below run with it; their e-mails are ASCII,
    on which every [toLowerCase] is this one. *)
#[global] Instance ascii_only : LowerCase :=
  {| toLowerCase := lower_ascii_letters;
     toLowerCase_ascii := fun _ _ => eq_refl |}.

(** Lines 78-87. *)
Definition to_member (record : Airtable.record) : PendingMemberData.t :=
  {| PendingMemberData.airtable_id := Airtable.id record;
     PendingMemberData.name := Airtable.Name (Airtable.fields_of record);
     PendingMemberData.email := Airtable.Email (Airtable.fields_of record);
     PendingMemberData.membership_type :=
       Airtable.Membership_Type (Airtable.fields_of record);
     PendingMemberData.qr_code_url := Airtable.QR_Code (Airtable.fields_of record);
     PendingMemberData.created_at := Airtable.Created (Airtable.fields_of record);
     PendingMemberData.status := "pending";
     PendingMemberData.source := "Airtable" |}.

(** Lines 99-100: the two lookup sets. *)
Definition existingAirtableIds (existingMembers : list PendingMember.t)
    : gset string :=
  list_to_set (PendingMember.airtable_id <$> existingMembers).

Definition existingEmails {JS : LowerCase}
    (existingMembers : list PendingMember.t)
    : gset string :=
  list_to_set
    ((fun member => toLowerCase (PendingMember.email member))
       <$> existingMembers).

(** Lines 103-106. *)
Definition newMembers {JS : LowerCase} (members : list PendingMemberData.t)
    (existingMembers : list PendingMember.t) : list PendingMemberData.t :=
  filter (fun member =>
            (PendingMemberData.airtable_id member
               ∉ existingAirtableIds existingMembers)
            /\ (toLowerCase (PendingMemberData.email member)
                  ∉ existingEmails existingMembers))
    members.

(** Modelled from the spec: the end of the inner catch block (lib.ts is
    cut off at line 114, inside its [console.error]).  "Creation failures
    for one candidate are logged and counted but do not abort the batch":
    the block ends after the log. *)
Definition create_failed (member : PendingMemberData.t) (error : error)
    : prog unit :=
  console_error ("Error creating member '"
                 +:+ PendingMemberData.name member +:+ "':") error ;;
  Ret tt.

(** Lines 109-114: the loop, one try/catch per new member. *)
Fixpoint create_all (newMembers : list PendingMemberData.t) : prog unit :=
  match newMembers with
  | [] => Ret tt
  | member :: rest =>
      TryCatch
        (create_pending_members member ;;
         console_log ("Created new 'Pending Member': "
                      +:+ PendingMemberData.name member) ;;
         Ret tt)
        (create_failed member)
        (fun _ => create_all rest)
  end.

(** Modelled from the spec: the outer catch block of [airtableFetch]
    (lib.ts stops at line 114).  "Fetching the external source fails →
    whole operation fails", and the function's comment has it throw: the
    block logs the error and throws it again. *)
Definition airtableFetch_catch (error : error) : prog unit :=
  console_error "Error syncing with Airtable:" error ;;
  Throw error.

(** Lines 58-114. *)
Definition airtableFetch {JS : LowerCase} : prog unit :=
  TryCatch
    (response <- fetch_airtable ;;
     if 400 <=? Airtable.status response then
       Throw (Error ("Airtable request failed: " +:+ Airtable.text response))
     else
       match Airtable.json response with
       | None => Throw (Error "SyntaxError: the body is not JSON")
       | Some airtableData =>
           let members := to_member <$> Airtable.records airtableData in
           existingMembers <- getList_pending_members 1 1000 ;;
           create_all (newMembers members existingMembers)
       end)
    airtableFetch_catch
    Ret.

(** The invariant of the pending members: no two rows with the same
    [airtable_id], no two with the same e-mail up to case. *)
Definition unique_pending {JS : LowerCase} (rows : list PendingMember.t)
    : Prop :=
  NoDup (PendingMember.airtable_id <$> rows)
  /\ NoDup ((fun r => toLowerCase (PendingMember.email r)) <$> rows).

(** The same of a batch of candidates. *)
Definition unique_batch {JS : LowerCase}
    (members : list PendingMemberData.t) : Prop :=
  NoDup (PendingMemberData.airtable_id <$> members)
  /\ NoDup ((fun m => toLowerCase (PendingMemberData.email m)) <$> members).

(** What [getList('pending_members', ...)] answers: the first 1000 rows
    in the order of their ids. *)
Definition pending_page (s : Store) : list PendingMember.t :=
  paginate 1 1000 (merge_sort (by_id PendingMember.id) (pending_members s)).

(** The pending members some events asked the store to create, and the
    ones it did create. *)
Definition create_requests (evs : list event) : list PendingMemberData.t :=
  omap (fun e => match ev_call e with
                 | create_pending_members d => Some d
                 | _ => None
                 end) evs.

Definition created (evs : list event) : list PendingMemberData.t :=
  omap (fun e => match ev_call e with
                 | create_pending_members d => if ev_ok e then Some d else None
                 | _ => None
                 end) evs.

(** The calls that tell the user or the console something. *)
Definition is_report (c : call) : bool :=
  match c with
  | notify _ _ | console_error _ _ | console_log _ => true
  | _ => false
  end.

Definition reports (evs : list event) : list event :=
  filter (fun e => is_report (ev_call e) = true) evs.

(** ** Sample worlds *)

Definition sample_clock (n : nat) : string :=
  match n with
  | O => "2025-01-01T10:00:00.000Z"
  | _ => "2025-01-01T10:00:05.000Z"
  end.

Definition no_airtable : Airtable.Response := Airtable.mkHttp 503 EmptyString None.

Definition world_of (s : Store) (optimistic : bool)
    (faults : list (option error)) : world :=
  mkWorld s optimistic no_airtable faults sample_clock 0 initial_ui [].

(** Ada has 2 points of the 3 her member type asks for. *)
Definition sample_member : Member.t :=
  Member.mk 7 "QR-7" "Ada" 1 2 10 1 false None None [("phone", "555")].
Definition sample_type : MemberType.t :=
  MemberType.mk 1 "Coffee" 3 4 40 [].
Definition sample_store : Store :=
  mkStore [sample_member] [sample_type] [] [] [].
Definition sample_world : world := world_of sample_store false [].
Definition sample_world_optimistic : world := world_of sample_store true [].

(** Two members carry the code QR-7. *)
Definition sample_twin : Member.t :=
  Member.mk 9 "QR-7" "Bea" 1 0 0 3 false None None [].
Definition ambiguous_world : world :=
  world_of (mkStore [sample_twin; sample_member] [sample_type] [] [] [])
    false [].

(** The request after the first [n] fails in transit. *)
Definition failing_after (n : nat) : world :=
  world_of sample_store false (replicate n None ++ [Some (Error "503")]).

(** A and B take turns, [n] times. *)
Definition alternating (n : nat) : list client :=
  concat (replicate n [scanner_A; scanner_B]).

Definition sample_applicant (id name email : string) : Airtable.record :=
  Airtable.mkRecord id (Airtable.mkFields name email "Gold" EmptyString "2025-01-01").

Definition sample_pending (i : Z) (id name email : string) : PendingMember.t :=
  PendingMember.mk i
    (PendingMemberData.mk id name email "Gold" EmptyString "2025-01-01" "pending"
       "Airtable").

Definition sync_world_of (rows : list PendingMember.t)
    (records : list Airtable.record) : world :=
  mkWorld (mkStore [] [] [] [] rows) false
    (Airtable.mkHttp 200 EmptyString (Some (Airtable.mkResponse records)))
    [] sample_clock 0 initial_ui [].

(** One pending member, Ann; Airtable has Ann again, under another id
    and with her e-mail in capitals, and Bob. *)
Definition sync_world : world :=
  sync_world_of [sample_pending 1 "recZ" "Ann" "a@x.com"]
    [sample_applicant "recA" "Ann" "A@x.com";
     sample_applicant "recB" "Bob" "bob@x.com"].

(** No pending member; Airtable has Bob twice, under two ids, the e-mail
    once in capitals. *)
Definition twice_in_batch_world : world :=
  sync_world_of []
    [sample_applicant "recB" "Bob" "bob@x.com";
     sample_applicant "recC" "Bobby" "BOB@x.com"].

Definition numbered (prefix : string) (n : nat) (suffix : string) : string :=
  prefix +:+ NilEmpty.string_of_uint (Nat.to_uint n) +:+ suffix.

(** A thousand pending members, ids 1 to 1000; Airtable has one
    applicant more. *)
Definition crowded_world : world :=
  sync_world_of
    ((fun n => sample_pending (Z.of_nat n) (numbered "rec" n EmptyString) "Member"
                 (numbered "member" n "@x.com")) <$> seq 1 1000)
    [sample_applicant "recNEW" "Nora" "nora@x.com"].

(** One pending member, Zoe; Airtable has Bob twice, under two ids, the
    e-mail once in capitals. *)
Definition newcomers_world : world :=
  sync_world_of [sample_pending 1 "recZ" "Zoe" "zoe@x.com"]
    [sample_applicant "recB" "Bob" "bob@x.com";
     sample_applicant "recC" "Bobby" "BOB@x.com"].

(** A thousand and one pending members, ids 1 to 1001; Airtable has the
    last of them again. *)
Definition overfull_world : world :=
  sync_world_of
    ((fun n => sample_pending (Z.of_nat n) (numbered "rec" n EmptyString) "Member"
                 (numbered "member" n "@x.com")) <$> seq 1 1001)
    [sample_applicant "rec1001" "Member" "member1001@x.com"].

(** ** More of QrScannerCamera.tsx *)

(** [n] scans of one code, each started when the one before has
    returned; [None] when one of them returns null. *)
Fixpoint scans (qrCode : string) (n : nat) (w : world) : option world :=
  match n with
  | O => Some w
  | S n' =>
      match run (processQrScan qrCode) w with
      | (Value (Some _), w') => scans qrCode n' w'
      | _ => None
      end
  end.

(** What a React setter of the component does to its state; any other
    call leaves it alone. *)
Definition set_state (u : UiState) (c : call) : UiState :=
  match c with
  | setOpenDialog b =>
      mkUi b (timer u) (scanningPaused u) (rewardDueState u) (dialogContent u)
  | setTimer n =>
      mkUi (openDialog u) n (scanningPaused u) (rewardDueState u)
        (dialogContent u)
  | setScanningPaused b =>
      mkUi (openDialog u) (timer u) b (rewardDueState u) (dialogContent u)
  | setRewardDueState b =>
      mkUi (openDialog u) (timer u) (scanningPaused u) b (dialogContent u)
  | setDialogContent d =>
      mkUi (openDialog u) (timer u) (scanningPaused u) (rewardDueState u) d
  | _ => u
  end.

(** The notifications among some events. *)
Definition is_notify (c : call) : bool :=
  match c with notify _ _ => true | _ => false end.

Definition notifications (evs : list event) : list event :=
  filter (fun e => is_notify (ev_call e) = true) evs.

(** Ada's member type is not in the store. *)
Definition orphan_world : world :=
  world_of (mkStore [sample_member] [] [] [] []) false [].

(** The world once [handleScan] has paused the scanner (line 172). *)
Definition pausing (w : world) : world :=
  (perform (setScanningPaused true) w).2.

(** ** The dialog of QrScannerCamera.tsx *)

(** The page in the browser: the state of the mounted component, and how
    many times the window was reloaded. *)
Record Page := mkPage { component : UiState; reloads : nat }.

(** [window.location.reload()]: the component is mounted anew, with the
    initial values of its [useState]s (lines 32-36). *)
Definition reload (p : Page) : Page :=
  mkPage initial_ui (S (reloads p)).

(** Lines 45-51. *)
Definition handleCloseDialog (p : Page) : Page :=
  reload
    (mkPage
       (foldl set_state (component p)
          [setOpenDialog false; setScanningPaused false; setTimer 30;
           setDialogContent None])
       (reloads p)).

(** Lines 54-58: the effect that closes the dialog, run after a render. *)
Definition autoCloseEffect (p : Page) : Page :=
  if bool_decide (timer (component p) = 0) && openDialog (component p)
  then handleCloseDialog p
  else p.

(** Lines 61-69: whether the effect has an interval running. *)
Definition interval_running (u : UiState) : bool :=
  openDialog u && bool_decide (0 < timer u).

(** One period of 1000 ms: the interval, when one is running, takes one
    off the timer (line 65); the component renders again and its effects
    run. *)
Definition second (p : Page) : Page :=
  if interval_running (component p) then
    autoCloseEffect
      (mkPage (set_state (component p) (setTimer (timer (component p) - 1)))
         (reloads p))
  else p.

Fixpoint seconds (n : nat) (p : Page) : Page :=
  match n with
  | O => p
  | S n' => seconds n' (second p)
  end.

(** ** What a program may call *)

(** Every call the program can come to make satisfies [P]. *)
Fixpoint only (P : call -> bool) {R : Type} (p : prog R) : Prop :=
  match p with
  | Ret _ => True
  | Throw _ => True
  | Call c k => P c = true /\ forall x, only P (k x)
  | TryCatch body handler k =>
      only P body /\ (forall e, only P (handler e)) /\ forall a, only P (k a)
  end.

(** The calls of [airtableFetch]: the request to Airtable, the list of
    the pending members, their creation, and the console. *)
Definition is_sync_call (c : call) : bool :=
  match c with
  | fetch_airtable | getList_pending_members _ _ | create_pending_members _
  | console_error _ _ | console_log _ => true
  | _ => false
  end.

(** ** authProvider.ts

    The session lives in [localStorage], a map from keys to strings;
    [getItem] of a missing key is null, and null and the empty string
    are falsy.  What leaves the module besides it: the request for the
    site users, [bcrypt.compare], and the console. *)

Module SiteUser.
Record t := mk {
  password : string;
  role : option string
}.
End SiteUser.

(** The answer to [fetch(`${apiUrl}/site_users?email=${username}`)]:
    [json] is [None] when the body is not a JSON array of users. *)
Module SiteUsers.
Record Response := mkHttp {
  ok : bool;
  text : string;
  json : option (list SiteUser.t)
}.
End SiteUsers.

Module UserIdentity.
Record t := mk {
  id : string;
  role : string
}.
End UserIdentity.

(** What a promise is rejected with: nothing ([Promise.reject()]), a
    string, or an [Error]. *)
Inductive reason :=
| no_reason
| reason_string (s : string)
| reason_Error (e : error).

Inductive settled (A : Type) : Type :=
| Resolved (a : A)
| Rejected (r : reason).
Arguments Resolved {A} a.
Arguments Rejected {A} r.

(** The browser, as far as the provider uses it; a line of the console
    is the label and what was logged with it. *)
Record Browser := mkBrowser {
  localStorage : gmap string string;
  console : list (string * string)
}.

Definition setItem (key value : string) (b : Browser) : Browser :=
  mkBrowser (<[key := value]> (localStorage b)) (console b).

Definition removeItem (key : string) (b : Browser) : Browser :=
  mkBrowser (delete key (localStorage b)) (console b).

Definition getItem (key : string) (b : Browser) : option string :=
  localStorage b !! key.

Definition console_error_line (label detail : string) (b : Browser) : Browser :=
  mkBrowser (localStorage b) (console b ++ [(label, detail)]).

Definition error_message (e : error) : string :=
  match e with Error message => message end.

Module authProvider.
Section provider.

Variable apiUrl : string.
(** [fetch], by URL: it throws, or answers. *)
Variable fetch : string -> error + SiteUsers.Response.
(** [bcrypt.compare(password, hash)]. *)
Variable bcrypt_compare : string -> string -> bool.

(** [user.role || 'base'] (line 42). *)
Definition role_or_base (user : SiteUser.t) : string :=
  match SiteUser.role user with
  | Some r => if truthy (Some r) then r else "base"
  | None => "base"
  end.

(** Lines 18-44: the body of the [try]; [inl] is what it throws. *)
Definition login_try (username password : string) (b : Browser)
    : (error + unit) * Browser :=
  match fetch (apiUrl +:+ "/site_users?email=" +:+ username) with
  | inl e => (inl e, b)
  | inr response =>
      if negb (SiteUsers.ok response) then
        (inl (Error "Network response was not ok"),
         console_error_line "Error Response Body:" (SiteUsers.text response) b)
      else
        match SiteUsers.json response with
        | None => (inl (Error "SyntaxError: the body is not JSON"), b)
        | Some [] => (inl (Error "User not found"), b)
        | Some (user :: _) =>
            if negb (bcrypt_compare password (SiteUser.password user)) then
              (inl (Error "Invalid password"), b)
            else
              (inr tt,
               setItem "role" (role_or_base user)
                 (setItem "username" username b))
        end
  end.

(** Lines 17-48. *)
Definition login (username password : string) (b : Browser)
    : settled unit * Browser :=
  match login_try username password b with
  | (inr _, b') => (Resolved tt, b')
  | (inl e, b') =>
      (Rejected
         (reason_Error (Error "Invalid username, password, or network error")),
       console_error_line "Login Error:" (error_message e) b')
  end.

(** Lines 54-58. *)
Definition logout (b : Browser) : settled unit * Browser :=
  (Resolved tt, removeItem "role" (removeItem "username" b)).

(** Lines 65-72. *)
Definition checkError (status : Z) (b : Browser) : settled unit * Browser :=
  if bool_decide (status = 401) || bool_decide (status = 403) then
    (Rejected no_reason, removeItem "role" (removeItem "username" b))
  else (Resolved tt, b).

(** Lines 78-82. *)
Definition checkAuth (b : Browser) : settled unit :=
  if truthy (getItem "username" b) then Resolved tt else Rejected no_reason.

(** Lines 88-91. *)
Definition getPermissions (b : Browser) : settled string :=
  match getItem "role" b with
  | Some role => if truthy (Some role) then Resolved role
                 else Rejected no_reason
  | None => Rejected no_reason
  end.

(** Lines 97-114; a truthy item is a string. *)
Definition getIdentity (b : Browser) : settled UserIdentity.t :=
  let username := getItem "username" b in
  let role := getItem "role" b in
  if negb (truthy username) then Rejected (reason_string "No user found")
  else if negb (truthy role) then Rejected (reason_string "No role found")
  else
    Resolved
      (UserIdentity.mk (default EmptyString username)
         (default EmptyString role)).

End provider.
End authProvider.

(** A site with one user, an administrator, whose stored hash the
    password 'secret' matches. *)
Definition sample_site (url : string) : error + SiteUsers.Response :=
  inr (SiteUsers.mkHttp true EmptyString
         (Some [SiteUser.mk "$2a$10$hash" (Some "admin")])).
Definition sample_compare (password hash : string) : bool :=
  bool_decide (password = "secret") && bool_decide (hash = "$2a$10$hash").
Definition sample_browser : Browser :=
  mkBrowser (<["theme" := "dark"]> ∅) [].
(** A site that is down. *)
Definition site_down (url : string) : error + SiteUsers.Response :=
  inr (SiteUsers.mkHttp false "Bad Gateway" None).

(** ** Dashboard.tsx

    The leaderboard of the dashboard, computed from the scan logs and
    the members it has fetched.  A member id is an integer key of a
    JavaScript object (0 to 2^32 - 2): [Object.entries] lists such keys
    in ascending order. *)

Module Dashboard.

Module ScanLog.
Record t := mk {
  id : Z;
  member_id : Z;
  created_at : string
}.
End ScanLog.

Module Member.
Record t := mk {
  id : Z;
  name : string
}.
End Member.

(** An entry of [leaderboardData]. *)
Module Entry.
Record t := mk {
  memberId : Z;
  scans : nat;
  name : string
}.
End Entry.

Section dashboard.

(** [new Date(created_at)] is within [dateRange] (lines 130-131). *)
Variable in_range : string -> bool.

(** Lines 128-133. *)
Definition filterLogsByDate {A : Type} (created_at : A -> string)
    (logs : list A) : list A :=
  filter (fun log => in_range (created_at log) = true) logs.

(** Lines 100-103: the members by id; a later member replaces an
    earlier one of the same id. *)
Definition memberMap (memberData : list Member.t) : gmap Z Member.t :=
  foldl (fun acc member => <[Member.id member := member]> acc) ∅ memberData.

(** Lines 152-155: [acc[k]] is undefined or at least 1. *)
Definition leaderboard (filteredScanLogs : list ScanLog.t) : gmap Z nat :=
  foldl (fun acc log =>
           <[ScanLog.member_id log :=
               (default 0 (acc !! ScanLog.member_id log) + 1)%nat]> acc)
    ∅ filteredScanLogs.

(** [Object.entries] of an object with integer keys. *)
Definition Object_entries (o : gmap Z nat) : list (Z * nat) :=
  merge_sort (fun a b => a.1 <= b.1) (map_to_list o).

(** Lines 158-162: [members[id]?.name || "Unknown"]. *)
Definition entry_of (members : gmap Z Member.t) (e : Z * nat) : Entry.t :=
  Entry.mk e.1 e.2
    (match members !! e.1 with
     | Some member =>
         if truthy (Some (Member.name member)) then Member.name member
         else "Unknown"
     | None => "Unknown"
     end).

(** [sort((a, b) => b.scans - a.scans)]: descending, and stable: of two
    entries with as many scans the one that came first stays first. *)
Fixpoint insert_entry (a : Entry.t) (sorted : list Entry.t) : list Entry.t :=
  match sorted with
  | [] => [a]
  | b :: rest =>
      if (Entry.scans b <=? Entry.scans a)%nat then a :: b :: rest
      else b :: insert_entry a rest
  end.

Definition sort_by_scans (entries : list Entry.t) : list Entry.t :=
  foldr insert_entry [] entries.

(** Lines 157-164. *)
Definition leaderboardData (members : gmap Z Member.t)
    (filteredScanLogs : list ScanLog.t) : list Entry.t :=
  take 10
    (sort_by_scans
       (entry_of members <$> Object_entries (leaderboard filteredScanLogs))).

End dashboard.

(** The scans of a member among some logs. *)
Definition scans_of (memberId : Z) (logs : list ScanLog.t) : nat :=
  length (filter (fun log => ScanLog.member_id log = memberId) logs).

End Dashboard.
(** ** Calls against the world: basic facts *)

Lemma perform_Value (c : call) (w w1 : world) (x : resp c) :
  perform c w = (Value x, w1) ->
  exists w0, fault_of c w = None
    /\ effect c (consume c w) = (Value x, w0)
    /\ w1 = record_event w0 (Ev c true).
Proof.
  unfold perform. destruct (fault_of c w) as [e|]; [discriminate|].
  destruct (effect c (consume c w)) as [o w0] eqn:E. intros H.
  injection H as -> <-. exists w0. auto.
Qed.

Lemma perform_Raised (c : call) (w w1 : world) (e : error) :
  perform c w = (Raised e, w1) ->
  (fault_of c w = Some e /\ w1 = record_event (consume c w) (Ev c false))
  \/ (fault_of c w = None /\ exists w0,
        effect c (consume c w) = (Raised e, w0)
        /\ w1 = record_event w0 (Ev c false)).
Proof.
  unfold perform. destruct (fault_of c w) as [e'|].
  - intros H. injection H as -> <-. left. auto.
  - destruct (effect c (consume c w)) as [o w0] eqn:E. intros H.
    injection H as -> <-. right. split; [reflexivity|]. exists w0. auto.
Qed.

Lemma update_table_Value {A : Type} `{EqDecision A} (id : A -> Z) (o : bool)
    (i : Z) (prev data : A) (l l' : list A) :
  update_table id o i prev data l = Value l' ->
  is_Some (find_by_id id i l) /\ l' = replace_by_id id i data l.
Proof.
  unfold update_table. destruct (find_by_id id i l) as [cur|]; [|discriminate].
  destruct (o && negb (bool_decide (cur = prev))); [discriminate|].
  intros [= <-]. split; [eexists; reflexivity | reflexivity].
Qed.

Arguments paginate : simpl never.
Arguments merge_sort : simpl never.
Arguments fresh_id : simpl never.
Arguments replace_by_id : simpl never.
Arguments find_by_id : simpl never.

Ltac perform_ok H :=
  let w0 := fresh "w" in
  let F := fresh "F" in
  let E := fresh "E" in
  apply perform_Value in H; destruct H as (w0 & F & E & ->); cbn in E, F.

Lemma perform_trace (c : call) (w w1 : world) (o : outcome (resp c)) :
  perform c w = (o, w1) -> trace w1 = trace w ++ [Ev c (is_value o)].
Proof.
  unfold perform. destruct (fault_of c w) as [e|].
  - intros [= <- <-]. cbn. unfold consume. destruct (is_request c); reflexivity.
  - destruct (effect c (consume c w)) as [o' w0] eqn:E. intros [= <- <-]. cbn.
    assert (trace w0 = trace w) as ->; [|reflexivity].
    unfold consume in E.
    destruct c; cbn in E; unfold written in E; cbn in E;
      repeat match type of E with
             | context [match ?x with _ => _ end] => destruct x
             end; injection E as _ <-; reflexivity.
Qed.

Lemma processQrScan_paths (qrCode : string) (w w' : world)
    (r : outcome (option DialogContentData.t)) :
  run (processQrScan qrCode) w = (r, w') ->
  exists p,
    r = Value (path_result p)
    /\ trace w' = trace w ++ path_events qrCode (clock w (ticks w)) p
    /\ path_reads qrCode (clock w (ticks w)) (store w) p.
Proof.
  unfold processQrScan. cbn [run].
  destruct (perform (getList_members 1 1 qrCode) _) as [[ms|e] w1] eqn:P1.
  2:{ apply perform_trace in P1. cbn. intros [= <- <-]. exists (read_failed e).
      cbn. rewrite P1. rewrite <- !app_assoc. auto. }
  perform_ok P1. cbn [resp] in ms. injection E as <- <-.
  fold (members_page qrCode (store w)).
  destruct (members_page qrCode (store w)) as [|member ms] eqn:Hms.
  { cbn. intros [= <- <-]. exists no_member. cbn. rewrite <- !app_assoc. auto. }
  cbn [run].
  destruct (perform (getOne_member_types _) _) as [[mt|e] w2] eqn:P2.
  2:{ apply perform_trace in P2. cbn. intros [= <- <-].
      exists (type_failed member e).
      cbn. rewrite P2. cbn. rewrite <- !app_assoc. rewrite Hms. auto. }
  perform_ok P2. cbn [resp] in mt.
  destruct (find_by_id MemberType.id _ _) as [memberType|] eqn:Hmt; [|discriminate].
  injection E as <- <-.
  cbn [run].
  destruct (perform new_Date_toISOString _) as [[now|e] w3] eqn:P3.
  2:{ apply perform_Raised in P3 as [[? _]|[_ (? & ? & _)]]; discriminate. }
  perform_ok P3. cbn [resp] in now. injection E as <- <-.
  cbn [run].
  set (now := clock w (ticks w)).
  assert (L : (0 < length (scan_writes qrCode member memberType now)
               /\ 1 < length (scan_writes qrCode member memberType now)
               /\ 2 < length (scan_writes qrCode member memberType now))%nat).
  { unfold scan_writes. rewrite length_app. cbn. lia. }
  destruct (perform (update_members _ _ _) _) as [[?|e] w4] eqn:P4;
    apply perform_trace in P4; cbn in P4.
  2:{ cbn. intros [= <- <-]. exists (write_failed member memberType 0 e).
      cbn. rewrite P4, Hms, <- !app_assoc. intuition. }
  destruct (perform (update_member_types _ _ _) _) as [[?|e] w5] eqn:P5;
    apply perform_trace in P5; cbn in P5.
  2:{ cbn. intros [= <- <-]. exists (write_failed member memberType 1 e).
      cbn. rewrite P5, P4, Hms, <- !app_assoc. intuition. }
  destruct (perform (create_scan_logs _) _) as [[?|e] w6] eqn:P6;
    apply perform_trace in P6; cbn in P6.
  2:{ cbn. intros [= <- <-]. exists (write_failed member memberType 2 e).
      cbn. rewrite P6, P5, P4, Hms, <- !app_assoc. intuition. }
  destruct (rewardDue member memberType) eqn:RD; cbn [run].
  - destruct (perform (create_redeem_logs _ _) _) as [[?|e] w7] eqn:P7;
      apply perform_trace in P7; cbn in P7.
    2:{ cbn. intros [= <- <-]. exists (write_failed member memberType 3 e).
        cbn [path_events path_reads path_result].
        unfold scan_writes. rewrite RD. cbn. rewrite P7, P6, P5, P4, Hms, <- !app_assoc. intuition. }
    cbn. intros [= <- <-]. exists (committed member memberType).
    cbn [path_events path_reads path_result].
    unfold scan_writes. rewrite RD. cbn. rewrite P7, P6, P5, P4, Hms, <- !app_assoc. intuition.
  - cbn. intros [= <- <-]. exists (committed member memberType).
    cbn [path_events path_reads path_result].
    unfold scan_writes. rewrite RD. cbn. rewrite P6, P5, P4, Hms, <- !app_assoc. intuition.
Qed.
Lemma perform_store (c : call) (w w1 : world) (o : outcome (resp c)) :
  perform c w = (o, w1) ->
  replay_event (optimistic w) (store w) (Ev c (is_value o)) = Some (store w1)
  /\ optimistic w1 = optimistic w /\ airtable w1 = airtable w.
Proof.
  assert (C : store (consume c w) = store w
              /\ optimistic (consume c w) = optimistic w
              /\ airtable (consume c w) = airtable w).
  { unfold consume. destruct (is_request c); auto. }
  destruct C as (Cs & Co & Ca).
  unfold perform. destruct (fault_of c w) as [e|].
  - intros [= <- <-]. cbn. rewrite Cs, Co, Ca. auto.
  - destruct (effect c (consume c w)) as [o' w0] eqn:E. intros [= <- <-].
    unfold replay_event. cbn [ev_ok ev_call store optimistic airtable record_event].
    rewrite <- Cs, <- Co, <- Ca. clear Cs Co Ca.
    destruct c; cbn in E; unfold written in E; cbn in E |- *;
      repeat match type of E with
             | context [match ?x with _ => _ end] => destruct x eqn:?
             end; injection E as <- <-; cbn; auto.
Qed.

Lemma replay_app (o : bool) (evs evs' : list event) (s : Store) :
  replay o (evs ++ evs') s =
  match replay o evs s with
  | Some s' => replay o evs' s'
  | None => None
  end.
Proof.
  revert s. induction evs as [|e evs IH]; intros s; cbn; [reflexivity|].
  destruct (replay_event o s e); [apply IH | reflexivity].
Qed.

Lemma replay_app_Some (o : bool) (evs evs' : list event) (s s1 s2 : Store) :
  replay o evs s = Some s1 -> replay o evs' s1 = Some s2 ->
  replay o (evs ++ evs') s = Some s2.
Proof. intros H1 H2. rewrite replay_app, H1. exact H2. Qed.

Lemma run_store {R : Type} (p : prog R) :
  forall (w w' : world) (o : outcome R),
  run p w = (o, w') ->
  exists evs,
    trace w' = trace w ++ evs
    /\ replay (optimistic w) evs (store w) = Some (store w')
    /\ optimistic w' = optimistic w /\ airtable w' = airtable w.
Proof.
  induction p as [R r|R e|R c k IH|A R body IHb handler IHh k IHk];
    intros w w' o; cbn [run].
  - intros [= <- <-]. exists []. rewrite app_nil_r. auto.
  - intros [= <- <-]. exists []. rewrite app_nil_r. auto.
  - destruct (perform c w) as [[x|e] w1] eqn:P;
      pose proof (perform_trace _ _ _ _ P) as Pt;
      apply perform_store in P as (Ps & Po & Pa); cbn [is_value] in *.
    + intros H. apply IH in H as (evs & Ht & Hs & Ho & Ha).
      exists (Ev c true :: evs). rewrite Po in Hs.
      repeat split; try congruence.
      * rewrite Ht, Pt, <- app_assoc. reflexivity.
      * cbn [replay]. rewrite Ps. exact Hs.
    + intros [= <- <-]. exists [Ev c false].
      repeat split; try congruence. cbn [replay]. rewrite Ps. reflexivity.
  - destruct (run body w) as [[a|e] w1] eqn:B;
      apply IHb in B as (evs1 & Ht1 & Hs1 & Ho1 & Ha1).
    + intros H. apply IHk in H as (evs2 & Ht2 & Hs2 & Ho2 & Ha2).
      exists (evs1 ++ evs2). rewrite Ho1 in Hs2.
      repeat split; try congruence.
      * rewrite Ht2, Ht1, app_assoc. reflexivity.
      * eapply replay_app_Some; eassumption.
    + destruct (run (handler e) w1) as [[a|e'] w2] eqn:Hd;
        apply IHh in Hd as (evs2 & Ht2 & Hs2 & Ho2 & Ha2); rewrite Ho1 in Hs2.
      * intros H. apply IHk in H as (evs3 & Ht3 & Hs3 & Ho3 & Ha3).
        rewrite Ho2, Ho1 in Hs3.
        exists (evs1 ++ evs2 ++ evs3).
        repeat split; try congruence.
        -- rewrite Ht3, Ht2, Ht1, !app_assoc. reflexivity.
        -- eapply replay_app_Some; [eassumption|].
           eapply replay_app_Some; eassumption.
      * intros [= <- <-]. exists (evs1 ++ evs2).
        repeat split; try congruence.
        -- rewrite Ht2, Ht1, app_assoc. reflexivity.
        -- eapply replay_app_Some; eassumption.
Qed.
Lemma processQrScan_spec (qrCode : string) (w w' : world)
    (r : outcome (option DialogContentData.t)) :
  run (processQrScan qrCode) w = (r, w') ->
  exists p,
    r = Value (path_result p)
    /\ trace w' = trace w ++ path_events qrCode (clock w (ticks w)) p
    /\ path_reads qrCode (clock w (ticks w)) (store w) p
    /\ replay (optimistic w) (path_events qrCode (clock w (ticks w)) p)
         (store w) = Some (store w').
Proof.
  intros H. destruct (processQrScan_paths _ _ _ _ H) as (p & Hr & Ht & Hp).
  apply run_store in H as (evs & Ht' & Hs & _).
  rewrite Ht in Ht'. apply app_inv_head in Ht'. subst evs.
  exists p. auto.
Qed.

Lemma find_by_id_Some {A : Type} (id : A -> Z) (i : Z) (l : list A) (r : A) :
  find_by_id id i l = Some r -> r ∈ l /\ id r = i.
Proof.
  unfold find_by_id. intros H. apply find_some in H as [Hin Hb].
  apply bool_decide_eq_true in Hb. split; [|exact Hb].
  apply list_elem_of_In. exact Hin.
Qed.

Lemma find_by_id_replace {A : Type} (id : A -> Z) (i : Z) (data : A) (l : list A) :
  is_Some (find_by_id id i l) -> id data = i ->
  find_by_id id i (replace_by_id id i data l) = Some data.
Proof.
  unfold find_by_id, replace_by_id. intros [r Hr] Hd.
  induction l as [|x l IH]; [discriminate|].
  cbn in *. destruct (bool_decide (id x = i)) eqn:Hx.
  - rewrite Hd, bool_decide_eq_true_2; reflexivity.
  - rewrite Hx. apply IH. exact Hr.
Qed.

(** The store after the writes of a scan that went through. *)
Lemma committed_store (o : bool) (qrCode now : string) (member : Member.t)
    (memberType : MemberType.t) (s s' : Store) :
  replay o (path_events qrCode now (committed member memberType)) s = Some s' ->
  is_Some (find_by_id Member.id (Member.id member) (members s))
  /\ is_Some (find_by_id MemberType.id (MemberType.id memberType)
               (member_types s))
  /\ members s' =
       replace_by_id Member.id (Member.id member)
         (memberUpdateData member memberType now) (members s)
  /\ member_types s' =
       replace_by_id MemberType.id (MemberType.id memberType)
         (memberTypeUpdateData memberType) (member_types s)
  /\ scan_logs s' =
       scan_logs s ++ [ScanLog.mk (fresh_id (ScanLog.id <$> scan_logs s)) qrCode]
  /\ redeem_logs s' =
       redeem_logs s ++
       (if rewardDue member memberType then
          [RedeemLog.mk (fresh_id (RedeemLog.id <$> redeem_logs s))
             (Member.id member) (MemberType.reward_type_id memberType)]
        else [])
  /\ pending_members s' = pending_members s.
Proof.
  unfold path_events, scan_writes. cbn.
  destruct (update_table Member.id _ _ _ _ _) as [l1|] eqn:U1; [|discriminate].
  apply update_table_Value in U1 as [R1 ->]. cbn.
  destruct (update_table MemberType.id _ _ _ _ _) as [l2|] eqn:U2; [|discriminate].
  apply update_table_Value in U2 as [R2 ->]. cbn.
  destruct (rewardDue member memberType); cbn; intros [= <-]; cbn;
    rewrite ?app_nil_r; auto 10.
Qed.
Lemma processQrScan_committed (qrCode : string) (w w' : world)
    (d : DialogContentData.t) :
  run (processQrScan qrCode) w = (Value (Some d), w') ->
  exists member memberType,
    d = dialogData member memberType
    /\ head (members_page qrCode (store w)) = Some member
    /\ find_by_id MemberType.id (Member.member_type_id member)
         (member_types (store w)) = Some memberType
    /\ trace w' = trace w ++
         path_events qrCode (clock w (ticks w)) (committed member memberType)
    /\ replay (optimistic w)
         (path_events qrCode (clock w (ticks w)) (committed member memberType))
         (store w) = Some (store w').
Proof.
  intros H. apply processQrScan_spec in H as (p & Hr & Ht & Hp & Hs).
  destruct p as [e| |m e|m t n e|m t]; try discriminate.
  injection Hr as ->. destruct Hp as [Hm Hty].
  exists m, t. auto.
Qed.

Lemma rewardDue_spec (member : Member.t) (memberType : MemberType.t) :
  rewardDue member memberType
  = bool_decide (MemberType.scans_required memberType <= Member.points member + 1).
Proof.
  unfold rewardDue, newPointsToReward, newMemberPoints.
  destruct (Z.leb_spec (MemberType.scans_required memberType
                        - (Member.points member + 1)) 0).
  - symmetry. apply bool_decide_eq_true_2. lia.
  - symmetry. apply bool_decide_eq_false_2. lia.
Qed.

(** C1: after a successful scan of a member [m] of type [t], the stored
    member has one more total scan, [points_to_reward] is
    [scans_required t - (points m + 1)], [reward_due] tells whether
    [points m + 1] has reached [scans_required t], and [points] is 0 when
    it has and [points m + 1] otherwise; at the threshold the stored
    points are 0, the reward is due and [points_to_reward <= 0]. *)
Theorem scan_updates_member (qrCode : string) (w w' : world)
    (d : DialogContentData.t) :
  run (processQrScan qrCode) w = (Value (Some d), w') ->
  exists m t m',
    head (members_page qrCode (store w)) = Some m
    /\ find_by_id MemberType.id (Member.member_type_id m)
         (member_types (store w)) = Some t
    /\ find_by_id Member.id (Member.id m) (members (store w')) = Some m'
    /\ Member.total_scans m' = Member.total_scans m + 1
    /\ Member.points_to_reward m'
       = MemberType.scans_required t - (Member.points m + 1)
    /\ Member.reward_due m'
       = bool_decide (Member.points m + 1 >= MemberType.scans_required t)
    /\ Member.points m'
       = (if Member.reward_due m' then 0 else Member.points m + 1)
    /\ (Member.points m + 1 >= MemberType.scans_required t ->
        Member.points m' = 0 /\ Member.reward_due m' = true
        /\ Member.points_to_reward m' <= 0).
Proof.
  intros H. apply processQrScan_committed in H as (m & t & _ & Hm & Ht & _ & Hs).
  apply committed_store in Hs as (Hrow & _ & Hms & _).
  exists m, t, (memberUpdateData m t (clock w (ticks w))).
  split; [exact Hm|]. split; [exact Ht|].
  split. { rewrite Hms. apply find_by_id_replace; [exact Hrow | reflexivity]. }
  cbn. rewrite rewardDue_spec.
  unfold newPointsToReward, newMemberPoints.
  repeat split; repeat case_bool_decide; lia || reflexivity.
Qed.


#[local] Instance by_id_total {A : Type} (id : A -> Z) : Total (by_id id).
Proof. intros a b. unfold by_id. lia. Qed.

#[local] Instance by_id_trans {A : Type} (id : A -> Z) : Transitive (by_id id).
Proof. intros a b c. unfold by_id. lia. Qed.

Lemma paginate_first {A : Type} (l : list A) : head (paginate 1 1 l) = head l.
Proof. destruct l; reflexivity. Qed.

Lemma head_merge_sort {A : Type} (id : A -> Z) (l : list A) (x : A) :
  head (merge_sort (by_id id) l) = Some x ->
  x ∈ l /\ forall y, y ∈ l -> id x <= id y.
Proof.
  pose proof (StronglySorted_merge_sort (by_id id) l) as S.
  pose proof (merge_sort_Permutation (by_id id) l) as P.
  destruct (merge_sort (by_id id) l) as [|z zs]; [discriminate|].
  intros [= ->]. split.
  - rewrite <- P. left.
  - intros y Hy. rewrite <- P in Hy.
    apply StronglySorted_inv in S as [_ F].
    apply elem_of_cons in Hy as [->|Hy]; [unfold by_id; lia|].
    rewrite Forall_forall in F. apply F, Hy.
Qed.

Lemma head_merge_sort_None {A : Type} (id : A -> Z) (l : list A) :
  head (merge_sort (by_id id) l) = None -> l = [].
Proof.
  pose proof (merge_sort_Permutation (by_id id) l) as P.
  destruct (merge_sort (by_id id) l) as [|z zs]; [|discriminate].
  intros _. symmetry in P. apply Permutation_nil_r in P. exact P.
Qed.

(** [members[0]] is a member with the scanned code, and among those the
    one of lowest id. *)
Lemma members_page_head (qrCode : string) (s : Store) (m : Member.t) :
  head (members_page qrCode s) = Some m ->
  m ∈ members s /\ Member.qr_code m = qrCode
  /\ forall m', m' ∈ members s -> Member.qr_code m' = qrCode ->
       Member.id m <= Member.id m'.
Proof.
  unfold members_page. rewrite paginate_first. intros H.
  apply head_merge_sort in H as [Hin Hmin].
  apply list_elem_of_filter in Hin as [Hq Hin].
  split; [exact Hin|]. split; [exact Hq|].
  intros m' Hin' Hq'. apply Hmin. apply list_elem_of_filter. auto.
Qed.

Lemma members_page_nil (qrCode : string) (s : Store) :
  members_page qrCode s = [] <->
  forall m, m ∈ members s -> Member.qr_code m <> qrCode.
Proof.
  unfold members_page. split.
  - intros H m Hin Hq.
    assert (Hh : head (paginate 1 1
                  (merge_sort (by_id Member.id)
                     (filter (fun m => Member.qr_code m = qrCode) (members s))))
                 = None) by (rewrite H; reflexivity).
    rewrite paginate_first in Hh. apply head_merge_sort_None in Hh.
    assert (m ∈ filter (fun m => Member.qr_code m = qrCode) (members s)) as Hm
      by (apply list_elem_of_filter; auto).
    rewrite Hh in Hm. inversion Hm.
  - intros H.
    destruct (paginate 1 1 _) as [|m ms] eqn:E; [reflexivity|].
    assert (Hh : head (members_page qrCode s) = Some m)
      by (unfold members_page; rewrite E; reflexivity).
    apply members_page_head in Hh as (Hin & Hq & _).
    exfalso. exact (H m Hin Hq).
Qed.

(** C10: a successful scan writes the member back with [id], [qr_code],
    [name], [member_type_id] and every other column as they were read,
    and the member type with everything but [total_scans] as it was
    read ([total_scans] being one more); these are the rows the store
    holds afterwards, and the [data] of the two updates in the trace. *)
Theorem scan_frame (qrCode : string) (w w' : world)
    (d : DialogContentData.t) :
  run (processQrScan qrCode) w = (Value (Some d), w') ->
  exists m t m' t',
    head (members_page qrCode (store w)) = Some m
    /\ find_by_id MemberType.id (Member.member_type_id m)
         (member_types (store w)) = Some t
    /\ find_by_id Member.id (Member.id m) (members (store w')) = Some m'
    /\ find_by_id MemberType.id (MemberType.id t)
         (member_types (store w')) = Some t'
    /\ Ev (update_members (Member.id m) m m') true ∈ trace w'
    /\ Ev (update_member_types (MemberType.id t) t t') true ∈ trace w'
    /\ (Member.id m' = Member.id m
        /\ Member.qr_code m' = Member.qr_code m
        /\ Member.name m' = Member.name m
        /\ Member.member_type_id m' = Member.member_type_id m
        /\ Member.rest m' = Member.rest m)
    /\ (MemberType.id t' = MemberType.id t
        /\ MemberType.name t' = MemberType.name t
        /\ MemberType.scans_required t' = MemberType.scans_required t
        /\ MemberType.reward_type_id t' = MemberType.reward_type_id t
        /\ MemberType.rest t' = MemberType.rest t
        /\ MemberType.total_scans t' = MemberType.total_scans t + 1).
Proof.
  intros H. apply processQrScan_committed in H as (m & t & _ & Hm & Ht & Htr & Hs).
  apply committed_store in Hs as (Hrow & Hrow' & Hms & Hts & _).
  exists m, t, (memberUpdateData m t (clock w (ticks w))), (memberTypeUpdateData t).
  split; [exact Hm|]. split; [exact Ht|].
  split. { rewrite Hms. apply find_by_id_replace; [exact Hrow | reflexivity]. }
  split. { rewrite Hts. apply find_by_id_replace; [exact Hrow' | reflexivity]. }
  split. { rewrite Htr. cbn. set_solver. }
  split. { rewrite Htr. cbn. set_solver. }
  cbn. auto 10.
Qed.
Lemma scan_writes_length (qrCode now : string) (m : Member.t) (t : MemberType.t) :
  length (scan_writes qrCode m t now) = (if rewardDue m t then 4 else 3)%nat.
Proof. unfold scan_writes. destruct (rewardDue m t); reflexivity. Qed.

(** The writes along a path: those of the scan up to and including the
    one that failed, all of them on the path that went through. *)
Lemma writes_path_events (qrCode now : string) (p : scan_path) :
  (match p with
   | write_failed m t n _ => (n < length (scan_writes qrCode m t now))%nat
   | _ => True
   end) ->
  ev_call <$> writes (path_events qrCode now p) =
  match p with
  | write_failed m t n _ => take (S n) (scan_writes qrCode m t now)
  | committed m t => scan_writes qrCode m t now
  | _ => []
  end.
Proof.
  destruct p as [e| |m e|m t n e|m t]; try reflexivity.
  - rewrite scan_writes_length. unfold path_events, scan_writes.
    destruct (rewardDue m t); intros Hn;
      destruct n as [|[|[|[|n]]]]; try lia; reflexivity.
  - intros _. unfold path_events, scan_writes.
    destruct (rewardDue m t); reflexivity.
Qed.

Lemma writes_committed (qrCode now : string) (m : Member.t) (t : MemberType.t) :
  writes (path_events qrCode now (committed m t))
  = succeeded <$> scan_writes qrCode m t now.
Proof.
  unfold path_events, scan_writes. destruct (rewardDue m t); reflexivity.
Qed.

Lemma update_table_ok {A : Type} `{EqDecision A} (id : A -> Z) (o : bool)
    (i : Z) (prev data cur : A) (l : list A) :
  find_by_id id i l = Some cur ->
  o = false \/ cur = prev ->
  update_table id o i prev data l = Value (replace_by_id id i data l).
Proof.
  intros Hf Hc. unfold update_table. rewrite Hf.
  destruct Hc as [->| ->]; [reflexivity|].
  rewrite bool_decide_eq_true_2 by reflexivity.
  rewrite andb_false_r. reflexivity.
Qed.

(** A scan is accepted when the code resolves to a member whose member
    type is in the store, no request fails in transit, and the store
    takes the member update: it takes every update, or the row under the
    member's id is the member that was read. *)
Lemma processQrScan_accepts (qrCode : string) (w : world) (m : Member.t)
    (t : MemberType.t) :
  faults w = [] ->
  head (members_page qrCode (store w)) = Some m ->
  find_by_id MemberType.id (Member.member_type_id m) (member_types (store w))
  = Some t ->
  optimistic w = false
  \/ find_by_id Member.id (Member.id m) (members (store w)) = Some m ->
  exists w', run (processQrScan qrCode) w = (Value (Some (dialogData m t)), w').
Proof.
  destruct w as [s o a f ck tk u tr]. cbn [faults store optimistic].
  intros -> Hm Ht Hrow.
  assert (exists cur, find_by_id Member.id (Member.id m) (members s) = Some cur
                      /\ (o = false \/ cur = m)) as (cur & Hcur & Hok).
  { destruct Hrow as [Ho|Hrow]; [|exists m; auto].
    apply members_page_head in Hm as (Hin & _).
    destruct (find_by_id Member.id (Member.id m) (members s)) as [cur|] eqn:F.
    - exists cur. auto.
    - exfalso. unfold find_by_id in F. apply find_none with (x := m) in F.
      + rewrite bool_decide_eq_true_2 in F by reflexivity. discriminate.
      + apply list_elem_of_In. exact Hin. }
  pose proof (find_by_id_Some _ _ _ _ Ht) as [_ Hid].
  unfold processQrScan. cbn [run].
  unfold perform at 1.
  cbn [fault_of consume is_request faults head tail mjoin option_join
       with_faults effect store optimistic airtable clock ticks ui trace
       record_event is_value].
  fold (members_page qrCode s).
  destruct (members_page qrCode s) as [|m0 rest]; [discriminate|].
  injection Hm as ->. cbn [run].
  unfold perform at 1.
  cbn [fault_of consume is_request faults head tail mjoin option_join
       with_faults effect store optimistic airtable clock ticks ui trace
       record_event is_value].
  rewrite Ht.
  cbn [fault_of consume is_request faults head tail mjoin option_join
       with_faults effect store optimistic airtable clock ticks ui trace
       record_event is_value run].
  unfold perform at 1.
  cbn [fault_of consume is_request faults head tail mjoin option_join
       with_faults with_ticks effect store optimistic airtable clock ticks ui
       trace record_event is_value run].
  unfold perform at 1.
  cbn [fault_of consume is_request faults head tail mjoin option_join
       with_faults with_ticks effect store optimistic airtable clock ticks ui
       trace record_event is_value written apply_write].
  unfold written at 1.
  cbn [apply_write store optimistic record_event with_faults with_ticks].
  rewrite (update_table_ok _ _ _ _ _ _ _ Hcur Hok).
  cbn [fault_of consume is_request faults head tail mjoin option_join
       with_faults with_ticks with_store effect store optimistic airtable
       clock ticks ui trace record_event is_value run].
  unfold perform at 1.
  cbn [fault_of consume is_request faults head tail mjoin option_join
       with_faults with_ticks with_store effect store optimistic airtable
       clock ticks ui trace record_event is_value written apply_write
       member_types set_members].
  rewrite <- Hid in Ht. unfold written at 1.
  cbn [apply_write store optimistic record_event with_faults with_ticks
       with_store member_types set_members].
  rewrite (update_table_ok _ _ _ _ _ _ _ Ht (or_intror eq_refl)).
  cbn [fault_of consume is_request faults head tail mjoin option_join
       with_faults with_ticks with_store effect store optimistic airtable
       clock ticks ui trace record_event is_value run].
  unfold perform at 1.
  cbn [fault_of consume is_request faults head tail mjoin option_join
       with_faults with_ticks with_store effect store optimistic airtable
       clock ticks ui trace record_event is_value written apply_write run].
  destruct (rewardDue m t); cbn [run]; [|eexists; reflexivity].
  unfold perform at 1.
  cbn [fault_of consume is_request faults head tail mjoin option_join
       with_faults with_ticks with_store effect store optimistic airtable
       clock ticks ui trace record_event is_value written apply_write run].
  eexists. reflexivity.
Qed.

(** C5: the writes of one [processQrScan] call are issued in the order
    member update, member type update, scan log, redeem log.  In every
    run the writes issued are an initial part of that sequence for the
    member and type read; in a run that succeeds they are the whole
    sequence and all succeed: the scan log is always among them, the
    redeem log exactly when the reward is due.  And the run does
    succeed, with these writes, whenever the code resolves to a member
    whose type is in the store, no request fails in transit and the
    store takes the member update. *)
Theorem scan_write_order (qrCode : string) (w w' : world)
    (r : outcome (option DialogContentData.t)) :
  run (processQrScan qrCode) w = (r, w') ->
  exists evs,
    trace w' = trace w ++ evs
    /\ (writes evs = []
        \/ exists m t,
             head (members_page qrCode (store w)) = Some m
             /\ find_by_id MemberType.id (Member.member_type_id m)
                  (member_types (store w)) = Some t
             /\ (ev_call <$> writes evs)
                `prefix_of` scan_writes qrCode m t (clock w (ticks w)))
    /\ (forall d, r = Value (Some d) ->
        exists m t,
          head (members_page qrCode (store w)) = Some m
          /\ find_by_id MemberType.id (Member.member_type_id m)
               (member_types (store w)) = Some t
          /\ writes evs =
             [Ev (update_members (Member.id m) m
                    (memberUpdateData m t (clock w (ticks w)))) true;
              Ev (update_member_types (MemberType.id t) t
                    (memberTypeUpdateData t)) true;
              Ev (create_scan_logs qrCode) true]
             ++ (if rewardDue m t then
                   [Ev (create_redeem_logs (Member.id m)
                          (MemberType.reward_type_id t)) true]
                 else []))
    /\ (forall m t,
        faults w = [] ->
        head (members_page qrCode (store w)) = Some m ->
        find_by_id MemberType.id (Member.member_type_id m)
          (member_types (store w)) = Some t ->
        optimistic w = false
        \/ find_by_id Member.id (Member.id m) (members (store w)) = Some m ->
        r = Value (Some (dialogData m t))
        /\ writes evs =
           [Ev (update_members (Member.id m) m
                  (memberUpdateData m t (clock w (ticks w)))) true;
            Ev (update_member_types (MemberType.id t) t
                  (memberTypeUpdateData t)) true;
            Ev (create_scan_logs qrCode) true]
           ++ (if rewardDue m t then
                 [Ev (create_redeem_logs (Member.id m)
                        (MemberType.reward_type_id t)) true]
               else [])).
Proof.
  intros H. pose proof H as H0.
  apply processQrScan_spec in H as (p & Hr & Ht & Hp & _).
  exists (path_events qrCode (clock w (ticks w)) p).
  assert (forall d, r = Value (Some d) ->
          exists m t,
            head (members_page qrCode (store w)) = Some m
            /\ find_by_id MemberType.id (Member.member_type_id m)
                 (member_types (store w)) = Some t
            /\ writes (path_events qrCode (clock w (ticks w)) p) =
               [Ev (update_members (Member.id m) m
                      (memberUpdateData m t (clock w (ticks w)))) true;
                Ev (update_member_types (MemberType.id t) t
                      (memberTypeUpdateData t)) true;
                Ev (create_scan_logs qrCode) true]
               ++ (if rewardDue m t then
                     [Ev (create_redeem_logs (Member.id m)
                            (MemberType.reward_type_id t)) true]
                   else [])) as Hfull.
  { intros d ->. destruct p as [e| |m e|m t n e|m t]; try discriminate.
    destruct Hp as (Hm & Hty). exists m, t.
    split; [exact Hm|]. split; [exact Hty|].
    rewrite writes_committed. unfold scan_writes.
    destruct (rewardDue m t); reflexivity. }
  split; [exact Ht|]. split; [|split; [exact Hfull|]].
  - destruct p as [e| |m e|m t n e|m t]; try (left; reflexivity); right;
      exists m, t.
    + destruct Hp as (Hm & Hty & Hn). split; [exact Hm|]. split; [exact Hty|].
      rewrite (writes_path_events _ _ (write_failed m t n e) Hn).
      apply prefix_take.
    + destruct Hp as (Hm & Hty). split; [exact Hm|]. split; [exact Hty|].
      rewrite (writes_path_events _ _ (committed m t) I). reflexivity.
  - intros m t F Hm Hty Hrow.
    destruct (processQrScan_accepts qrCode w m t F Hm Hty Hrow) as (w1 & R).
    rewrite R in H0. injection H0 as <- _. split; [reflexivity|].
    destruct (Hfull _ eq_refl) as (m' & t' & Hm' & Hty' & Hw).
    rewrite Hm in Hm'. injection Hm' as <-.
    rewrite Hty in Hty'. injection Hty' as <-. exact Hw.
Qed.
Lemma scan_writes_NoDup (qrCode now : string) (m : Member.t) (t : MemberType.t) :
  NoDup (scan_writes qrCode m t now).
Proof.
  unfold scan_writes. destruct (rewardDue m t); cbn;
    repeat (apply NoDup_cons; split;
            [intros Hin;
             repeat (apply elem_of_cons in Hin as [Hin|Hin]; [discriminate|]);
             inversion Hin|]);
    apply NoDup_nil_2.
Qed.

(** A list with a single failed event splits around it in one way. *)
Lemma split_at_failure (pre post before after : list event) (x y : event) :
  pre ++ x :: post = before ++ y :: after ->
  ev_ok x = false ->
  Forall (fun e => ev_ok e = true) before ->
  Forall (fun e => ev_ok e = true) after ->
  pre = before /\ x = y /\ post = after.
Proof.
  revert before. induction pre as [|a pre IH]; intros [|b before]; cbn;
    intros E Hx Hb Ha.
  - injection E as -> ->. auto.
  - injection E as -> _. apply Forall_cons in Hb as [Hb _]. congruence.
  - injection E as -> E. rewrite Forall_forall in Ha.
    assert (Hin : x ∈ after) by (rewrite <- E; apply elem_of_app; right; left).
    apply Ha in Hin. congruence.
  - injection E as -> E. apply Forall_cons in Hb as [_ Hb].
    destruct (IH before E Hx Hb Ha) as (-> & -> & ->). auto.
Qed.

Lemma Forall_ok_succeeded (l : list call) :
  Forall (fun e => ev_ok e = true) (succeeded <$> l).
Proof. apply Forall_fmap, Forall_true. reflexivity. Qed.

(** Where a path has a failed write: on [write_failed] only, after the
    reads and the writes that succeeded, before the catch block. *)
Lemma path_failed_write (qrCode now : string) (p : scan_path)
    (pre post : list event) (c : call) :
  path_events qrCode now p = pre ++ Ev c false :: post ->
  is_write c = true ->
  (match p with
   | write_failed m t n _ => (n < length (scan_writes qrCode m t now))%nat
   | _ => True
   end) ->
  exists m t n e,
    p = write_failed m t n e
    /\ scan_writes qrCode m t now !! n = Some c
    /\ pre = [Ev (getList_members 1 1 qrCode) true;
              Ev (getOne_member_types (Member.member_type_id m)) true;
              Ev new_Date_toISOString true]
             ++ (succeeded <$> take n (scan_writes qrCode m t now))
    /\ post = scan_caught e.
Proof.
  intros E Hc Hn.
  assert (Hin : Ev c false ∈ path_events qrCode now p)
    by (rewrite E; apply elem_of_app; right; left).
  destruct p as [e| |m e|m t n e|m t].
  - cbn in Hin.
    repeat (apply elem_of_cons in Hin as [Hin|Hin];
            [injection Hin as ->; discriminate || congruence|]).
    inversion Hin.
  - cbn in Hin.
    repeat (apply elem_of_cons in Hin as [Hin|Hin];
            [injection Hin as ->; discriminate || congruence|]).
    inversion Hin.
  - cbn in Hin.
    repeat (apply elem_of_cons in Hin as [Hin|Hin];
            [injection Hin as ->; discriminate || congruence|]).
    inversion Hin.
  - clear Hin. exists m, t, n, e. split; [reflexivity|].
    destruct (scan_writes qrCode m t now !! n) as [c'|] eqn:L.
    2:{ apply lookup_ge_None in L. lia. }
    cbn [path_events] in E. rewrite L in E.
    rewrite !app_assoc in E. rewrite <- app_assoc in E.
    symmetry in E.
    apply split_at_failure in E;
      [ | reflexivity
        | apply Forall_app; split; [|apply Forall_ok_succeeded];
          repeat constructor
        | repeat constructor ].
    destruct E as (-> & [= ->] & ->). auto.
  - cbn [path_events] in Hin. apply elem_of_app in Hin as [Hin|Hin].
    + repeat (apply elem_of_cons in Hin as [Hin|Hin];
              [injection Hin as ->; discriminate || congruence|]).
      inversion Hin.
    + apply list_elem_of_fmap in Hin as (c' & Hc' & _). discriminate.
Qed.
(** C6, as the code has it: when a write of the commit sequence throws,
    the catch block logs the error, shows the one fixed notification and
    the call returns null; that is all that follows the failed write (no
    further request, no write made twice), and the store stays as the
    calls before the failure left it (nothing is rolled back). *)
Theorem scan_failed_write (qrCode : string) (w w' : world)
    (r : outcome (option DialogContentData.t))
    (pre post : list event) (c : call) :
  run (processQrScan qrCode) w = (r, w') ->
  trace w' = trace w ++ pre ++ Ev c false :: post ->
  is_write c = true ->
  r = Value None
  /\ (exists e, post = scan_caught e)
  /\ replay (optimistic w) pre (store w) = Some (store w')
  /\ NoDup (ev_call <$> writes (pre ++ Ev c false :: post)).
Proof.
  intros H Ht Hc. apply processQrScan_spec in H as (p & Hr & Ht' & Hp & Hs).
  rewrite Ht in Ht'. apply app_inv_head in Ht'.
  assert (Hn : match p with
               | write_failed m t n _ =>
                   (n < length (scan_writes qrCode m t (clock w (ticks w))))%nat
               | _ => True
               end).
  { destruct p; try exact I. apply Hp. }
  symmetry in Ht'.
  destruct (path_failed_write _ _ _ _ _ _ Ht' Hc Hn)
    as (m & t & n & e & -> & Hl & Hpre & Hpost).
  split; [exact Hr|]. split; [exists e; exact Hpost|]. split.
  - rewrite Ht', replay_app in Hs.
    destruct (replay (optimistic w) pre (store w)) as [s1|]; [|discriminate].
    rewrite Hpost in Hs. cbn in Hs. exact Hs.
  - rewrite <- Ht', (writes_path_events _ _ (write_failed m t n e) Hn).
    eapply sublist_NoDup; [apply scan_writes_NoDup | apply sublist_take].
Qed.

(** C4, as the code has it: with no member of the scanned code the call
    returns null, issues no write and leaves the store as it was; the
    writes of a call are those for the member of lowest id among the
    members of the scanned code, however many there are. *)
Theorem scan_resolves_lowest_id (qrCode : string) (w w' : world)
    (r : outcome (option DialogContentData.t)) :
  run (processQrScan qrCode) w = (r, w') ->
  exists evs,
    trace w' = trace w ++ evs
    /\ ((forall m, m ∈ members (store w) -> Member.qr_code m <> qrCode) ->
        r = Value None /\ writes evs = [] /\ store w' = store w
        /\ (Ev (getList_members 1 1 qrCode) true ∈ evs ->
            evs = [Ev (getList_members 1 1 qrCode) true;
                   Ev (notify "No member found with this QR code" type_error)
                     true]))
    /\ (writes evs <> [] \/ (exists d, r = Value (Some d)) ->
        exists m t,
          m ∈ members (store w) /\ Member.qr_code m = qrCode
          /\ (forall m', m' ∈ members (store w) ->
                Member.qr_code m' = qrCode -> Member.id m <= Member.id m')
          /\ (ev_call <$> writes evs)
             `prefix_of` scan_writes qrCode m t (clock w (ticks w))
          /\ forall d, r = Value (Some d) -> d = dialogData m t).
Proof.
  intros H. apply processQrScan_spec in H as (p & Hr & Ht & Hp & Hs).
  exists (path_events qrCode (clock w (ticks w)) p).
  split; [exact Ht|]. split.
  - intros Hnone. apply members_page_nil in Hnone.
    destruct p as [e| |m e|m t n e|m t]; cbn in Hp;
      try (rewrite Hnone in Hp; cbn in Hp; (discriminate || (destruct Hp; discriminate))).
    + cbn in Hs. injection Hs as <-. repeat split; try assumption.
      intros Hin. cbn in Hin.
      repeat (apply elem_of_cons in Hin as [Hin|Hin]; [discriminate|]).
      inversion Hin.
    + cbn in Hs. injection Hs as <-. repeat split; assumption.
  - intros Hw.
    assert (Hn : match p with
                 | write_failed m t n _ =>
                     (n < length (scan_writes qrCode m t (clock w (ticks w))))%nat
                 | _ => True
                 end).
    { destruct p; try exact I. apply Hp. }
    pose proof (writes_path_events qrCode (clock w (ticks w)) p Hn) as W.
    destruct p as [e| |m e|m t n e|m t]; cbn in Hp;
      try (exfalso; destruct Hw as [Hw|[d Hd]];
           [apply Hw; reflexivity | subst r; discriminate]).
    + destruct Hp as (Hm & Hty & _). apply members_page_head in Hm as (? & ? & ?).
      exists m, t. repeat split; try assumption.
      * rewrite W. apply prefix_take.
      * intros d ->. discriminate.
    + destruct Hp as (Hm & Hty). apply members_page_head in Hm as (? & ? & ?).
      exists m, t. repeat split; try assumption.
      * rewrite W. reflexivity.
      * intros d ->. injection Hr as ->. reflexivity.
Qed.
Lemma elem_of_replace_by_id {A : Type} (id : A -> Z) (i : Z) (data x : A)
    (l : list A) :
  x ∈ replace_by_id id i data l ->
  (x = data /\ exists r, r ∈ l /\ id r = i) \/ (x ∈ l /\ id x <> i).
Proof.
  unfold replace_by_id. intros H.
  apply list_elem_of_fmap in H as (r & -> & Hr).
  case_bool_decide; [left | right]; eauto.
Qed.

(** A second scan of the same code, after a first one went through,
    reads the member and the member type as the first one wrote them. *)
Lemma scan_again_reads (o : bool) (qrCode now : string) (m m2 : Member.t)
    (t : MemberType.t) (s s1 : Store) :
  head (members_page qrCode s) = Some m ->
  find_by_id MemberType.id (Member.member_type_id m) (member_types s) = Some t ->
  replay o (path_events qrCode now (committed m t)) s = Some s1 ->
  head (members_page qrCode s1) = Some m2 ->
  m2 = memberUpdateData m t now
  /\ find_by_id MemberType.id (Member.member_type_id m2) (member_types s1)
     = Some (memberTypeUpdateData t).
Proof.
  intros Hm Ht Hs Hm2.
  apply committed_store in Hs as (Hrow & Hrow' & Hms & Hts & _).
  apply members_page_head in Hm as (Hin & Hq & Hmin).
  apply members_page_head in Hm2 as (Hin2 & Hq2 & Hmin2).
  set (m1 := memberUpdateData m t now) in *.
  assert (Hm1 : m1 ∈ members s1).
  { rewrite Hms.
    eapply find_by_id_Some, find_by_id_replace; [exact Hrow | reflexivity]. }
  assert (E : m2 = m1).
  { rewrite Hms in Hin2.
    apply elem_of_replace_by_id in Hin2 as [[-> _]|[Hold Hne]]; [reflexivity|].
    specialize (Hmin m2 Hold Hq2). specialize (Hmin2 m1 Hm1 Hq).
    change (Member.id m1) with (Member.id m) in Hmin2. lia. }
  split; [exact E|]. subst m2.
  change (Member.member_type_id m1) with (Member.member_type_id m).
  apply find_by_id_Some in Ht as [_ Hid]. rewrite <- Hid in *.
  rewrite Hts. apply find_by_id_replace; [exact Hrow' | reflexivity].
Qed.

(** C2, as the code has it: two scans of one code that run one after
    the other and both succeed, from a member one point short of a
    threshold of at least 2, leave exactly one redeem log more and the
    member's total scans two higher. *)
Theorem two_scans_in_sequence (qrCode : string) (w w1 v1 w2 : world)
    (d1 d2 : DialogContentData.t) (m : Member.t) (t : MemberType.t) :
  run (processQrScan qrCode) w = (Value (Some d1), w1) ->
  store v1 = store w1 ->
  run (processQrScan qrCode) v1 = (Value (Some d2), w2) ->
  head (members_page qrCode (store w)) = Some m ->
  find_by_id MemberType.id (Member.member_type_id m)
    (member_types (store w)) = Some t ->
  Member.points m = MemberType.scans_required t - 1 ->
  2 <= MemberType.scans_required t ->
  (exists log,
     redeem_logs (store w2) = redeem_logs (store w) ++ [log]
     /\ RedeemLog.member_id log = Member.id m)
  /\ exists m2,
       find_by_id Member.id (Member.id m) (members (store w2)) = Some m2
       /\ Member.total_scans m2 = Member.total_scans m + 2.
Proof.
  intros H1 Es H2 Hm Ht Hp Hsr.
  apply processQrScan_committed in H1 as (m' & t' & _ & Hm' & Ht' & _ & Hs1).
  rewrite Hm in Hm'. injection Hm' as <-.
  rewrite Ht in Ht'. injection Ht' as <-.
  apply processQrScan_committed in H2 as (m2 & t2 & _ & Hm2 & Ht2 & _ & Hs2).
  rewrite Es in Hm2, Ht2, Hs2.
  destruct (scan_again_reads _ _ _ _ _ _ _ _ Hm Ht Hs1 Hm2) as [-> Ht2'].
  rewrite Ht2' in Ht2. injection Ht2 as <-.
  apply committed_store in Hs1 as (_ & _ & _ & _ & _ & Hr1 & _).
  apply committed_store in Hs2 as (Hrow2 & _ & Hms2 & _ & _ & Hr2 & _).
  assert (D1 : rewardDue m t = true).
  { unfold rewardDue, newPointsToReward, newMemberPoints.
    apply Z.leb_le. lia. }
  assert (D2 : rewardDue (memberUpdateData m t (clock w (ticks w)))
                 (memberTypeUpdateData t) = false).
  { unfold rewardDue, newPointsToReward, newMemberPoints. cbn. rewrite D1.
    apply Z.leb_gt. lia. }
  rewrite D1 in Hr1. rewrite D2 in Hr2. split.
  - eexists. rewrite Hr2, app_nil_r, Hr1. split; reflexivity.
  - eexists. split.
    + rewrite Hms2. apply find_by_id_replace; [exact Hrow2 | reflexivity].
    + cbn. lia.
Qed.
Lemma run_bind {A B : Type} (p : prog A) :
  forall (f : A -> prog B) (w : world),
  run (bind p f) w =
  match run p w with
  | (Value a, w') => run (f a) w'
  | (Raised e, w') => (Raised e, w')
  end.
Proof.
  induction p as [R r|R e|R c k IH|A' R body IHb handler IHh k IHk];
    intros f w; cbn [bind run]; try reflexivity.
  - destruct (perform c w) as [[x|e] w1]; [apply IH | reflexivity].
  - destruct (run body w) as [[a|e] w1].
    + apply IHk.
    + destruct (run (handler e) w1) as [[a|e'] w2]; [apply IHk | reflexivity].
Qed.

Lemma final_Some {R : Type} (p : prog R) (o : outcome R) :
  final p = Some o -> forall w, run p w = (o, w).
Proof. destruct p; cbn; intros [= <-] w; reflexivity. Qed.

(** Running call by call ends where [run] ends. *)
Lemma run_step {R : Type} (p : prog R) :
  forall w : world, run (step p w).1 (step p w).2 = run p w.
Proof.
  induction p as [R r|R e|R c k IH|A R body IHb handler IHh k IHk];
    intros w; cbn [step run]; try reflexivity.
  - destruct (perform c w) as [[x|e] w1]; reflexivity.
  - destruct (final body) as [[a|e]|] eqn:F.
    + rewrite (final_Some _ _ F). reflexivity.
    + rewrite (final_Some _ _ F). cbn [fst snd]. rewrite run_bind.
      destruct (run (handler e) w) as [[a|e'] w2]; reflexivity.
    + specialize (IHb w). destruct (step body w) as [body' w1].
      cbn [fst snd run] in *. rewrite IHb. reflexivity.
Qed.
(** ** The Airtable sync *)

Lemma created_sublist (evs : list event) :
  created evs `sublist_of` create_requests evs.
Proof.
  induction evs as [|[c ok] evs IH]; [constructor|].
  unfold created, create_requests in *. cbn.
  destruct c; cbn; try exact IH.
  destruct ok; cbn; [apply sublist_skip | apply sublist_cons]; exact IH.
Qed.

Lemma create_requests_app (evs evs' : list event) :
  create_requests (evs ++ evs') = create_requests evs ++ create_requests evs'.
Proof. unfold create_requests. apply omap_app. Qed.

Lemma created_app (evs evs' : list event) :
  created (evs ++ evs') = created evs ++ created evs'.
Proof. unfold created. apply omap_app. Qed.

(** The rows a trace leaves in [pending_members]: the ones that were
    there, then one per pending member created, in order. *)
Lemma replay_pending (o : bool) (evs : list event) :
  forall s s' : Store,
  replay o evs s = Some s' ->
  exists rows,
    pending_members s' = pending_members s ++ rows
    /\ PendingMember.data <$> rows = created evs.
Proof.
  induction evs as [|[c ok] evs IH]; intros s s'; cbn [replay].
  - intros [= <-]. exists []. rewrite app_nil_r. auto.
  - destruct (replay_event o s (Ev c ok)) as [s1|] eqn:E; [|discriminate].
    intros H. apply IH in H as (rows & Hp & Hd).
    unfold replay_event in E. cbn [ev_ok ev_call] in E.
    destruct ok.
    + destruct c; cbn in E;
        try (injection E as <-; exists rows; split; [exact Hp | exact Hd]).
      * destruct (update_table Member.id _ _ _ _ _); [|discriminate].
        injection E as <-. exists rows. auto.
      * destruct (update_table MemberType.id _ _ _ _ _); [|discriminate].
        injection E as <-. exists rows. auto.
      * injection E as <-. cbn in Hp. rewrite <- app_assoc in Hp.
        eexists. split; [exact Hp|]. cbn. rewrite Hd. reflexivity.
    + injection E as <-. exists rows. split; [exact Hp|].
      rewrite Hd. unfold created. cbn. destruct c; reflexivity.
Qed.
Lemma perform_no_fault (c : call) (w : world) :
  faults w = [] -> fault_of c w = None /\ faults (consume c w) = [].
Proof.
  intros H. unfold fault_of, consume. rewrite H.
  destruct (is_request c); cbn; auto.
Qed.

Lemma perform_faults (c : call) (w w1 : world) (o : outcome (resp c)) :
  perform c w = (o, w1) ->
  faults w1 = if is_request c then tail (faults w) else faults w.
Proof.
  unfold perform. destruct (fault_of c w) as [e|].
  - intros [= <- <-]. unfold consume. destruct (is_request c); reflexivity.
  - destruct (effect c (consume c w)) as [o' w0] eqn:E. intros [= <- <-].
    cbn. assert (faults w0 = faults (consume c w)) as ->.
    { destruct c; cbn in E; unfold written in E; cbn in E;
        repeat match type of E with
               | context [match ?x with _ => _ end] => destruct x
               end; injection E as _ <-; reflexivity. }
    unfold consume. destruct (is_request c); reflexivity.
Qed.

(** The loop: one create request per new member, in order; a request
    that fails is logged and the loop goes on. *)
Lemma create_all_run (news : list PendingMemberData.t) :
  forall w : world,
  exists w' evs,
    run (create_all news) w = (Value tt, w')
    /\ trace w' = trace w ++ evs
    /\ create_requests evs = news
    /\ (faults w = [] -> created evs = news).
Proof.
  induction news as [|member rest IH]; intros w;
    cbn [create_all create_failed run].
  - exists w, []. rewrite app_nil_r. auto.
  - destruct (perform (create_pending_members member) w) as [[x|e] w1] eqn:P;
      pose proof (perform_trace _ _ _ _ P) as Pt;
      pose proof (perform_faults _ _ _ _ P) as Pf; cbn in Pt, Pf.
    + cbn.
      match goal with |- context [run (create_all rest) ?v] =>
        destruct (IH v) as (w' & evs & Hr & Ht & Hc & Hf) end.
      cbn in Ht, Hf. rewrite Pt in Ht.
      exists w', (Ev (create_pending_members member) true
                  :: Ev (console_log ("Created new 'Pending Member': "
                                      +:+ PendingMemberData.name member)) true
                  :: evs).
      split; [exact Hr|]. split; [rewrite Ht, <- !app_assoc; reflexivity|].
      split; [cbn; rewrite <- Hc; reflexivity|].
      intros F. rewrite F in Pf. cbn. unfold created in *. cbn.
      rewrite Hf by exact Pf. reflexivity.
    + cbn.
      match goal with |- context [run (create_all rest) ?v] =>
        destruct (IH v) as (w' & evs & Hr & Ht & Hc & Hf) end.
      cbn in Ht, Hf. rewrite Pt in Ht.
      exists w', (Ev (create_pending_members member) false
                  :: Ev (console_error
                           ("Error creating member '"
                            +:+ PendingMemberData.name member +:+ "':") e) true
                  :: evs).
      split; [exact Hr|]. split; [rewrite Ht, <- !app_assoc; reflexivity|].
      split; [cbn; rewrite <- Hc; reflexivity|].
      intros F. exfalso.
      apply perform_Raised in P as [[Hfa _]|[_ (w0 & E & _)]].
      * unfold fault_of in Hfa. rewrite F in Hfa. discriminate.
      * cbn in E. unfold written in E. cbn in E. discriminate.
Qed.
(** Every run of the sync: either it stops before the loop and asks for
    no creation, or it asks for the creation of the new members, as
    computed from the response of Airtable and the page of pending
    members read. *)
Lemma airtableFetch_any {JS : LowerCase} (w w' : world) (o : outcome unit) :
  run airtableFetch w = (o, w') ->
  exists evs,
    trace w' = trace w ++ evs
    /\ (create_requests evs = []
        \/ exists data,
             Airtable.json (airtable w) = Some data
             /\ create_requests evs =
                newMembers (to_member <$> Airtable.records data)
                  (pending_page (store w))).
Proof.
  unfold airtableFetch, airtableFetch_catch. cbn [run].
  destruct (perform fetch_airtable w) as [[response|e] w1] eqn:P1.
  2:{ apply perform_trace in P1. cbn. intros [= <- <-].
      eexists. cbn. rewrite P1, <- app_assoc. split; [reflexivity|].
      left. reflexivity. }
  perform_ok P1. cbn [resp] in response. injection E as <- <-.
  destruct (400 <=? Airtable.status (airtable w)).
  { cbn. intros [= <- <-]. eexists. cbn. rewrite <- app_assoc.
    split; [reflexivity|]. left. reflexivity. }
  destruct (Airtable.json (airtable w)) as [data|] eqn:J.
  2:{ cbn. intros [= <- <-]. eexists. cbn. rewrite <- app_assoc.
      split; [reflexivity|]. left. reflexivity. }
  cbn [run].
  destruct (perform (getList_pending_members 1 1000) _) as [[existing|e] w2] eqn:P2.
  2:{ apply perform_trace in P2. cbn in P2 |- *. intros [= <- <-].
      eexists. cbn. rewrite P2, <- !app_assoc. split; [reflexivity|].
      left. reflexivity. }
  perform_ok P2. cbn [resp] in existing. injection E as <- <-.
  fold (pending_page (store w)).
  match goal with |- context [run (create_all ?l) ?v] =>
    destruct (create_all_run l v) as (w3 & evs & Hr & Ht & Hc & _) end.
  rewrite Hr. cbn. intros [= <- <-]. cbn in Ht.
  exists (Ev fetch_airtable true :: Ev (getList_pending_members 1 1000) true
          :: evs).
  split; [rewrite Ht, <- !app_assoc; reflexivity|].
  right. exists data. split; [reflexivity|]. exact Hc.
Qed.

(** A run of the sync in which Airtable answers with records and the
    pending members are read: it returns, having asked for the creation
    of the new members, one request each, in order; when nothing fails in
    transit all of them are created. *)
Lemma airtableFetch_synced {JS : LowerCase}
    (w : world) (data : Airtable.AirtableResponse) :
  mjoin (head (faults w)) = None ->
  mjoin (head (tail (faults w))) = None ->
  Airtable.status (airtable w) < 400 ->
  Airtable.json (airtable w) = Some data ->
  exists w' evs,
    run airtableFetch w = (Value tt, w')
    /\ trace w' = trace w ++ Ev fetch_airtable true
                  :: Ev (getList_pending_members 1 1000) true :: evs
    /\ create_requests evs =
       newMembers (to_member <$> Airtable.records data) (pending_page (store w))
    /\ (faults w = [] -> created evs = create_requests evs).
Proof.
  intros F1 F2 Hst J.
  unfold airtableFetch, airtableFetch_catch. cbn [run].
  unfold perform at 1. unfold fault_of. cbn [is_request]. rewrite F1.
  cbn [effect consume is_request is_value airtable with_faults record_event run].
  destruct (Z.leb_spec 400 (Airtable.status (airtable w))) as [?|_]; [lia|].
  rewrite J. cbn [run].
  unfold perform at 1. unfold fault_of.
  cbn [is_request faults record_event with_faults]. rewrite F2.
  cbn [effect consume is_request is_value]. cbn [run].
  match goal with |- context [run (create_all ?l) ?v] =>
    destruct (create_all_run l v) as (w3 & evs & Hr & Ht & Hc & Hf) end.
  exists w3, evs. rewrite Hr. cbn in Ht, Hc, Hf |- *.
  split; [reflexivity|]. split; [rewrite Ht, <- !app_assoc; reflexivity|].
  split; [exact Hc|].
  intros F. rewrite F in Hf. cbn in Hf. rewrite Hf by reflexivity.
  symmetry. exact Hc.
Qed.
Lemma elem_of_existingAirtableIds (x : string) (existing : list PendingMember.t) :
  x ∈ existingAirtableIds existing <->
  exists r, r ∈ existing /\ PendingMember.airtable_id r = x.
Proof.
  unfold existingAirtableIds. rewrite elem_of_list_to_set, list_elem_of_fmap.
  split; intros (r & H1 & H2); exists r; auto.
Qed.

Lemma elem_of_existingEmails {JS : LowerCase}
    (x : string) (existing : list PendingMember.t) :
  x ∈ existingEmails existing <->
  exists r, r ∈ existing /\ toLowerCase (PendingMember.email r) = x.
Proof.
  unfold existingEmails. rewrite elem_of_list_to_set, list_elem_of_fmap.
  split; intros (r & H1 & H2); exists r; auto.
Qed.

(** Which candidates are new. *)
Lemma elem_of_newMembers {JS : LowerCase} (c : PendingMemberData.t)
    (members : list PendingMemberData.t) (existing : list PendingMember.t) :
  c ∈ newMembers members existing <->
  c ∈ members
  /\ ~ (exists r, r ∈ existing
          /\ PendingMember.airtable_id r = PendingMemberData.airtable_id c)
  /\ ~ (exists r, r ∈ existing
          /\ toLowerCase (PendingMember.email r)
             = toLowerCase (PendingMemberData.email c)).
Proof.
  unfold newMembers. rewrite list_elem_of_filter.
  rewrite elem_of_existingAirtableIds, elem_of_existingEmails. tauto.
Qed.

(** The same filter with the two sets read as lists. *)
Lemma newMembers_lists {JS : LowerCase} (members : list PendingMemberData.t)
    (existing : list PendingMember.t) :
  newMembers members existing =
  filter (fun member =>
            (PendingMemberData.airtable_id member
               ∉ (PendingMember.airtable_id <$> existing))
            /\ (toLowerCase (PendingMemberData.email member)
                  ∉ ((fun r => toLowerCase (PendingMember.email r))
                       <$> existing)))
    members.
Proof.
  unfold newMembers. apply list_filter_iff. intros c.
  unfold existingAirtableIds, existingEmails.
  rewrite !elem_of_list_to_set. reflexivity.
Qed.

Lemma pending_page_subset (s : Store) (r : PendingMember.t) :
  r ∈ pending_page s -> r ∈ pending_members s.
Proof.
  unfold pending_page, paginate. intros H.
  apply elem_of_take in H as (i & H & _). rewrite drop_0 in H.
  apply list_elem_of_lookup_2 in H.
  rewrite merge_sort_Permutation in H. exact H.
Qed.

Lemma pending_page_all (s : Store) :
  (length (pending_members s) <= 1000)%nat ->
  pending_page s ≡ₚ pending_members s.
Proof.
  intros H. unfold pending_page, paginate. rewrite drop_0, take_ge.
  - apply merge_sort_Permutation.
  - rewrite merge_sort_Permutation. exact H.
Qed.

(** A run of the sync in which Airtable answers and the pending members
    are read, with the rows it adds. *)
Lemma airtableFetch_rows {JS : LowerCase}
    (w : world) (data : Airtable.AirtableResponse) :
  mjoin (head (faults w)) = None ->
  mjoin (head (tail (faults w))) = None ->
  Airtable.status (airtable w) < 400 ->
  Airtable.json (airtable w) = Some data ->
  exists w' evs rows,
    run airtableFetch w = (Value tt, w')
    /\ trace w' = trace w ++ evs
    /\ pending_members (store w') = pending_members (store w) ++ rows
    /\ PendingMember.data <$> rows = created evs
    /\ (faults w = [] -> created evs = create_requests evs)
    /\ create_requests evs =
       newMembers (to_member <$> Airtable.records data) (pending_page (store w)).
Proof.
  intros F1 F2 Hst J.
  destruct (airtableFetch_synced w data F1 F2 Hst J)
    as (w' & evs & Hr & Ht & Hc & Hf).
  pose proof (run_store _ _ _ _ Hr) as (evs' & Ht' & Hs & _).
  rewrite Ht in Ht'. apply app_inv_head in Ht'. subst evs'.
  apply replay_pending in Hs as (rows & Hp & Hd).
  exists w', (Ev fetch_airtable true
              :: Ev (getList_pending_members 1 1000) true :: evs), rows.
  change (created (Ev fetch_airtable true
                   :: Ev (getList_pending_members 1 1000) true :: evs))
    with (created evs) in *.
  change (create_requests (Ev fetch_airtable true
                   :: Ev (getList_pending_members 1 1000) true :: evs))
    with (create_requests evs).
  auto 10.
Qed.

(** Two ASCII strings that differ in the case of their letters only are
    the same to [toLowerCase]. *)
Lemma toLowerCase_ascii_eq {JS : LowerCase} (s1 s2 : string) :
  is_ascii s1 = true -> is_ascii s2 = true ->
  lower_ascii_letters s1 = lower_ascii_letters s2 ->
  toLowerCase s1 = toLowerCase s2.
Proof.
  intros H1 H2 E. rewrite !toLowerCase_ascii by assumption. exact E.
Qed.

(** C7, as the code has it: in a run of the sync in which Airtable
    answers and the pending members are read, on a store whose pending
    members fit in the page of 1000 rows that is read, the creation of a
    candidate is asked for exactly when it is made of a record of the
    response and neither its Airtable id is among the ids of the
    existing pending members nor its lower-cased e-mail among their
    lower-cased e-mails; the rows added are those of the requests that
    succeeded, all of them when no request fails; a candidate with
    e-mail [A@x.com] is not created when an existing pending member has
    [a@x.com]. *)
Theorem sync_creates_exactly_new {JS : LowerCase}
    (w : world) (data : Airtable.AirtableResponse) :
  mjoin (head (faults w)) = None ->
  mjoin (head (tail (faults w))) = None ->
  Airtable.status (airtable w) < 400 ->
  Airtable.json (airtable w) = Some data ->
  (length (pending_members (store w)) <= 1000)%nat ->
  exists w' evs rows,
    run airtableFetch w = (Value tt, w')
    /\ trace w' = trace w ++ evs
    /\ pending_members (store w') = pending_members (store w) ++ rows
    /\ PendingMember.data <$> rows = created evs
    /\ created evs `sublist_of` create_requests evs
    /\ (faults w = [] -> created evs = create_requests evs)
    /\ (forall c,
          c ∈ create_requests evs <->
          (exists record,
             record ∈ Airtable.records data
             /\ c = PendingMemberData.mk (Airtable.id record)
                      (Airtable.Name (Airtable.fields_of record))
                      (Airtable.Email (Airtable.fields_of record))
                      (Airtable.Membership_Type (Airtable.fields_of record))
                      (Airtable.QR_Code (Airtable.fields_of record))
                      (Airtable.Created (Airtable.fields_of record))
                      "pending" "Airtable")
          /\ ~ (exists r, r ∈ pending_members (store w)
                  /\ PendingMember.airtable_id r
                     = PendingMemberData.airtable_id c)
          /\ ~ (exists r, r ∈ pending_members (store w)
                  /\ toLowerCase (PendingMember.email r)
                     = toLowerCase (PendingMemberData.email c)))
    /\ (forall c r,
          r ∈ pending_members (store w) ->
          PendingMember.email r = "a@x.com" ->
          PendingMemberData.email c = "A@x.com" ->
          c ∉ create_requests evs).
Proof.
  intros F1 F2 Hst J Hlen.
  destruct (airtableFetch_rows w data F1 F2 Hst J)
    as (w' & evs & rows & Hr & Ht & Hp & Hd & Hf & Hc).
  pose proof (pending_page_all (store w) Hlen) as Hall.
  assert (forall c,
            c ∈ create_requests evs <->
            c ∈ to_member <$> Airtable.records data
            /\ ~ (exists r, r ∈ pending_members (store w)
                    /\ PendingMember.airtable_id r
                       = PendingMemberData.airtable_id c)
            /\ ~ (exists r, r ∈ pending_members (store w)
                    /\ toLowerCase (PendingMember.email r)
                       = toLowerCase (PendingMemberData.email c))) as Hnew.
  { intros c. rewrite Hc, elem_of_newMembers.
    split; intros (H1 & H2 & H3); (split; [exact H1|]); split;
      intros (r & Hin & E); [apply H2|apply H3|apply H2|apply H3];
      exists r; (split; [|exact E]);
      first [rewrite <- Hall; exact Hin | rewrite Hall; exact Hin]. }
  exists w', evs, rows.
  split; [exact Hr|]. split; [exact Ht|]. split; [exact Hp|].
  split; [exact Hd|]. split; [apply created_sublist|]. split; [exact Hf|].
  split.
  - intros c. rewrite Hnew, list_elem_of_fmap. unfold to_member.
    split; intros ((record & H1 & H2) & H3); (split; [|exact H3]);
      exists record; auto.
  - intros c r Hin Hr' Hc' Hcreated.
    apply Hnew in Hcreated as (_ & _ & Hn).
    apply Hn. exists r. split; [exact Hin|]. rewrite Hr', Hc'.
    apply toLowerCase_ascii_eq; reflexivity.
Qed.

(** C8, as the code has it: after a run of the sync in which nothing
    failed, a second run on the same Airtable records asks for no
    creation and adds no pending member, provided the pending members fit
    in the one page of 1000 rows the sync reads. *)
Theorem sync_twice_creates_nothing {JS : LowerCase}
    (w w1 v1 w2 : world) (o2 : outcome unit)
    (data : Airtable.AirtableResponse) :
  faults w = [] ->
  Airtable.status (airtable w) < 400 ->
  Airtable.json (airtable w) = Some data ->
  run airtableFetch w = (Value tt, w1) ->
  store v1 = store w1 -> airtable v1 = airtable w ->
  (length (pending_members (store w1)) <= 1000)%nat ->
  run airtableFetch v1 = (o2, w2) ->
  exists evs,
    trace w2 = trace v1 ++ evs
    /\ create_requests evs = []
    /\ pending_members (store w2) = pending_members (store w1).
Proof.
  intros F Hst J H1 Es Ea Hlen H2.
  assert (F1 : mjoin (head (faults w)) = None) by (rewrite F; reflexivity).
  assert (F2 : mjoin (head (tail (faults w))) = None) by (rewrite F; reflexivity).
  destruct (airtableFetch_rows w data F1 F2 Hst J)
    as (w1' & evs1 & rows & Hr & _ & Hp & Hd & Hf & Hc).
  rewrite H1 in Hr. injection Hr as <-.
  rewrite (Hf F) in Hd. clear Hf.
  pose proof (run_store _ _ _ _ H2) as (evs & Ht & Hs & _).
  apply replay_pending in Hs as (rows2 & Hp2 & Hd2).
  apply airtableFetch_any in H2 as (evs' & Ht' & Hcr).
  rewrite Ht in Ht'. apply app_inv_head in Ht'. subst evs'.
  exists evs. split; [exact Ht|].
  assert (Hnone : create_requests evs = []).
  { destruct Hcr as [?|(data' & J' & Hcr)]; [assumption|].
    rewrite Ea, J in J'. injection J' as <-. rewrite Hcr.
    apply elem_of_nil_inv. intros c Hnew.
    apply elem_of_newMembers in Hnew as (Hin & Hid & Hem).
    assert (Hall : forall r, r ∈ pending_members (store w1) ->
                             r ∈ pending_page (store v1)).
    { intros r Hr. rewrite Es, pending_page_all by exact Hlen. exact Hr. }
    destruct (decide (c ∈ create_requests evs1)) as [Hc1|Hc1].
    - rewrite <- Hd in Hc1. apply list_elem_of_fmap in Hc1 as (r & -> & Hr).
      apply Hid. exists r. split; [|reflexivity].
      apply Hall. rewrite Hp. apply elem_of_app. right. exact Hr.
    - rewrite Hc, elem_of_newMembers in Hc1.
      assert (Hold : forall r, r ∈ pending_page (store w) ->
                               r ∈ pending_page (store v1)).
      { intros r Hr. apply Hall. rewrite Hp. apply elem_of_app. left.
        apply pending_page_subset. exact Hr. }
      destruct (decide (PendingMemberData.airtable_id c
                          ∈ existingAirtableIds (pending_page (store w))))
        as [Hi|Hi].
      + apply elem_of_existingAirtableIds in Hi as (r & Hr & Hi).
        apply Hid. exists r. auto.
      + destruct (decide (toLowerCase (PendingMemberData.email c)
                            ∈ existingEmails (pending_page (store w))))
          as [He|He].
        * apply elem_of_existingEmails in He as (r & Hr & He).
          apply Hem. exists r. auto.
        * apply Hc1. split; [exact Hin|].
          rewrite <- elem_of_existingAirtableIds, <- elem_of_existingEmails.
          auto. }
  split; [exact Hnone|].
  pose proof (created_sublist evs) as Hsub. rewrite Hnone in Hsub.
  apply sublist_nil_r in Hsub. rewrite Hsub in Hd2.
  apply fmap_nil_inv in Hd2. subst rows2.
  rewrite Hp2, app_nil_r, Es. reflexivity.
Qed.
(** C9, as the code has it: a run of the sync keeps the pending members
    free of duplicate Airtable ids and of duplicate e-mails up to case,
    provided they were so before, they fit in the one page of 1000 rows
    the sync reads, and no two candidates of the batch share an id or an
    e-mail up to case. *)
Theorem sync_keeps_pending_unique {JS : LowerCase}
    (w w' : world) (o : outcome unit) :
  run airtableFetch w = (o, w') ->
  unique_pending (pending_members (store w)) ->
  (length (pending_members (store w)) <= 1000)%nat ->
  (forall data, Airtable.json (airtable w) = Some data ->
     unique_batch (to_member <$> Airtable.records data)) ->
  unique_pending (pending_members (store w')).
Proof.
  intros H [Uid Uem] Hlen Ubatch.
  pose proof (run_store _ _ _ _ H) as (evs & Ht & Hs & _).
  apply replay_pending in Hs as (rows & Hp & Hd).
  apply airtableFetch_any in H as (evs' & Ht' & Hcr).
  rewrite Ht in Ht'. apply app_inv_head in Ht'. subst evs'.
  pose proof (created_sublist evs) as Hsub.
  destruct Hcr as [Hnone|(data & J & Hcr)].
  { rewrite Hnone in Hsub. apply sublist_nil_r in Hsub. rewrite Hsub in Hd.
    apply fmap_nil_inv in Hd. subst rows. rewrite Hp, app_nil_r.
    split; assumption. }
  destruct (Ubatch data J) as [Bid Bem].
  set (members := to_member <$> Airtable.records data) in *.
  assert (Hnew : created evs `sublist_of` members).
  { etransitivity; [exact Hsub|]. rewrite Hcr. apply sublist_filter. }
  assert (Hfresh : forall c, c ∈ created evs ->
            (forall r, r ∈ pending_members (store w) ->
               PendingMember.airtable_id r <> PendingMemberData.airtable_id c)
            /\ (forall r, r ∈ pending_members (store w) ->
                  toLowerCase (PendingMember.email r)
                  <> toLowerCase (PendingMemberData.email c))).
  { intros c Hc. eapply elem_of_sublist in Hc; [|exact Hsub].
    rewrite Hcr in Hc. apply elem_of_newMembers in Hc as (_ & Hid & Hem).
    split; intros r Hr E; [apply Hid | apply Hem]; exists r;
      (split; [rewrite pending_page_all by exact Hlen; exact Hr | exact E]). }
  rewrite Hp. unfold unique_pending. rewrite !fmap_app. split.
  - apply NoDup_app. split; [exact Uid|]. split.
    + intros x Hx Hx'.
      apply list_elem_of_fmap in Hx as (r & -> & Hr).
      apply list_elem_of_fmap in Hx' as (r' & E & Hr').
      assert (Hc : PendingMember.data r' ∈ created evs)
        by (rewrite <- Hd; apply list_elem_of_fmap_2; exact Hr').
      apply Hfresh in Hc as [Hc _]. exact (Hc r Hr E).
    + change (PendingMember.airtable_id <$> rows)
        with ((fun r => PendingMemberData.airtable_id (PendingMember.data r))
                <$> rows).
      rewrite (list_fmap_compose PendingMember.data
                 PendingMemberData.airtable_id), Hd.
      eapply sublist_NoDup; [exact Bid|]. apply fmap_sublist. exact Hnew.
  - apply NoDup_app. split; [exact Uem|]. split.
    + intros x Hx Hx'.
      apply list_elem_of_fmap in Hx as (r & -> & Hr).
      apply list_elem_of_fmap in Hx' as (r' & E & Hr').
      assert (Hc : PendingMember.data r' ∈ created evs)
        by (rewrite <- Hd; apply list_elem_of_fmap_2; exact Hr').
      apply Hfresh in Hc as [_ Hc]. exact (Hc r Hr E).
    + change ((fun r => toLowerCase (PendingMember.email r)) <$> rows)
        with (((fun m => toLowerCase (PendingMemberData.email m))
               ∘ PendingMember.data) <$> rows).
      rewrite list_fmap_compose, Hd.
      eapply sublist_NoDup; [exact Bem|]. apply fmap_sublist. exact Hnew.
Qed.
Lemma airtableFetch_fault_free {JS : LowerCase}
    (w : world) (data : Airtable.AirtableResponse) :
  faults w = [] ->
  Airtable.status (airtable w) < 400 ->
  Airtable.json (airtable w) = Some data ->
  exists w',
    run airtableFetch w = (Value tt, w')
    /\ w' = (run (create_all
                    (filter (fun member =>
                       (PendingMemberData.airtable_id member
                          ∉ (PendingMember.airtable_id
                               <$> pending_page (store w)))
                       /\ (toLowerCase (PendingMemberData.email member)
                             ∉ ((fun r => toLowerCase (PendingMember.email r))
                                  <$> pending_page (store w))))
                       (to_member <$> Airtable.records data)))
               (record_event
                  (with_faults
                     (record_event (with_faults w [])
                        (Ev fetch_airtable true)) [])
                  (Ev (getList_pending_members 1 1000) true))).2.
Proof.
  intros F Hst J.
  unfold airtableFetch, airtableFetch_catch. cbn [run].
  unfold perform at 1. unfold fault_of. cbn [is_request]. rewrite F.
  cbn [effect consume is_request is_value airtable with_faults record_event run
       head tail mjoin option_join].
  destruct (Z.leb_spec 400 (Airtable.status (airtable w))) as [?|_]; [lia|].
  rewrite J. cbn [run].
  unfold perform at 1. unfold fault_of.
  cbn [is_request faults record_event with_faults head tail mjoin option_join].
  rewrite F.
  cbn [effect consume is_request is_value run faults record_event with_faults
       head tail mjoin option_join store].
  fold (pending_page (store w)). rewrite newMembers_lists.
  match goal with |- context [run (create_all ?l) ?v] =>
    destruct (create_all_run l v) as (w3 & evs & Hr & _) end.
  rewrite Hr. cbn. eexists. split; reflexivity.
Qed.

(** ** The theorems at sample worlds *)

Lemma scan_updates_member_witness :
  run (processQrScan "QR-7") sample_world
  = (Value (Some (dialogData sample_member sample_type)),
     (run (processQrScan "QR-7") sample_world).2)
  /\ exists m t m',
    head (members_page "QR-7" (store sample_world)) = Some m
    /\ find_by_id MemberType.id (Member.member_type_id m)
         (member_types (store sample_world)) = Some t
    /\ find_by_id Member.id (Member.id m)
         (members (store (run (processQrScan "QR-7") sample_world).2)) = Some m'
    /\ Member.total_scans m' = Member.total_scans m + 1
    /\ Member.points_to_reward m'
       = MemberType.scans_required t - (Member.points m + 1)
    /\ Member.reward_due m'
       = bool_decide (Member.points m + 1 >= MemberType.scans_required t)
    /\ Member.points m'
       = (if Member.reward_due m' then 0 else Member.points m + 1)
    /\ (Member.points m + 1 >= MemberType.scans_required t ->
        Member.points m' = 0 /\ Member.reward_due m' = true
        /\ Member.points_to_reward m' <= 0).
Proof.
  split; [vm_compute; reflexivity|].
  apply (scan_updates_member "QR-7" sample_world _
           (dialogData sample_member sample_type)).
  vm_compute. reflexivity.
Defined.


Lemma scan_frame_witness :
  run (processQrScan "QR-7") sample_world
  = (Value (Some (dialogData sample_member sample_type)),
     (run (processQrScan "QR-7") sample_world).2)
  /\ exists m t m' t',
    head (members_page "QR-7" (store sample_world)) = Some m
    /\ find_by_id MemberType.id (Member.member_type_id m)
         (member_types (store sample_world)) = Some t
    /\ find_by_id Member.id (Member.id m)
         (members (store (run (processQrScan "QR-7") sample_world).2)) = Some m'
    /\ find_by_id MemberType.id (MemberType.id t)
         (member_types (store (run (processQrScan "QR-7") sample_world).2))
       = Some t'
    /\ Ev (update_members (Member.id m) m m') true
       ∈ trace (run (processQrScan "QR-7") sample_world).2
    /\ Ev (update_member_types (MemberType.id t) t t') true
       ∈ trace (run (processQrScan "QR-7") sample_world).2
    /\ (Member.id m' = Member.id m
        /\ Member.qr_code m' = Member.qr_code m
        /\ Member.name m' = Member.name m
        /\ Member.member_type_id m' = Member.member_type_id m
        /\ Member.rest m' = Member.rest m)
    /\ (MemberType.id t' = MemberType.id t
        /\ MemberType.name t' = MemberType.name t
        /\ MemberType.scans_required t' = MemberType.scans_required t
        /\ MemberType.reward_type_id t' = MemberType.reward_type_id t
        /\ MemberType.rest t' = MemberType.rest t
        /\ MemberType.total_scans t' = MemberType.total_scans t + 1).
Proof.
  split; [vm_compute; reflexivity|].
  apply (scan_frame "QR-7" sample_world _
           (dialogData sample_member sample_type)).
  vm_compute. reflexivity.
Defined.
Lemma scan_write_order_witness :
  (exists evs,
    trace (run (processQrScan "QR-7") sample_world).2
    = trace sample_world ++ evs
    /\ (writes evs = []
        \/ exists m t,
             head (members_page "QR-7" (store sample_world)) = Some m
             /\ find_by_id MemberType.id (Member.member_type_id m)
                  (member_types (store sample_world)) = Some t
             /\ (ev_call <$> writes evs)
                `prefix_of` scan_writes "QR-7" m t
                              (clock sample_world (ticks sample_world)))
    /\ (forall d, (run (processQrScan "QR-7") sample_world).1 = Value (Some d) ->
        exists m t,
          head (members_page "QR-7" (store sample_world)) = Some m
          /\ find_by_id MemberType.id (Member.member_type_id m)
               (member_types (store sample_world)) = Some t
          /\ writes evs =
             [Ev (update_members (Member.id m) m
                    (memberUpdateData m t
                       (clock sample_world (ticks sample_world)))) true;
              Ev (update_member_types (MemberType.id t) t
                    (memberTypeUpdateData t)) true;
              Ev (create_scan_logs "QR-7") true]
             ++ (if rewardDue m t then
                   [Ev (create_redeem_logs (Member.id m)
                          (MemberType.reward_type_id t)) true]
                 else []))
    /\ (forall m t,
        faults sample_world = [] ->
        head (members_page "QR-7" (store sample_world)) = Some m ->
        find_by_id MemberType.id (Member.member_type_id m)
          (member_types (store sample_world)) = Some t ->
        optimistic sample_world = false
        \/ find_by_id Member.id (Member.id m) (members (store sample_world))
           = Some m ->
        (run (processQrScan "QR-7") sample_world).1
        = Value (Some (dialogData m t))
        /\ writes evs =
           [Ev (update_members (Member.id m) m
                  (memberUpdateData m t
                     (clock sample_world (ticks sample_world)))) true;
            Ev (update_member_types (MemberType.id t) t
                  (memberTypeUpdateData t)) true;
            Ev (create_scan_logs "QR-7") true]
           ++ (if rewardDue m t then
                 [Ev (create_redeem_logs (Member.id m)
                        (MemberType.reward_type_id t)) true]
               else [])))
  /\ (run (processQrScan "QR-7") sample_world).1
     = Value (Some (DialogContentData.mk "Coffee" "Ada" 0 3))
  /\ writes (trace (run (processQrScan "QR-7") sample_world).2)
     = [Ev (update_members 7 sample_member
              (memberUpdateData sample_member sample_type
                 "2025-01-01T10:00:00.000Z")) true;
        Ev (update_member_types 1 sample_type
              (memberTypeUpdateData sample_type)) true;
        Ev (create_scan_logs "QR-7") true;
        Ev (create_redeem_logs 7 4) true].
Proof.
  split; [|split; vm_compute; reflexivity].
  apply (scan_write_order "QR-7" sample_world).
  vm_compute. reflexivity.
Defined.

(** The member type update fails in transit, after the member update
    went through. *)
Lemma scan_failed_write_witness :
  run (processQrScan "QR-7") (failing_after 3)
  = (Value None, (run (processQrScan "QR-7") (failing_after 3)).2)
  /\ is_write (update_member_types 1 sample_type
                 (memberTypeUpdateData sample_type)) = true
  /\ Value None = Value (@None DialogContentData.t)
  /\ (exists e, scan_caught (Error "503") = scan_caught e)
  /\ replay (optimistic (failing_after 3))
       [Ev (getList_members 1 1 "QR-7") true;
        Ev (getOne_member_types 1) true;
        Ev new_Date_toISOString true;
        Ev (update_members 7 sample_member
              (memberUpdateData sample_member sample_type (sample_clock 0)))
           true]
       (store (failing_after 3))
     = Some (store (run (processQrScan "QR-7") (failing_after 3)).2)
  /\ NoDup (ev_call <$>
            writes ([Ev (getList_members 1 1 "QR-7") true;
                     Ev (getOne_member_types 1) true;
                     Ev new_Date_toISOString true;
                     Ev (update_members 7 sample_member
                           (memberUpdateData sample_member sample_type
                              (sample_clock 0))) true]
                    ++ Ev (update_member_types 1 sample_type
                             (memberTypeUpdateData sample_type)) false
                       :: scan_caught (Error "503"))).
Proof.
  split; [vm_compute; reflexivity|].
  split; [reflexivity|].
  apply (scan_failed_write "QR-7" (failing_after 3)
           (run (processQrScan "QR-7") (failing_after 3)).2 (Value None)).
  - vm_compute. reflexivity.
  - vm_compute. reflexivity.
  - reflexivity.
Defined.

Lemma scan_resolves_lowest_id_witness :
  run (processQrScan "QR-7") ambiguous_world
  = ((run (processQrScan "QR-7") ambiguous_world).1,
     (run (processQrScan "QR-7") ambiguous_world).2)
  /\ exists evs,
    trace (run (processQrScan "QR-7") ambiguous_world).2
    = trace ambiguous_world ++ evs
    /\ ((forall m, m ∈ members (store ambiguous_world) ->
           Member.qr_code m <> "QR-7") ->
        (run (processQrScan "QR-7") ambiguous_world).1 = Value None
        /\ writes evs = []
        /\ store (run (processQrScan "QR-7") ambiguous_world).2
           = store ambiguous_world
        /\ (Ev (getList_members 1 1 "QR-7") true ∈ evs ->
            evs = [Ev (getList_members 1 1 "QR-7") true;
                   Ev (notify "No member found with this QR code" type_error)
                     true]))
    /\ (writes evs <> []
        \/ (exists d, (run (processQrScan "QR-7") ambiguous_world).1
                      = Value (Some d)) ->
        exists m t,
          m ∈ members (store ambiguous_world) /\ Member.qr_code m = "QR-7"
          /\ (forall m', m' ∈ members (store ambiguous_world) ->
                Member.qr_code m' = "QR-7" -> Member.id m <= Member.id m')
          /\ (ev_call <$> writes evs)
             `prefix_of` scan_writes "QR-7" m t
                           (clock ambiguous_world (ticks ambiguous_world))
          /\ forall d, (run (processQrScan "QR-7") ambiguous_world).1
                       = Value (Some d) -> d = dialogData m t).
Proof.
  split; [vm_compute; reflexivity|].
  apply (scan_resolves_lowest_id "QR-7" ambiguous_world).
  vm_compute. reflexivity.
Defined.

Lemma two_scans_in_sequence_witness :
  (exists log,
     redeem_logs
       (store (run (processQrScan "QR-7")
                 (run (processQrScan "QR-7") sample_world).2).2)
     = redeem_logs (store sample_world) ++ [log]
     /\ RedeemLog.member_id log = Member.id sample_member)
  /\ exists m2,
       find_by_id Member.id (Member.id sample_member)
         (members
            (store (run (processQrScan "QR-7")
                      (run (processQrScan "QR-7") sample_world).2).2))
       = Some m2
       /\ Member.total_scans m2 = Member.total_scans sample_member + 2.
Proof.
  apply (two_scans_in_sequence "QR-7" sample_world
           (run (processQrScan "QR-7") sample_world).2
           (run (processQrScan "QR-7") sample_world).2
           (run (processQrScan "QR-7")
              (run (processQrScan "QR-7") sample_world).2).2
           (dialogData sample_member sample_type)
           (dialogData
              (memberUpdateData sample_member sample_type (sample_clock 0))
              (memberTypeUpdateData sample_type))
           sample_member sample_type).
  - vm_compute. reflexivity.
  - reflexivity.
  - vm_compute. reflexivity.
  - vm_compute. reflexivity.
  - vm_compute. reflexivity.
  - reflexivity.
  - vm_compute. discriminate.
Defined.
Lemma sync_creates_exactly_new_witness :
  (exists w' evs rows,
    run airtableFetch sync_world = (Value tt, w')
    /\ trace w' = trace sync_world ++ evs
    /\ pending_members (store w') = pending_members (store sync_world) ++ rows
    /\ PendingMember.data <$> rows = created evs
    /\ created evs `sublist_of` create_requests evs
    /\ (faults sync_world = [] -> created evs = create_requests evs)
    /\ (forall c,
          c ∈ create_requests evs <->
          (exists record,
             record ∈ [sample_applicant "recA" "Ann" "A@x.com";
                       sample_applicant "recB" "Bob" "bob@x.com"]
             /\ c = PendingMemberData.mk (Airtable.id record)
                      (Airtable.Name (Airtable.fields_of record))
                      (Airtable.Email (Airtable.fields_of record))
                      (Airtable.Membership_Type (Airtable.fields_of record))
                      (Airtable.QR_Code (Airtable.fields_of record))
                      (Airtable.Created (Airtable.fields_of record))
                      "pending" "Airtable")
          /\ ~ (exists r, r ∈ pending_members (store sync_world)
                  /\ PendingMember.airtable_id r
                     = PendingMemberData.airtable_id c)
          /\ ~ (exists r, r ∈ pending_members (store sync_world)
                  /\ toLowerCase (PendingMember.email r)
                     = toLowerCase (PendingMemberData.email c)))
    /\ (forall c r,
          r ∈ pending_members (store sync_world) ->
          PendingMember.email r = "a@x.com" ->
          PendingMemberData.email c = "A@x.com" ->
          c ∉ create_requests evs))
  /\ PendingMember.data
       <$> pending_members (store (run airtableFetch sync_world).2)
     = [PendingMemberData.mk "recZ" "Ann" "a@x.com" "Gold" EmptyString
          "2025-01-01" "pending" "Airtable";
        PendingMemberData.mk "recB" "Bob" "bob@x.com" "Gold" EmptyString
          "2025-01-01" "pending" "Airtable"].
Proof.
  split.
  - apply (sync_creates_exactly_new sync_world
             (Airtable.mkResponse
                [sample_applicant "recA" "Ann" "A@x.com";
                 sample_applicant "recB" "Bob" "bob@x.com"])).
    + reflexivity.
    + reflexivity.
    + reflexivity.
    + reflexivity.
    + vm_compute. lia.
  - vm_compute. reflexivity.
Defined.

Lemma sync_twice_creates_nothing_witness :
  exists evs,
    trace (run airtableFetch (run airtableFetch sync_world).2).2
    = trace (run airtableFetch sync_world).2 ++ evs
    /\ create_requests evs = []
    /\ pending_members
         (store (run airtableFetch (run airtableFetch sync_world).2).2)
       = pending_members (store (run airtableFetch sync_world).2).
Proof.
  apply (sync_twice_creates_nothing sync_world
           (run airtableFetch sync_world).2
           (run airtableFetch sync_world).2
           (run airtableFetch (run airtableFetch sync_world).2).2
           (run airtableFetch (run airtableFetch sync_world).2).1
           (Airtable.mkResponse
              [sample_applicant "recA" "Ann" "A@x.com";
               sample_applicant "recB" "Bob" "bob@x.com"])).
  - reflexivity.
  - reflexivity.
  - reflexivity.
  - vm_compute. reflexivity.
  - reflexivity.
  - vm_compute. reflexivity.
  - vm_compute. lia.
  - vm_compute. reflexivity.
Defined.

Lemma sync_keeps_pending_unique_witness :
  unique_pending (pending_members (store sync_world))
  /\ unique_pending (pending_members (store (run airtableFetch sync_world).2)).
Proof.
  assert (U : unique_pending (pending_members (store sync_world))).
  { split; apply NoDup_singleton. }
  split; [exact U|].
  apply (sync_keeps_pending_unique sync_world _
           (run airtableFetch sync_world).1).
  - vm_compute. reflexivity.
  - exact U.
  - cbn. lia.
  - intros data [= <-]. split; cbn.
    + apply NoDup_cons. split; [|apply NoDup_singleton].
      rewrite list_elem_of_singleton. discriminate.
    + apply NoDup_cons. split; [|apply NoDup_singleton].
      rewrite list_elem_of_singleton. discriminate.
Defined.

(** ** Where the specification and the code part *)

(** Two scanners detect Ada's code one point short of her reward and
    their calls alternate.  On a store that takes every update, both
    scans read 2 points: both dialogs announce the reward, two redeem
    logs are written and her total scans grow by one (10 to 11).  On a
    store that compares with [previousData], the second update is
    refused: one redeem log, total scans again 11, and scanner B shows
    the failure. *)
Lemma two_scanners_interleaved :
  (let sys := schedule (two_scanners sample_world "QR-7") (alternating 14) in
   final (taskA sys) = Some (Value tt)
   /\ final (taskB sys) = Some (Value tt)
   /\ dialogContent (uiA sys) = Some (dialogData sample_member sample_type)
   /\ dialogContent (uiB sys) = Some (dialogData sample_member sample_type)
   /\ length (redeem_logs (store (shared sys))) = 2%nat
   /\ Member.total_scans
        <$> find_by_id Member.id 7 (members (store (shared sys)))
      = Some (Member.total_scans sample_member + 1))
  /\ (let sys := schedule (two_scanners sample_world_optimistic "QR-7")
                   (alternating 14) in
      final (taskA sys) = Some (Value tt)
      /\ final (taskB sys) = Some (Value tt)
      /\ dialogContent (uiA sys) = Some (dialogData sample_member sample_type)
      /\ dialogContent (uiB sys) = None
      /\ length (redeem_logs (store (shared sys))) = 1%nat
      /\ Member.total_scans
           <$> find_by_id Member.id 7 (members (store (shared sys)))
         = Some (Member.total_scans sample_member + 1)).
Proof. vm_compute. auto 20. Qed.

(** Two members carry the scanned code: the call does not abort, it
    scans the one of lowest id. *)
Lemma ambiguous_code_is_scanned :
  length (filter (fun m => Member.qr_code m = "QR-7")
            (members (store ambiguous_world))) = 2%nat
  /\ (run (processQrScan "QR-7") ambiguous_world).1
     = Value (Some (dialogData sample_member sample_type))
  /\ writes (trace (run (processQrScan "QR-7") ambiguous_world).2) <> []
  /\ members (store (run (processQrScan "QR-7") ambiguous_world).2)
     = [sample_twin;
        memberUpdateData sample_member sample_type (sample_clock 0)].
Proof. vm_compute. repeat split; discriminate. Qed.

(** The member type update fails in one call, the scan log in another:
    one write had succeeded in the first, two in the second, and the two
    calls return the same, report the same and leave the dialog the
    same. *)
Lemma partial_commits_report_alike :
  (run (processQrScan "QR-7") (failing_after 3)).1 = Value None
  /\ (run (processQrScan "QR-7") (failing_after 4)).1 = Value None
  /\ reports (trace (run (processQrScan "QR-7") (failing_after 3)).2)
     = reports (trace (run (processQrScan "QR-7") (failing_after 4)).2)
  /\ reports (trace (run (processQrScan "QR-7") (failing_after 3)).2)
     = scan_caught (Error "503")
  /\ ui (run (processQrScan "QR-7") (failing_after 3)).2
     = ui (run (processQrScan "QR-7") (failing_after 4)).2
  /\ length (filter (fun e => ev_ok e = true)
               (writes (trace (run (processQrScan "QR-7")
                                 (failing_after 3)).2))) = 1%nat
  /\ length (filter (fun e => ev_ok e = true)
               (writes (trace (run (processQrScan "QR-7")
                                 (failing_after 4)).2))) = 2%nat.
Proof. vm_compute. auto 20. Qed.

(** Airtable has Bob twice in one batch: both are created, and two
    pending members share an e-mail up to case. *)
Lemma twice_in_batch_breaks_unique :
  unique_pending (pending_members (store twice_in_batch_world))
  /\ (run airtableFetch twice_in_batch_world).1 = Value tt
  /\ PendingMember.email
       <$> pending_members (store (run airtableFetch twice_in_batch_world).2)
     = ["bob@x.com"; "BOB@x.com"]
  /\ ~ unique_pending
         (pending_members (store (run airtableFetch twice_in_batch_world).2)).
Proof.
  split; [split; constructor|].
  split; [vm_compute; reflexivity|].
  split; [vm_compute; reflexivity|].
  intros [_ H]. vm_compute in H.
  apply NoDup_cons in H as [H _]. apply H. left.
Qed.

(** A thousand pending members and one new applicant: the first run
    creates her as row 1001, the second run reads rows 1 to 1000 and
    creates her again. *)
Lemma sync_twice_creates_again :
  exists w1 w2,
    run airtableFetch crowded_world = (Value tt, w1)
    /\ run airtableFetch w1 = (Value tt, w2)
    /\ length (pending_members (store crowded_world)) = 1000%nat
    /\ length (pending_members (store w1)) = 1001%nat
    /\ length (pending_members (store w2)) = 1002%nat
    /\ created (drop (length (trace w1)) (trace w2))
       = [to_member (sample_applicant "recNEW" "Nora" "nora@x.com")].
Proof.
  destruct (airtableFetch_fault_free crowded_world
              (Airtable.mkResponse [sample_applicant "recNEW" "Nora" "nora@x.com"])
              eq_refl eq_refl eq_refl) as (w1 & R1 & E1).
  vm_compute in E1.
  assert (F1 : faults w1 = []) by (rewrite E1; reflexivity).
  assert (A1 : airtable w1 = airtable crowded_world) by (rewrite E1; reflexivity).
  destruct (airtableFetch_fault_free w1
              (Airtable.mkResponse [sample_applicant "recNEW" "Nora" "nora@x.com"])
              F1) as (w2 & R2 & E2).
  { rewrite A1. reflexivity. }
  { rewrite A1. reflexivity. }
  exists w1, w2. split; [exact R1|]. split; [exact R2|].
  rewrite E1 in E2. vm_compute in E2.
  rewrite E2, E1. vm_compute. auto 10.
Qed.

(** A thousand and one pending members, and Airtable has the last of
    them: the sync reads the rows 1 to 1000 and creates her again,
    though a pending member has her id and her e-mail. *)
Lemma known_candidate_beyond_page :
  exists w' r,
    run airtableFetch overfull_world = (Value tt, w')
    /\ r ∈ pending_members (store overfull_world)
    /\ PendingMember.airtable_id r = "rec1001"
    /\ PendingMember.email r = "member1001@x.com"
    /\ created (trace w')
       = [to_member (sample_applicant "rec1001" "Member" "member1001@x.com")]
    /\ length (pending_members (store overfull_world)) = 1001%nat
    /\ length (pending_members (store w')) = 1002%nat.
Proof.
  destruct (airtableFetch_fault_free overfull_world
              (Airtable.mkResponse
                 [sample_applicant "rec1001" "Member" "member1001@x.com"])
              eq_refl eq_refl eq_refl) as (w' & R & E).
  vm_compute in E.
  exists w', (sample_pending 1001 "rec1001" "Member" "member1001@x.com").
  split; [exact R|]. split.
  { apply (list_elem_of_lookup_2 _ 1000). vm_compute. reflexivity. }
  rewrite E. vm_compute. auto 10.
Qed.
(** ** More on [processQrScan] *)

Lemma notifications_path (qrCode now : string) (p : scan_path) :
  (match p with
   | write_failed m t n _ => (n < length (scan_writes qrCode m t now))%nat
   | _ => True
   end) ->
  match p with
  | committed _ _ => notifications (path_events qrCode now p) = []
  | no_member =>
      notifications (path_events qrCode now p)
      = [Ev (notify "No member found with this QR code" type_error) true]
  | _ =>
      notifications (path_events qrCode now p)
      = [Ev (notify scan_failed type_error) true]
  end.
Proof.
  destruct p as [e| |m e|m t n e|m t]; try reflexivity.
  - rewrite scan_writes_length. unfold path_events, scan_writes.
    destruct (rewardDue m t); intros Hn;
      destruct n as [|[|[|[|n]]]]; try lia; reflexivity.
  - intros _. unfold path_events, scan_writes.
    destruct (rewardDue m t); reflexivity.
Qed.
(** X1: [processQrScan] never throws.  When it returns null it has shown
    exactly one notification, and not a success; when it returns the
    dialog data it has shown none. *)
Theorem scan_reports_once (qrCode : string) (w w' : world)
    (r : outcome (option DialogContentData.t)) :
  run (processQrScan qrCode) w = (r, w') ->
  exists evs res,
    trace w' = trace w ++ evs
    /\ r = Value res
    /\ match res with
       | Some _ => notifications evs = []
       | None =>
           exists message type,
             notifications evs = [Ev (notify message type) true]
             /\ type <> type_success
       end.
Proof.
  intros H. apply processQrScan_spec in H as (p & Hr & Ht & Hp & _).
  exists (path_events qrCode (clock w (ticks w)) p), (path_result p).
  split; [exact Ht|]. split; [exact Hr|].
  assert (Hn : match p with
               | write_failed m t n _ =>
                   (n < length (scan_writes qrCode m t (clock w (ticks w))))%nat
               | _ => True
               end).
  { destruct p; try exact I. apply Hp. }
  pose proof (notifications_path qrCode (clock w (ticks w)) p Hn) as N.
  destruct p as [e| |m e|m t n e|m t]; cbn [path_result];
    try (eexists _, _; split; [exact N | discriminate]).
  exact N.
Qed.

Lemma scan_reports_once_witness :
  run (processQrScan "QR-0") sample_world
  = ((run (processQrScan "QR-0") sample_world).1,
     (run (processQrScan "QR-0") sample_world).2)
  /\ exists evs res,
    trace (run (processQrScan "QR-0") sample_world).2
    = trace sample_world ++ evs
    /\ (run (processQrScan "QR-0") sample_world).1 = Value res
    /\ match res with
       | Some _ => notifications evs = []
       | None =>
           exists message type,
             notifications evs = [Ev (notify message type) true]
             /\ type <> type_success
       end.
Proof.
  split; [vm_compute; reflexivity|].
  apply (scan_reports_once "QR-0" sample_world).
  vm_compute. reflexivity.
Defined.

(** X2: the dialog data a successful scan returns is the member and the
    member type as the store holds them afterwards: the two names, the
    stored points and the scans the type requires. *)
Theorem scan_dialog_matches_store (qrCode : string) (w w' : world)
    (d : DialogContentData.t) :
  run (processQrScan qrCode) w = (Value (Some d), w') ->
  exists m m' t',
    head (members_page qrCode (store w)) = Some m
    /\ find_by_id Member.id (Member.id m) (members (store w')) = Some m'
    /\ find_by_id MemberType.id (Member.member_type_id m)
         (member_types (store w')) = Some t'
    /\ d = {| DialogContentData.memberType := MemberType.name t';
              DialogContentData.memberName := Member.name m';
              DialogContentData.points := Member.points m';
              DialogContentData.scansRequiredForReward :=
                MemberType.scans_required t' |}.
Proof.
  intros H. apply processQrScan_committed in H as (m & t & -> & Hm & Ht & _ & Hs).
  apply committed_store in Hs as (Hrow & Hrow' & Hms & Hts & _).
  exists m, (memberUpdateData m t (clock w (ticks w))), (memberTypeUpdateData t).
  split; [exact Hm|].
  split. { rewrite Hms. apply find_by_id_replace; [exact Hrow | reflexivity]. }
  split; [|reflexivity].
  pose proof (find_by_id_Some _ _ _ _ Ht) as [_ Hid]. rewrite <- Hid in *.
  rewrite Hts. apply find_by_id_replace; [exact Hrow' | reflexivity].
Qed.

Lemma scan_dialog_matches_store_witness :
  run (processQrScan "QR-7") sample_world
  = (Value (Some (dialogData sample_member sample_type)),
     (run (processQrScan "QR-7") sample_world).2)
  /\ exists m m' t',
    head (members_page "QR-7" (store sample_world)) = Some m
    /\ find_by_id Member.id (Member.id m)
         (members (store (run (processQrScan "QR-7") sample_world).2)) = Some m'
    /\ find_by_id MemberType.id (Member.member_type_id m)
         (member_types (store (run (processQrScan "QR-7") sample_world).2))
       = Some t'
    /\ dialogData sample_member sample_type
       = {| DialogContentData.memberType := MemberType.name t';
            DialogContentData.memberName := Member.name m';
            DialogContentData.points := Member.points m';
            DialogContentData.scansRequiredForReward :=
              MemberType.scans_required t' |}.
Proof.
  split; [vm_compute; reflexivity|].
  apply (scan_dialog_matches_store "QR-7" sample_world).
  vm_compute. reflexivity.
Defined.
(** X3: a successful scan appends one scan log holding the scanned code
    and, exactly when the stored member has the reward due, one redeem
    log of the member and of the reward type of the member type; the
    logs that were there are kept, the pending members are not touched. *)
Theorem scan_appends_logs (qrCode : string) (w w' : world)
    (d : DialogContentData.t) :
  run (processQrScan qrCode) w = (Value (Some d), w') ->
  exists m t m' scan,
    head (members_page qrCode (store w)) = Some m
    /\ find_by_id MemberType.id (Member.member_type_id m)
         (member_types (store w)) = Some t
    /\ find_by_id Member.id (Member.id m) (members (store w')) = Some m'
    /\ scan_logs (store w') = scan_logs (store w) ++ [scan]
    /\ ScanLog.scanned_value scan = qrCode
    /\ (if Member.reward_due m' then
          exists redeem,
            redeem_logs (store w') = redeem_logs (store w) ++ [redeem]
            /\ RedeemLog.member_id redeem = Member.id m
            /\ RedeemLog.reward_type_id redeem = MemberType.reward_type_id t
        else redeem_logs (store w') = redeem_logs (store w))
    /\ pending_members (store w') = pending_members (store w).
Proof.
  intros H. apply processQrScan_committed in H as (m & t & _ & Hm & Ht & _ & Hs).
  apply committed_store in Hs as (Hrow & _ & Hms & _ & Hsl & Hrl & Hpm).
  exists m, t, (memberUpdateData m t (clock w (ticks w))). eexists.
  split; [exact Hm|]. split; [exact Ht|].
  split. { rewrite Hms. apply find_by_id_replace; [exact Hrow | reflexivity]. }
  split; [exact Hsl|]. split; [reflexivity|]. split; [|exact Hpm].
  cbn [memberUpdateData Member.reward_due].
  destruct (rewardDue m t).
  - eexists. split; [exact Hrl|]. split; reflexivity.
  - rewrite Hrl. apply app_nil_r.
Qed.

Lemma scan_appends_logs_witness :
  run (processQrScan "QR-7") sample_world
  = (Value (Some (dialogData sample_member sample_type)),
     (run (processQrScan "QR-7") sample_world).2)
  /\ exists m t m' scan,
    head (members_page "QR-7" (store sample_world)) = Some m
    /\ find_by_id MemberType.id (Member.member_type_id m)
         (member_types (store sample_world)) = Some t
    /\ find_by_id Member.id (Member.id m)
         (members (store (run (processQrScan "QR-7") sample_world).2)) = Some m'
    /\ scan_logs (store (run (processQrScan "QR-7") sample_world).2)
       = scan_logs (store sample_world) ++ [scan]
    /\ ScanLog.scanned_value scan = "QR-7"
    /\ (if Member.reward_due m' then
          exists redeem,
            redeem_logs (store (run (processQrScan "QR-7") sample_world).2)
            = redeem_logs (store sample_world) ++ [redeem]
            /\ RedeemLog.member_id redeem = Member.id m
            /\ RedeemLog.reward_type_id redeem = MemberType.reward_type_id t
        else redeem_logs (store (run (processQrScan "QR-7") sample_world).2)
             = redeem_logs (store sample_world))
    /\ pending_members (store (run (processQrScan "QR-7") sample_world).2)
       = pending_members (store sample_world).
Proof.
  split; [vm_compute; reflexivity|].
  apply (scan_appends_logs "QR-7" sample_world _
           (dialogData sample_member sample_type)).
  vm_compute. reflexivity.
Defined.

Lemma replace_by_id_lookup {A : Type} (id : A -> Z) (i : Z) (data : A)
    (l : list A) (k : nat) :
  replace_by_id id i data l !! k
  = (fun r => if bool_decide (id r = i) then data else r) <$> (l !! k).
Proof. unfold replace_by_id. apply list_lookup_fmap. Qed.

(** X4: a successful scan rewrites one member and one member type and
    no other row: the two tables keep their length and their order, every
    member with another id and every member type with another id stays
    as it was. *)
Theorem scan_touches_one_member (qrCode : string) (w w' : world)
    (d : DialogContentData.t) :
  run (processQrScan qrCode) w = (Value (Some d), w') ->
  exists m t,
    head (members_page qrCode (store w)) = Some m
    /\ find_by_id MemberType.id (Member.member_type_id m)
         (member_types (store w)) = Some t
    /\ length (members (store w')) = length (members (store w))
    /\ length (member_types (store w')) = length (member_types (store w))
    /\ (forall k x, members (store w) !! k = Some x ->
          Member.id x <> Member.id m -> members (store w') !! k = Some x)
    /\ (forall k x, member_types (store w) !! k = Some x ->
          MemberType.id x <> MemberType.id t ->
          member_types (store w') !! k = Some x)
    /\ (forall k x, members (store w') !! k = Some x ->
          Member.id x = Member.id m \/ members (store w) !! k = Some x).
Proof.
  intros H. apply processQrScan_committed in H as (m & t & _ & Hm & Ht & _ & Hs).
  apply committed_store in Hs as (_ & _ & Hms & Hts & _).
  exists m, t. split; [exact Hm|]. split; [exact Ht|].
  rewrite Hms, Hts. unfold replace_by_id at 1 2. rewrite !length_fmap.
  split; [reflexivity|]. split; [reflexivity|].
  split; [|split].
  - intros k x Hx Hne. rewrite replace_by_id_lookup, Hx. cbn.
    rewrite bool_decide_eq_false_2 by exact Hne. reflexivity.
  - intros k x Hx Hne. rewrite replace_by_id_lookup, Hx. cbn.
    rewrite bool_decide_eq_false_2 by exact Hne. reflexivity.
  - intros k x. rewrite replace_by_id_lookup.
    destruct (members (store w) !! k) as [y|]; [|discriminate]. cbn.
    case_bool_decide; intros [= <-]; [left; reflexivity | right; reflexivity].
Qed.

Lemma scan_touches_one_member_witness :
  run (processQrScan "QR-7") ambiguous_world
  = (Value (Some (dialogData sample_member sample_type)),
     (run (processQrScan "QR-7") ambiguous_world).2)
  /\ exists m t,
    head (members_page "QR-7" (store ambiguous_world)) = Some m
    /\ find_by_id MemberType.id (Member.member_type_id m)
         (member_types (store ambiguous_world)) = Some t
    /\ length (members (store (run (processQrScan "QR-7") ambiguous_world).2))
       = length (members (store ambiguous_world))
    /\ length (member_types
                 (store (run (processQrScan "QR-7") ambiguous_world).2))
       = length (member_types (store ambiguous_world))
    /\ (forall k x, members (store ambiguous_world) !! k = Some x ->
          Member.id x <> Member.id m ->
          members (store (run (processQrScan "QR-7") ambiguous_world).2) !! k
          = Some x)
    /\ (forall k x, member_types (store ambiguous_world) !! k = Some x ->
          MemberType.id x <> MemberType.id t ->
          member_types
            (store (run (processQrScan "QR-7") ambiguous_world).2) !! k
          = Some x)
    /\ (forall k x,
          members (store (run (processQrScan "QR-7") ambiguous_world).2) !! k
          = Some x ->
          Member.id x = Member.id m
          \/ members (store ambiguous_world) !! k = Some x).
Proof.
  split; [vm_compute; reflexivity|].
  apply (scan_touches_one_member "QR-7" ambiguous_world _
           (dialogData sample_member sample_type)).
  vm_compute. reflexivity.
Defined.
(** X5: a successful scan of a member whose points were not negative
    leaves stored points that are not negative, that are below
    [scans_required] whenever that is at least 1 (however many points the
    member had), and that are 0 exactly when the reward is due. *)
Theorem scan_points_range (qrCode : string) (w w' : world)
    (d : DialogContentData.t) :
  run (processQrScan qrCode) w = (Value (Some d), w') ->
  exists m t m',
    head (members_page qrCode (store w)) = Some m
    /\ find_by_id MemberType.id (Member.member_type_id m)
         (member_types (store w)) = Some t
    /\ find_by_id Member.id (Member.id m) (members (store w')) = Some m'
    /\ (0 <= Member.points m ->
        0 <= Member.points m'
        /\ (1 <= MemberType.scans_required t ->
            Member.points m' < MemberType.scans_required t)
        /\ (Member.reward_due m' = true <-> Member.points m' = 0)
        /\ (DialogContentData.points d = 0 <-> Member.reward_due m' = true)).
Proof.
  intros H. apply processQrScan_committed in H as (m & t & -> & Hm & Ht & _ & Hs).
  apply committed_store in Hs as (Hrow & _ & Hms & _).
  exists m, t, (memberUpdateData m t (clock w (ticks w))).
  split; [exact Hm|]. split; [exact Ht|].
  split. { rewrite Hms. apply find_by_id_replace; [exact Hrow | reflexivity]. }
  intros Hp. cbn. unfold rewardDue, newPointsToReward, newMemberPoints.
  destruct (Z.leb_spec (MemberType.scans_required t - (Member.points m + 1)) 0);
    repeat split; intros; try lia; try reflexivity; try discriminate.
Qed.

Lemma scan_points_range_witness :
  run (processQrScan "QR-7") sample_world
  = (Value (Some (dialogData sample_member sample_type)),
     (run (processQrScan "QR-7") sample_world).2)
  /\ exists m t m',
    head (members_page "QR-7" (store sample_world)) = Some m
    /\ find_by_id MemberType.id (Member.member_type_id m)
         (member_types (store sample_world)) = Some t
    /\ find_by_id Member.id (Member.id m)
         (members (store (run (processQrScan "QR-7") sample_world).2)) = Some m'
    /\ (0 <= Member.points m ->
        0 <= Member.points m'
        /\ (1 <= MemberType.scans_required t ->
            Member.points m' < MemberType.scans_required t)
        /\ (Member.reward_due m' = true <-> Member.points m' = 0)
        /\ (DialogContentData.points (dialogData sample_member sample_type) = 0
            <-> Member.reward_due m' = true)).
Proof.
  split; [vm_compute; reflexivity|].
  apply (scan_points_range "QR-7" sample_world _
           (dialogData sample_member sample_type)).
  vm_compute. reflexivity.
Defined.

(** X6: a successful scan reads the clock once and stores that time as
    [last_scan_at]; a [reward_earned_at] that the scan changes is that
    same time. *)
Theorem scan_timestamps (qrCode : string) (w w' : world)
    (d : DialogContentData.t) :
  run (processQrScan qrCode) w = (Value (Some d), w') ->
  exists m m',
    head (members_page qrCode (store w)) = Some m
    /\ find_by_id Member.id (Member.id m) (members (store w')) = Some m'
    /\ Member.last_scan_at m' = Some (clock w (ticks w))
    /\ (Member.reward_earned_at m' <> Member.reward_earned_at m ->
        Member.reward_earned_at m' = Member.last_scan_at m')
    /\ exists evs,
         trace w' = trace w ++ evs
         /\ length (filter (fun e => ev_call e = new_Date_toISOString) evs)
            = 1%nat.
Proof.
  intros H. apply processQrScan_committed in H as (m & t & _ & Hm & Ht & Htr & Hs).
  apply committed_store in Hs as (Hrow & _ & Hms & _).
  exists m, (memberUpdateData m t (clock w (ticks w))).
  split; [exact Hm|].
  split. { rewrite Hms. apply find_by_id_replace; [exact Hrow | reflexivity]. }
  split; [reflexivity|]. split.
  - cbn. destruct (rewardDue m t && negb (truthy (Member.reward_earned_at m)));
      [reflexivity | congruence].
  - eexists. split; [exact Htr|].
    unfold path_events, scan_writes. destruct (rewardDue m t); reflexivity.
Qed.

Lemma scan_timestamps_witness :
  run (processQrScan "QR-7") sample_world
  = (Value (Some (dialogData sample_member sample_type)),
     (run (processQrScan "QR-7") sample_world).2)
  /\ exists m m',
    head (members_page "QR-7" (store sample_world)) = Some m
    /\ find_by_id Member.id (Member.id m)
         (members (store (run (processQrScan "QR-7") sample_world).2)) = Some m'
    /\ Member.last_scan_at m' = Some (clock sample_world (ticks sample_world))
    /\ (Member.reward_earned_at m' <> Member.reward_earned_at m ->
        Member.reward_earned_at m' = Member.last_scan_at m')
    /\ exists evs,
         trace (run (processQrScan "QR-7") sample_world).2
         = trace sample_world ++ evs
         /\ length (filter (fun e => ev_call e = new_Date_toISOString) evs)
            = 1%nat.
Proof.
  split; [vm_compute; reflexivity|].
  apply (scan_timestamps "QR-7" sample_world _
           (dialogData sample_member sample_type)).
  vm_compute. reflexivity.
Defined.

(** X7: when the member type of the scanned member is not in the store,
    the scan returns null, issues no write and leaves the store as it
    was. *)
Theorem scan_missing_type (qrCode : string) (w w' : world)
    (r : outcome (option DialogContentData.t)) (m : Member.t) :
  run (processQrScan qrCode) w = (r, w') ->
  head (members_page qrCode (store w)) = Some m ->
  find_by_id MemberType.id (Member.member_type_id m)
    (member_types (store w)) = None ->
  r = Value None
  /\ store w' = store w
  /\ exists evs, trace w' = trace w ++ evs /\ writes evs = [].
Proof.
  intros H Hm Hnone. apply processQrScan_spec in H as (p & Hr & Ht & Hp & Hs).
  destruct p as [e| |m' e|m' t n e|m' t]; cbn in Hp.
  - cbn in Hs. injection Hs as <-. subst r. split; [reflexivity|].
    split; [reflexivity|]. eexists. split; [exact Ht | reflexivity].
  - rewrite Hp in Hm. discriminate.
  - cbn in Hs. injection Hs as <-. subst r. split; [reflexivity|].
    split; [reflexivity|]. eexists. split; [exact Ht | reflexivity].
  - destruct Hp as (Hm' & Hty & _). rewrite Hm in Hm'. injection Hm' as <-.
    rewrite Hnone in Hty. discriminate.
  - destruct Hp as (Hm' & Hty). rewrite Hm in Hm'. injection Hm' as <-.
    rewrite Hnone in Hty. discriminate.
Qed.
Lemma scan_missing_type_witness :
  (run (processQrScan "QR-7") orphan_world).1 = Value None
  /\ store (run (processQrScan "QR-7") orphan_world).2 = store orphan_world
  /\ exists evs,
       trace (run (processQrScan "QR-7") orphan_world).2
       = trace orphan_world ++ evs
       /\ writes evs = [].
Proof.
  apply (scan_missing_type "QR-7" orphan_world _ _ sample_member).
  - vm_compute. reflexivity.
  - reflexivity.
  - reflexivity.
Defined.

(** After a scan that went through, the scanned code resolves to the
    member as the scan wrote it. *)
Lemma scan_then_page (o : bool) (qrCode now : string) (m : Member.t)
    (t : MemberType.t) (s s1 : Store) :
  head (members_page qrCode s) = Some m ->
  find_by_id MemberType.id (Member.member_type_id m) (member_types s) = Some t ->
  replay o (path_events qrCode now (committed m t)) s = Some s1 ->
  head (members_page qrCode s1) = Some (memberUpdateData m t now)
  /\ find_by_id MemberType.id (Member.member_type_id m) (member_types s1)
     = Some (memberTypeUpdateData t).
Proof.
  intros Hm Ht Hs.
  destruct (head (members_page qrCode s1)) as [m2|] eqn:Hm2.
  - destruct (scan_again_reads _ _ _ _ _ _ _ _ Hm Ht Hs Hm2) as [-> Ht2].
    split; [reflexivity | exact Ht2].
  - exfalso.
    assert (Hnil : members_page qrCode s1 = [])
      by (destruct (members_page qrCode s1); [reflexivity | discriminate]).
    pose proof (proj1 (members_page_nil qrCode s1) Hnil) as Hno.
    apply committed_store in Hs as (Hrow & _ & Hms & _).
    apply members_page_head in Hm as (_ & Hq & _).
    apply (Hno (memberUpdateData m t now)); [|exact Hq].
    rewrite Hms.
    eapply find_by_id_Some, find_by_id_replace; [exact Hrow | reflexivity].
Qed.

(** X8: [n] scans of one code in a row, all going through, from a member
    with [0 <= points < scans_required]: the member then has
    [(points + n) mod scans_required] points and [n] more total scans, the
    member type [n] more total scans, there are [n] more scan logs and
    [(points + n) / scans_required] more redeem logs: one reward every
    [scans_required] scans. *)
Theorem scans_cycle (qrCode : string) (n : nat) :
  forall (w w' : world) (m : Member.t) (t : MemberType.t),
  scans qrCode n w = Some w' ->
  head (members_page qrCode (store w)) = Some m ->
  find_by_id MemberType.id (Member.member_type_id m)
    (member_types (store w)) = Some t ->
  0 <= Member.points m < MemberType.scans_required t ->
  exists m' t',
    head (members_page qrCode (store w')) = Some m'
    /\ find_by_id MemberType.id (Member.member_type_id m')
         (member_types (store w')) = Some t'
    /\ Member.id m' = Member.id m
    /\ Member.points m'
       = (Member.points m + Z.of_nat n) mod MemberType.scans_required t
    /\ Member.total_scans m' = Member.total_scans m + Z.of_nat n
    /\ MemberType.total_scans t' = MemberType.total_scans t + Z.of_nat n
    /\ MemberType.scans_required t' = MemberType.scans_required t
    /\ length (scan_logs (store w')) = (length (scan_logs (store w)) + n)%nat
    /\ Z.of_nat (length (redeem_logs (store w')))
       = Z.of_nat (length (redeem_logs (store w)))
         + (Member.points m + Z.of_nat n) / MemberType.scans_required t.
Proof.
  induction n as [|n IH]; intros w w' m t; cbn [scans].
  - intros [= <-] Hm Ht Hp. exists m, t.
    rewrite Z.add_0_r, Z.mod_small, Z.div_small by lia.
    repeat split; try assumption; lia.
  - destruct (run (processQrScan qrCode) w) as [[[d|]|e] w1] eqn:R;
      try discriminate.
    intros Hn Hm Ht Hp.
    apply processQrScan_committed in R as (m0 & t0 & _ & Hm0 & Ht0 & _ & Hs).
    rewrite Hm in Hm0. injection Hm0 as <-.
    rewrite Ht in Ht0. injection Ht0 as <-.
    destruct (scan_then_page _ _ _ _ _ _ _ Hm Ht Hs) as [Hm1 Ht1].
    apply committed_store in Hs as (_ & _ & _ & _ & Hsl & Hrl & _).
    set (m1 := memberUpdateData m t (clock w (ticks w))) in *.
    set (sr := MemberType.scans_required t) in *.
    assert (Hp1 : 0 <= Member.points m1
                  < MemberType.scans_required (memberTypeUpdateData t)).
    { cbn. unfold rewardDue, newPointsToReward, newMemberPoints. fold sr.
      destruct (Z.leb_spec (sr - (Member.points m + 1)) 0); lia. }
    destruct (IH w1 w' m1 (memberTypeUpdateData t) Hn Hm1 Ht1 Hp1)
      as (m' & t' & Hm' & Ht' & Hid & Hpts & Hts & Htts & Hsr & Hsl' & Hrl').
    exists m', t'.
    split; [exact Hm'|]. split; [exact Ht'|]. split; [exact Hid|].
    cbn [memberTypeUpdateData MemberType.scans_required
         MemberType.total_scans] in Hpts, Htts, Hsr, Hrl'.
    fold sr in Hpts, Hsr, Hrl'.
    rewrite Hsl, length_app in Hsl'. rewrite Hrl, length_app in Hrl'.
    cbn [memberUpdateData Member.points Member.total_scans m1] in Hpts, Hts, Hrl'.
    unfold rewardDue, newPointsToReward, newMemberPoints in Hpts, Hrl'.
    fold sr in Hpts, Hrl'.
    destruct (Z.leb_spec (sr - (Member.points m + 1)) 0) as [Hdue|Hnot].
    + assert (E : Member.points m + Z.of_nat (S n)
                  = (0 + Z.of_nat n) + 1 * sr) by lia.
      rewrite E, Z_mod_plus_full, Z_div_plus_full by lia.
      cbn [length] in Hsl', Hrl'.
      repeat split; try assumption; lia.
    + assert (E : Member.points m + Z.of_nat (S n)
                  = Member.points m + 1 + Z.of_nat n) by lia.
      rewrite E. cbn [length] in Hsl', Hrl'.
      repeat split; try assumption; lia.
Qed.
Lemma scans_cycle_witness :
  scans "QR-7" 4 sample_world
  = Some (run (processQrScan "QR-7")
            (run (processQrScan "QR-7")
               (run (processQrScan "QR-7")
                  (run (processQrScan "QR-7") sample_world).2).2).2).2
  /\ exists m' t',
    head (members_page "QR-7"
            (store (run (processQrScan "QR-7")
                      (run (processQrScan "QR-7")
                         (run (processQrScan "QR-7")
                            (run (processQrScan "QR-7")
                               sample_world).2).2).2).2)) = Some m'
    /\ find_by_id MemberType.id (Member.member_type_id m')
         (member_types
            (store (run (processQrScan "QR-7")
                      (run (processQrScan "QR-7")
                         (run (processQrScan "QR-7")
                            (run (processQrScan "QR-7")
                               sample_world).2).2).2).2)) = Some t'
    /\ Member.id m' = Member.id sample_member
    /\ Member.points m'
       = (Member.points sample_member + Z.of_nat 4)
           mod MemberType.scans_required sample_type
    /\ Member.total_scans m' = Member.total_scans sample_member + Z.of_nat 4
    /\ MemberType.total_scans t'
       = MemberType.total_scans sample_type + Z.of_nat 4
    /\ MemberType.scans_required t' = MemberType.scans_required sample_type
    /\ length (scan_logs
                 (store (run (processQrScan "QR-7")
                           (run (processQrScan "QR-7")
                              (run (processQrScan "QR-7")
                                 (run (processQrScan "QR-7")
                                    sample_world).2).2).2).2))
       = (length (scan_logs (store sample_world)) + 4)%nat
    /\ Z.of_nat
         (length (redeem_logs
                    (store (run (processQrScan "QR-7")
                              (run (processQrScan "QR-7")
                                 (run (processQrScan "QR-7")
                                    (run (processQrScan "QR-7")
                                       sample_world).2).2).2).2)))
       = Z.of_nat (length (redeem_logs (store sample_world)))
         + (Member.points sample_member + Z.of_nat 4)
             / MemberType.scans_required sample_type.
Proof.
  split; [vm_compute; reflexivity|].
  apply (scans_cycle "QR-7" 4 sample_world _ sample_member sample_type).
  - vm_compute. reflexivity.
  - reflexivity.
  - reflexivity.
  - vm_compute. split; [discriminate | reflexivity].
Defined.

(** ** [handleScan] *)

Lemma perform_ui (c : call) (w : world) :
  ui (perform c w).2 = set_state (ui w) c.
Proof.
  unfold perform. destruct (fault_of c w) as [e|] eqn:F.
  - unfold fault_of in F. unfold consume.
    destruct c; cbn in *; try discriminate; reflexivity.
  - destruct (effect c (consume c w)) as [o w0] eqn:E. cbn.
    unfold consume in E.
    destruct c; cbn in E; unfold written in E; cbn in E;
      repeat match type of E with
             | context [match ?x with _ => _ end] => destruct x
             end; injection E as _ <-; reflexivity.
Qed.

(** The component state after a program: the setters of its trace,
    applied in order. *)
Lemma run_ui {R : Type} (p : prog R) :
  forall (w w' : world) (o : outcome R),
  run p w = (o, w') ->
  exists evs,
    trace w' = trace w ++ evs
    /\ ui w' = foldl (fun u e => set_state u (ev_call e)) (ui w) evs.
Proof.
  induction p as [R r|R e|R c k IH|A R body IHb handler IHh k IHk];
    intros w w' o; cbn [run].
  - intros [= <- <-]. exists []. rewrite app_nil_r. auto.
  - intros [= <- <-]. exists []. rewrite app_nil_r. auto.
  - pose proof (perform_ui c w) as Pu.
    destruct (perform c w) as [[x|e] w1] eqn:P;
      pose proof (perform_trace _ _ _ _ P) as Pt; cbn [snd is_value] in *.
    + intros H. apply IH in H as (evs & Ht & Hu).
      exists (Ev c true :: evs). cbn [foldl ev_call].
      rewrite Ht, Pt, Hu, Pu, <- app_assoc. auto.
    + intros [= <- <-]. exists [Ev c false]. cbn. auto.
  - destruct (run body w) as [[a|e] w1] eqn:B;
      apply IHb in B as (evs1 & Ht1 & Hu1).
    + intros H. apply IHk in H as (evs2 & Ht2 & Hu2).
      exists (evs1 ++ evs2). rewrite foldl_app, Ht2, Ht1, Hu2, Hu1, app_assoc.
      auto.
    + destruct (run (handler e) w1) as [[a|e'] w2] eqn:Hd;
        apply IHh in Hd as (evs2 & Ht2 & Hu2).
      * intros H. apply IHk in H as (evs3 & Ht3 & Hu3).
        exists (evs1 ++ evs2 ++ evs3).
        rewrite !foldl_app, Ht3, Ht2, Ht1, Hu3, Hu2, Hu1, !app_assoc. auto.
      * intros [= <- <-]. exists (evs1 ++ evs2).
        rewrite foldl_app, Ht2, Ht1, Hu2, Hu1, app_assoc. auto.
Qed.

Lemma foldl_set_state_id (u : UiState) (evs : list event) :
  Forall (fun e => forall v, set_state v (ev_call e) = v) evs ->
  foldl (fun u e => set_state u (ev_call e)) u evs = u.
Proof.
  revert u. induction evs as [|e evs IH]; intros u F; [reflexivity|].
  apply Forall_cons in F as [He F]. cbn. rewrite He. apply IH, F.
Qed.

(** [processQrScan] sets no state of the component. *)
Lemma processQrScan_ui (qrCode : string) (w w' : world)
    (r : outcome (option DialogContentData.t)) :
  run (processQrScan qrCode) w = (r, w') -> ui w' = ui w.
Proof.
  intros H. pose proof (run_ui _ _ _ _ H) as (evs & Ht & Hu).
  apply processQrScan_spec in H as (p & _ & Ht' & Hp & _).
  rewrite Ht in Ht'. apply app_inv_head in Ht'. subst evs.
  rewrite Hu. apply foldl_set_state_id.
  destruct p as [e| |m e|m t n e|m t]; cbn [path_events scan_caught];
    rewrite ?Forall_app; repeat split;
    repeat (apply Forall_cons; split; [intros v; reflexivity|]);
    try apply Forall_nil_2.
  - apply Forall_fmap, Forall_forall. intros c Hc v.
    apply elem_of_take in Hc as (i & Hc & _).
    apply list_elem_of_lookup_2 in Hc. unfold scan_writes in Hc.
    destruct (rewardDue m t);
      repeat (apply elem_of_cons in Hc as [->|Hc]; [reflexivity|]);
      inversion Hc.
  - destruct (scan_writes qrCode m t (clock w (ticks w)) !! n) as [c|] eqn:L;
      [|apply Forall_nil_2].
    apply Forall_cons. split; [|apply Forall_nil_2]. intros v.
    apply list_elem_of_lookup_2 in L. unfold scan_writes in L. cbn.
    destruct (rewardDue m t);
      repeat (apply elem_of_cons in L as [->|L]; [reflexivity|]);
      inversion L.
  - apply Forall_fmap, Forall_forall. intros c Hc v.
    unfold scan_writes in Hc.
    destruct (rewardDue m t);
      repeat (apply elem_of_cons in Hc as [->|Hc]; [reflexivity|]);
      inversion Hc.
Qed.
(** [handleScan] past its guard: the scanner is paused, the first
    barcode is scanned, and the component is set by the result. *)
Lemma handleScan_run (first : IDetectedBarcode)
    (others : list IDetectedBarcode) (w : world) :
  run (handleScan false (Some (first :: others))) w =
  match run (processQrScan (rawValue first)) (pausing w) with
  | (Value (Some d), w1) =>
      run (setDialogContent (Some d) ;;
           setOpenDialog true ;;
           setRewardDueState (bool_decide (DialogContentData.points d = 0)) ;;
           setTimer 30 ;;
           notify "Visit logged successfully" type_success ;;
           Ret tt) w1
  | (Value None, w1) => run (setScanningPaused false ;; Ret tt) w1
  | (Raised e, w1) => (Raised e, w1)
  end.
Proof.
  unfold handleScan. cbn [orb negb is_Some_b run].
  change (perform (setScanningPaused true) w) with (Value tt, pausing w).
  cbn [run]. rewrite run_bind.
  destruct (run (processQrScan (rawValue first)) (pausing w))
    as [[[d|]|e] w1]; reflexivity.
Qed.

(** X9: [handleScan] on a scanner that is not paused, with at least one
    barcode detected, pauses the scanner, scans the first barcode and
    returns without throwing.  If the scan returned data, the dialog is
    open on it with the timer at 30, the scanner stays paused and the
    last thing shown is 'Visit logged successfully'; if it returned null,
    scanning is resumed and the rest of the component state is as it
    was.  The store is as [processQrScan] left it. *)
Theorem handleScan_outcome (first : IDetectedBarcode)
    (others : list IDetectedBarcode) (w w' : world) (o : outcome unit) :
  run (handleScan false (Some (first :: others))) w = (o, w') ->
  o = Value tt
  /\ exists r w1,
       run (processQrScan (rawValue first)) (pausing w) = (Value r, w1)
       /\ store w' = store w1
       /\ match r with
          | Some d =>
              ui w' = mkUi true 30 true
                        (bool_decide (DialogContentData.points d = 0)) (Some d)
              /\ trace w' = trace w1 ++
                   [Ev (setDialogContent (Some d)) true;
                    Ev (setOpenDialog true) true;
                    Ev (setRewardDueState
                          (bool_decide (DialogContentData.points d = 0))) true;
                    Ev (setTimer 30) true;
                    Ev (notify "Visit logged successfully" type_success) true]
          | None =>
              ui w' = set_state (ui w) (setScanningPaused false)
              /\ trace w' = trace w1 ++ [Ev (setScanningPaused false) true]
          end.
Proof.
  rewrite handleScan_run.
  destruct (run (processQrScan (rawValue first)) (pausing w)) as [r w1] eqn:R.
  pose proof (processQrScan_ui _ _ _ _ R) as Hu.
  destruct (processQrScan_paths _ _ _ _ R) as (p & -> & _).
  destruct (path_result p) as [d|]; cbn; intros [= <- <-].
  - split; [reflexivity|]. eexists _, w1. split; [reflexivity|].
    split; [reflexivity|]. cbn. rewrite Hu. split; [reflexivity|].
    rewrite <- !app_assoc. reflexivity.
  - split; [reflexivity|]. eexists _, w1. split; [reflexivity|].
    split; [reflexivity|]. cbn. rewrite Hu. split; reflexivity.
Qed.
Lemma handleScan_outcome_witness :
  run (handleScan false (Some [mkBarcode "QR-7"])) sample_world
  = ((run (handleScan false (Some [mkBarcode "QR-7"])) sample_world).1,
     (run (handleScan false (Some [mkBarcode "QR-7"])) sample_world).2)
  /\ (run (handleScan false (Some [mkBarcode "QR-7"])) sample_world).1
     = Value tt
  /\ exists r w1,
       run (processQrScan (rawValue (mkBarcode "QR-7"))) (pausing sample_world)
       = (Value r, w1)
       /\ store (run (handleScan false (Some [mkBarcode "QR-7"]))
                   sample_world).2 = store w1
       /\ match r with
          | Some d =>
              ui (run (handleScan false (Some [mkBarcode "QR-7"]))
                    sample_world).2
              = mkUi true 30 true
                  (bool_decide (DialogContentData.points d = 0)) (Some d)
              /\ trace (run (handleScan false (Some [mkBarcode "QR-7"]))
                          sample_world).2
                 = trace w1 ++
                   [Ev (setDialogContent (Some d)) true;
                    Ev (setOpenDialog true) true;
                    Ev (setRewardDueState
                          (bool_decide (DialogContentData.points d = 0))) true;
                    Ev (setTimer 30) true;
                    Ev (notify "Visit logged successfully" type_success) true]
          | None =>
              ui (run (handleScan false (Some [mkBarcode "QR-7"]))
                    sample_world).2
              = set_state (ui sample_world) (setScanningPaused false)
              /\ trace (run (handleScan false (Some [mkBarcode "QR-7"]))
                          sample_world).2
                 = trace w1 ++ [Ev (setScanningPaused false) true]
          end.
Proof.
  split; [vm_compute; reflexivity|].
  apply (handleScan_outcome (mkBarcode "QR-7") [] sample_world).
  vm_compute. reflexivity.
Defined.

(** X10: after a successful [handleScan] the congratulation flag
    [rewardDueState] says whether the stored member has the reward due,
    provided the member's points were not negative before the scan. *)
Theorem handleScan_reward_title (first : IDetectedBarcode)
    (others : list IDetectedBarcode) (w w' w1 : world) (o : outcome unit)
    (d : DialogContentData.t) :
  run (handleScan false (Some (first :: others))) w = (o, w') ->
  run (processQrScan (rawValue first)) (pausing w) = (Value (Some d), w1) ->
  exists m m',
    head (members_page (rawValue first) (store w)) = Some m
    /\ find_by_id Member.id (Member.id m) (members (store w')) = Some m'
    /\ dialogContent (ui w') = Some d
    /\ (0 <= Member.points m ->
        rewardDueState (ui w') = Member.reward_due m').
Proof.
  intros H R. rewrite handleScan_run, R in H. cbn in H.
  injection H as <- <-. cbn.
  apply processQrScan_committed in R as (m & t & -> & Hm & Ht & _ & Hs).
  apply committed_store in Hs as (Hrow & _ & Hms & _).
  exists m, (memberUpdateData m t (clock (pausing w) (ticks (pausing w)))).
  split; [exact Hm|].
  split. { rewrite Hms. apply find_by_id_replace; [exact Hrow | reflexivity]. }
  split; [reflexivity|]. intros Hp. cbn.
  unfold rewardDue, newPointsToReward, newMemberPoints.
  destruct (Z.leb_spec (MemberType.scans_required t - (Member.points m + 1)) 0).
  - apply bool_decide_eq_true_2. reflexivity.
  - apply bool_decide_eq_false_2. lia.
Qed.

Lemma handleScan_reward_title_witness :
  exists m m',
    head (members_page (rawValue (mkBarcode "QR-7")) (store sample_world))
    = Some m
    /\ find_by_id Member.id (Member.id m)
         (members
            (store (run (handleScan false (Some [mkBarcode "QR-7"]))
                      sample_world).2)) = Some m'
    /\ dialogContent
         (ui (run (handleScan false (Some [mkBarcode "QR-7"]))
                sample_world).2)
       = Some (dialogData sample_member sample_type)
    /\ (0 <= Member.points m ->
        rewardDueState
          (ui (run (handleScan false (Some [mkBarcode "QR-7"]))
                 sample_world).2)
        = Member.reward_due m').
Proof.
  apply (handleScan_reward_title (mkBarcode "QR-7") [] sample_world _
           (run (processQrScan "QR-7") (pausing sample_world)).2
           (run (handleScan false (Some [mkBarcode "QR-7"])) sample_world).1).
  - vm_compute. reflexivity.
  - vm_compute. reflexivity.
Defined.

(** X11: a detection with no barcode in it, on a scanner that is not
    paused, makes [handleScan] throw after it has paused the scanner:
    nothing is asked of the store, the scanner stays paused, and every
    later detection is ignored. *)
Theorem handleScan_empty_detection (w w' : world) (o : outcome unit) :
  run (handleScan false (Some [])) w = (o, w') ->
  (exists e, o = Raised e)
  /\ trace w' = trace w ++ [Ev (setScanningPaused true) true]
  /\ store w' = store w
  /\ scanningPaused (ui w') = true
  /\ forall data, run (handleScan (scanningPaused (ui w')) data) w'
                  = (Value tt, w').
Proof.
  cbn. intros [= <- <-]. cbn. split; [eexists; reflexivity|].
  repeat split; reflexivity.
Qed.

Lemma handleScan_empty_detection_witness :
  (exists e, (run (handleScan false (Some [])) sample_world).1 = Raised e)
  /\ trace (run (handleScan false (Some [])) sample_world).2
     = trace sample_world ++ [Ev (setScanningPaused true) true]
  /\ store (run (handleScan false (Some [])) sample_world).2
     = store sample_world
  /\ scanningPaused (ui (run (handleScan false (Some [])) sample_world).2)
     = true
  /\ forall data,
       run (handleScan
              (scanningPaused
                 (ui (run (handleScan false (Some [])) sample_world).2)) data)
         (run (handleScan false (Some [])) sample_world).2
       = (Value tt, (run (handleScan false (Some [])) sample_world).2).
Proof.
  apply (handleScan_empty_detection sample_world).
  vm_compute. reflexivity.
Defined.

(** X12: while the dialog of a scan is open the scanner ignores every
    further detection (nothing is asked of the store, nothing changes,
    nothing is traced); after a scan that returned null the scanner is
    not paused, and the dialog is as it was. *)
Theorem handleScan_then_ignored (first : IDetectedBarcode)
    (others : list IDetectedBarcode) (w w' : world) (o : outcome unit) :
  run (handleScan false (Some (first :: others))) w = (o, w') ->
  match (run (processQrScan (rawValue first)) (pausing w)).1 with
  | Value (Some _) =>
      openDialog (ui w') = true
      /\ forall data, run (handleScan (scanningPaused (ui w')) data) w'
                      = (Value tt, w')
  | _ =>
      scanningPaused (ui w') = false
      /\ openDialog (ui w') = openDialog (ui w)
      /\ dialogContent (ui w') = dialogContent (ui w)
  end.
Proof.
  intros H. rewrite handleScan_run in H.
  destruct (run (processQrScan (rawValue first)) (pausing w)) as [r w1] eqn:R.
  pose proof (processQrScan_ui _ _ _ _ R) as Hu.
  destruct (processQrScan_paths _ _ _ _ R) as (p & -> & _).
  cbn [fst]. destruct (path_result p) as [d|]; cbn in H; injection H as <- <-.
  - cbn. split; [reflexivity|]. intros data. rewrite Hu. reflexivity.
  - cbn. rewrite Hu. repeat split; reflexivity.
Qed.

Lemma handleScan_then_ignored_witness :
  match (run (processQrScan (rawValue (mkBarcode "QR-7")))
           (pausing sample_world)).1 with
  | Value (Some _) =>
      openDialog (ui (run (handleScan false (Some [mkBarcode "QR-7"]))
                        sample_world).2) = true
      /\ forall data,
           run (handleScan
                  (scanningPaused
                     (ui (run (handleScan false (Some [mkBarcode "QR-7"]))
                            sample_world).2)) data)
             (run (handleScan false (Some [mkBarcode "QR-7"])) sample_world).2
           = (Value tt,
              (run (handleScan false (Some [mkBarcode "QR-7"]))
                 sample_world).2)
  | _ =>
      scanningPaused (ui (run (handleScan false (Some [mkBarcode "QR-7"]))
                            sample_world).2) = false
      /\ openDialog (ui (run (handleScan false (Some [mkBarcode "QR-7"]))
                           sample_world).2) = openDialog (ui sample_world)
      /\ dialogContent (ui (run (handleScan false (Some [mkBarcode "QR-7"]))
                              sample_world).2)
         = dialogContent (ui sample_world)
  end.
Proof.
  apply (handleScan_then_ignored (mkBarcode "QR-7") [] sample_world _
           (run (handleScan false (Some [mkBarcode "QR-7"])) sample_world).1).
  vm_compute. reflexivity.
Defined.

(** A reloaded page stays as it is: its dialog is closed, so no interval
    runs. *)
Lemma seconds_reload (n : nat) (p : Page) :
  seconds n (reload p) = reload p.
Proof.
  induction n as [|n IH]; [reflexivity|]. cbn [seconds].
  change (second (reload p)) with (reload p). exact IH.
Qed.

(** An open dialog whose timer shows [k] seconds counts them down, one
    per period, and at zero the page is reloaded. *)
Lemma seconds_countdown (n k : nat) (u : UiState) (r : nat) :
  openDialog u = true ->
  timer u = Z.of_nat k ->
  (0 < k)%nat ->
  seconds n (mkPage u r) =
  if (n <? k)%nat
  then mkPage (set_state u (setTimer (Z.of_nat k - Z.of_nat n))) r
  else reload (mkPage u r).
Proof.
  revert k u. induction n as [|n IH]; intros k u Ho Ht Hk.
  - destruct (Nat.ltb_spec 0 k) as [_|]; [|lia]. cbn [seconds].
    rewrite Z.sub_0_r, <- Ht. destruct u; reflexivity.
  - cbn [seconds]. unfold second, interval_running. cbn [component reloads].
    rewrite Ho, Ht, bool_decide_eq_true_2 by lia. cbn [andb].
    unfold autoCloseEffect. cbn [component reloads set_state timer openDialog].
    rewrite Ho, andb_true_r.
    destruct (decide (k = 1%nat)) as [->|Hk1].
    + rewrite bool_decide_eq_true_2 by reflexivity.
      change (handleCloseDialog ?p) with (reload (mkPage u r)).
      rewrite seconds_reload. reflexivity.
    + rewrite bool_decide_eq_false_2 by lia.
      rewrite (IH (k - 1)%nat) by (cbn; lia).
      destruct (Nat.ltb_spec n (k - 1)), (Nat.ltb_spec (S n) k); try lia.
      * cbn. f_equal. f_equal. lia.
      * reflexivity.
Qed.

(** X13: after a successful [handleScan] the dialog stays open on the
    data of the scan, with the scanner paused, for 30 periods of the
    interval, its timer showing what is left of them; at the 30th the
    dialog closes itself and the window is reloaded, once, so that the
    component is back in its initial state and stays there.  Closing the
    dialog by hand before that gives the same page. *)
Theorem dialog_closes_after_30 (first : IDetectedBarcode)
    (others : list IDetectedBarcode) (w w' w1 : world) (o : outcome unit)
    (d : DialogContentData.t) (r n : nat) :
  run (handleScan false (Some (first :: others))) w = (o, w') ->
  run (processQrScan (rawValue first)) (pausing w) = (Value (Some d), w1) ->
  seconds n (mkPage (ui w') r) =
  (if (n <? 30)%nat
   then mkPage (mkUi true (30 - Z.of_nat n) true
                  (bool_decide (DialogContentData.points d = 0)) (Some d)) r
   else mkPage initial_ui (S r))
  /\ handleCloseDialog (seconds n (mkPage (ui w') r))
     = mkPage initial_ui (S (if (n <? 30)%nat then r else S r)).
Proof.
  intros H R. rewrite handleScan_run, R in H. cbn in H.
  injection H as _ <-.
  pose proof (processQrScan_ui _ _ _ _ R) as Hu. cbn. rewrite Hu.
  change (n <=? 29)%nat with (n <? 30)%nat.
  change (scanningPaused (ui (pausing w))) with true.
  rewrite (seconds_countdown n 30) by (reflexivity || lia).
  destruct (n <? 30)%nat; split; reflexivity.
Qed.

Lemma dialog_closes_after_30_witness :
  seconds 30
    (mkPage (ui (run (handleScan false (Some [mkBarcode "QR-7"]))
                   sample_world).2) 0)
  = (if (30 <? 30)%nat
     then mkPage (mkUi true (30 - Z.of_nat 30) true
                    (bool_decide
                       (DialogContentData.points
                          (dialogData sample_member sample_type) = 0))
                    (Some (dialogData sample_member sample_type))) 0
     else mkPage initial_ui 1)
  /\ handleCloseDialog
       (seconds 30
          (mkPage (ui (run (handleScan false (Some [mkBarcode "QR-7"]))
                         sample_world).2) 0))
     = mkPage initial_ui (S (if (30 <? 30)%nat then 0 else 1))%nat.
Proof.
  apply (dialog_closes_after_30 (mkBarcode "QR-7") [] sample_world _
           (run (processQrScan "QR-7") (pausing sample_world)).2
           (run (handleScan false (Some [mkBarcode "QR-7"])) sample_world).1
           _ 0%nat 30%nat).
  - vm_compute. reflexivity.
  - vm_compute. reflexivity.
Defined.

(** ** More of [airtableFetch] *)

(** A program that may only make calls in [P] leaves a trace of calls
    in [P]. *)
Lemma run_only (P : call -> bool) {R : Type} (p : prog R) :
  only P p ->
  forall (w w' : world) (o : outcome R),
  run p w = (o, w') ->
  exists evs,
    trace w' = trace w ++ evs
    /\ Forall (fun e => P (ev_call e) = true) evs.
Proof.
  induction p as [R r|R e|R c k IH|A R body IHb handler IHh k IHk];
    cbn [only run]; intros Ho w w' o.
  - intros [= <- <-]. exists []. rewrite app_nil_r. auto.
  - intros [= <- <-]. exists []. rewrite app_nil_r. auto.
  - destruct Ho as [Hc Hk].
    destruct (perform c w) as [[x|e] w1] eqn:E;
      pose proof (perform_trace _ _ _ _ E) as Pt; cbn [is_value] in Pt.
    + intros H. apply (IH x (Hk x)) in H as (evs & Ht & Hf).
      exists (Ev c true :: evs). rewrite Ht, Pt, <- app_assoc.
      split; [reflexivity|]. apply Forall_cons. auto.
    + intros [= <- <-]. exists [Ev c false]. split; [exact Pt|].
      apply Forall_cons. auto.
  - destruct Ho as (Hb & Hh & Hk).
    destruct (run body w) as [[a|e] w1] eqn:B;
      apply (IHb Hb) in B as (evs1 & Ht1 & Hf1).
    + intros H. apply (IHk a (Hk a)) in H as (evs2 & Ht2 & Hf2).
      exists (evs1 ++ evs2). rewrite Ht2, Ht1, app_assoc.
      split; [reflexivity|]. apply Forall_app. auto.
    + destruct (run (handler e) w1) as [[a|e'] w2] eqn:Hd;
        apply (IHh e (Hh e)) in Hd as (evs2 & Ht2 & Hf2).
      * intros H. apply (IHk a (Hk a)) in H as (evs3 & Ht3 & Hf3).
        exists (evs1 ++ evs2 ++ evs3). rewrite Ht3, Ht2, Ht1, !app_assoc.
        split; [reflexivity|]. rewrite <- app_assoc, !Forall_app. auto.
      * intros [= <- <-]. exists (evs1 ++ evs2). rewrite Ht2, Ht1, app_assoc.
        split; [reflexivity|]. apply Forall_app. auto.
Qed.

Lemma create_all_only (news : list PendingMemberData.t) :
  only is_sync_call (create_all news).
Proof.
  induction news as [|member rest IH]; cbn; [exact I|].
  repeat split; auto.
Qed.

Lemma airtableFetch_only {JS : LowerCase} : only is_sync_call airtableFetch.
Proof.
  unfold airtableFetch, airtableFetch_catch. cbn [only].
  repeat split; try reflexivity; try exact I.
  intros response. destruct (400 <=? Airtable.status response); [exact I|].
  destruct (Airtable.json response) as [data|]; [|exact I].
  cbn [only]. split; [reflexivity|]. intros existing. apply create_all_only.
Qed.

(** The calls of the sync write to the pending members only, and set no
    state of a component. *)
Lemma replay_sync_calls (o : bool) (evs : list event) :
  Forall (fun e => is_sync_call (ev_call e) = true) evs ->
  forall s s' : Store,
  replay o evs s = Some s' ->
  members s' = members s /\ member_types s' = member_types s
  /\ scan_logs s' = scan_logs s /\ redeem_logs s' = redeem_logs s.
Proof.
  induction 1 as [|[c ok] evs Hc _ IH]; intros s s'; cbn [replay].
  - intros [= <-]. auto.
  - destruct (replay_event o s (Ev c ok)) as [s1|] eqn:E; [|discriminate].
    intros H. apply IH in H as (-> & -> & -> & ->).
    unfold replay_event in E. cbn [ev_ok ev_call] in E, Hc.
    destruct ok; [|injection E as <-; auto].
    destruct c; try discriminate Hc; cbn in E; injection E as <-; auto.
Qed.

(** X14: whatever happens in a run of [airtableFetch], the members, the
    member types and the two logs are left as they were, no state of a
    component is set, and the rows of the pending members that were
    there stay, in place; every row added after them carries the fields
    of one record of the Airtable response, with the status 'pending'
    and the source 'Airtable'. *)
Theorem sync_touches_pending_only {JS : LowerCase}
    (w w' : world) (o : outcome unit) :
  run airtableFetch w = (o, w') ->
  members (store w') = members (store w)
  /\ member_types (store w') = member_types (store w)
  /\ scan_logs (store w') = scan_logs (store w)
  /\ redeem_logs (store w') = redeem_logs (store w)
  /\ ui w' = ui w
  /\ exists rows,
       pending_members (store w') = pending_members (store w) ++ rows
       /\ Forall (fun r =>
            PendingMemberData.status (PendingMember.data r) = "pending"
            /\ PendingMemberData.source (PendingMember.data r) = "Airtable"
            /\ exists data record,
                 Airtable.json (airtable w) = Some data
                 /\ record ∈ Airtable.records data
                 /\ PendingMember.data r = to_member record) rows.
Proof.
  intros H.
  destruct (run_only _ _ airtableFetch_only _ _ _ H) as (evs & Ht & Hf).
  destruct (run_store _ _ _ _ H) as (evs1 & Ht1 & Hr & _).
  destruct (run_ui _ _ _ _ H) as (evs2 & Ht2 & Hu).
  destruct (airtableFetch_any _ _ _ H) as (evs3 & Ht3 & Hc).
  rewrite Ht in Ht1, Ht2, Ht3.
  apply app_inv_head in Ht1, Ht2, Ht3. subst evs1 evs2 evs3.
  destruct (replay_sync_calls _ _ Hf _ _ Hr) as (Hm & Hmt & Hs & Hl).
  destruct (replay_pending _ _ _ _ Hr) as (rows & Hp & Hd).
  repeat (split; [assumption|]). split.
  { rewrite Hu. apply foldl_set_state_id.
    eapply Forall_impl; [exact Hf|]. intros [c ok] Hc' v. cbn in *.
    destruct c; try discriminate Hc'; reflexivity. }
  exists rows. split; [exact Hp|]. apply Forall_forall. intros r Hin.
  assert (PendingMember.data r ∈ create_requests evs) as Hreq.
  { eapply elem_of_sublist; [|apply created_sublist]. rewrite <- Hd.
    apply list_elem_of_fmap_2. exact Hin. }
  destruct Hc as [Hc|(data & J & Hc)]; rewrite Hc in Hreq.
  - inversion Hreq.
  - apply elem_of_newMembers in Hreq as [Hreq _].
    apply list_elem_of_fmap in Hreq as (record & Hrec & Hin').
    rewrite Hrec. repeat split; try reflexivity.
    exists data, record. auto.
Qed.

Lemma sync_touches_pending_only_witness :
  members (store (run airtableFetch sync_world).2) = members (store sync_world)
  /\ member_types (store (run airtableFetch sync_world).2)
     = member_types (store sync_world)
  /\ scan_logs (store (run airtableFetch sync_world).2)
     = scan_logs (store sync_world)
  /\ redeem_logs (store (run airtableFetch sync_world).2)
     = redeem_logs (store sync_world)
  /\ ui (run airtableFetch sync_world).2 = ui sync_world
  /\ exists rows,
       pending_members (store (run airtableFetch sync_world).2)
       = pending_members (store sync_world) ++ rows
       /\ Forall (fun r =>
            PendingMemberData.status (PendingMember.data r) = "pending"
            /\ PendingMemberData.source (PendingMember.data r) = "Airtable"
            /\ exists data record,
                 Airtable.json (airtable sync_world) = Some data
                 /\ record ∈ Airtable.records data
                 /\ PendingMember.data r = to_member record) rows.
Proof.
  apply (sync_touches_pending_only sync_world _
           (run airtableFetch sync_world).1).
  vm_compute. reflexivity.
Defined.

(** X15: when the request to Airtable fails in transit, is answered with
    a status of 400 or more or with a body that is not JSON, or when the
    list of the pending members cannot be read, [airtableFetch] throws
    (its catch block, as the spec gives it, logs the error and throws it
    again): it asks for no creation, writes nothing, and the store is as
    it was.  On a status of 400 or more the store is not even asked for
    its pending members, and the error is 'Airtable request failed: '
    followed by the body of the response. *)
Theorem sync_fails_before_writing {JS : LowerCase}
    (w w' : world) (o : outcome unit) :
  run airtableFetch w = (o, w') ->
  is_Some (mjoin (head (faults w)))
  \/ 400 <= Airtable.status (airtable w)
  \/ Airtable.json (airtable w) = None
  \/ is_Some (mjoin (head (tail (faults w)))) ->
  exists e evs,
    o = Raised e
    /\ trace w' = trace w ++ evs
                  ++ [Ev (console_error "Error syncing with Airtable:" e) true]
    /\ create_requests evs = []
    /\ writes evs = []
    /\ store w' = store w
    /\ (mjoin (head (faults w)) = None ->
        400 <= Airtable.status (airtable w) ->
        e = Error ("Airtable request failed: "
                   +:+ Airtable.text (airtable w))
        /\ evs = [Ev fetch_airtable true]).
Proof.
  intros H Hbad. revert H.
  unfold airtableFetch, airtableFetch_catch. cbn [run].
  unfold perform at 1. unfold fault_of. cbn [is_request].
  destruct (mjoin (head (faults w))) as [e1|] eqn:F1.
  { cbn. intros [= <- <-]. exists e1, [Ev fetch_airtable false]. cbn.
    rewrite <- app_assoc. repeat (split; [reflexivity|]). intros [=]. }
  cbn [effect consume is_request is_value airtable with_faults record_event run].
  destruct (Z.leb_spec 400 (Airtable.status (airtable w))) as [Hst|Hst].
  { cbn. intros [= <- <-]. eexists _, [Ev fetch_airtable true]. cbn.
    rewrite <- app_assoc. repeat (split; [reflexivity|]).
    reflexivity. }
  destruct (Airtable.json (airtable w)) as [data|] eqn:J.
  2:{ cbn. intros [= <- <-]. eexists _, [Ev fetch_airtable true]. cbn.
      rewrite <- app_assoc. repeat (split; [reflexivity|]). intros _ ?. lia. }
  cbn [run]. unfold perform at 1. unfold fault_of.
  cbn [is_request faults record_event with_faults].
  destruct (mjoin (head (tail (faults w)))) as [e2|] eqn:F2.
  { cbn. intros [= <- <-].
    exists e2, [Ev fetch_airtable true;
                Ev (getList_pending_members 1 1000) false]. cbn.
    rewrite <- !app_assoc. repeat (split; [reflexivity|]). intros _ ?. lia. }
  exfalso.
  destruct Hbad as [[? [=]]|[?|[[=]|[? [=]]]]]. lia.
Qed.

Lemma sync_fails_before_writing_witness :
  exists e evs,
    (run airtableFetch (world_of sample_store false [])).1 = Raised e
    /\ trace (run airtableFetch (world_of sample_store false [])).2
       = trace (world_of sample_store false []) ++ evs
         ++ [Ev (console_error "Error syncing with Airtable:" e) true]
    /\ create_requests evs = []
    /\ writes evs = []
    /\ store (run airtableFetch (world_of sample_store false [])).2
       = store (world_of sample_store false [])
    /\ (mjoin (head (faults (world_of sample_store false []))) = None ->
        400 <= Airtable.status (airtable (world_of sample_store false [])) ->
        e = Error ("Airtable request failed: "
                   +:+ Airtable.text (airtable (world_of sample_store false [])))
        /\ evs = [Ev fetch_airtable true]).
Proof.
  apply (sync_fails_before_writing (world_of sample_store false []) _
           (run airtableFetch (world_of sample_store false [])).1).
  - vm_compute. reflexivity.
  - right. left. vm_compute. discriminate.
Defined.

Lemma filter_Forall {A : Type} (P : A -> Prop) `{forall x, Decision (P x)}
    (l : list A) :
  Forall P l -> filter P l = l.
Proof.
  induction 1 as [|x l Hx _ IH]; [reflexivity|].
  rewrite filter_cons_True by exact Hx. rewrite IH. reflexivity.
Qed.

(** X16: when no record of the Airtable response matches a pending
    member that is read, neither by its id nor by its e-mail in lower
    case, and nothing fails in transit, [airtableFetch] adds one pending
    member per record, after the rows that were there, in the order of
    the response; a record that comes twice in the response is added
    twice. *)
Theorem sync_imports_unknown_batch {JS : LowerCase} (w : world)
    (data : Airtable.AirtableResponse) :
  faults w = [] ->
  Airtable.status (airtable w) < 400 ->
  Airtable.json (airtable w) = Some data ->
  (forall record r,
     record ∈ Airtable.records data -> r ∈ pending_page (store w) ->
     PendingMember.airtable_id r <> Airtable.id record
     /\ toLowerCase (PendingMember.email r)
        <> toLowerCase (Airtable.Email (Airtable.fields_of record))) ->
  exists w',
    run airtableFetch w = (Value tt, w')
    /\ PendingMember.data <$> pending_members (store w')
       = (PendingMember.data <$> pending_members (store w))
         ++ (to_member <$> Airtable.records data)
    /\ length (pending_members (store w'))
       = (length (pending_members (store w))
          + length (Airtable.records data))%nat.
Proof.
  intros F Hst J Hnew.
  destruct (airtableFetch_rows w data)
    as (w' & evs & rows & Hr & _ & Hp & Hd & Hc & Hq);
    try (rewrite F; reflexivity); try assumption.
  exists w'. split; [exact Hr|].
  assert (PendingMember.data <$> rows = to_member <$> Airtable.records data)
    as Hrows.
  { rewrite Hd, (Hc F), Hq. unfold newMembers. apply filter_Forall.
    apply Forall_fmap, Forall_forall. intros record Hin. cbn.
    rewrite elem_of_existingAirtableIds, elem_of_existingEmails.
    split; intros (r & Hr' & E); destruct (Hnew record r Hin Hr'); auto. }
  split.
  - rewrite Hp, fmap_app, Hrows. reflexivity.
  - rewrite Hp, length_app. f_equal.
    rewrite <- (length_fmap PendingMember.data rows), Hrows, length_fmap.
    reflexivity.
Qed.

Lemma sync_imports_unknown_batch_witness :
  (exists w',
    run airtableFetch newcomers_world = (Value tt, w')
    /\ PendingMember.data <$> pending_members (store w')
       = (PendingMember.data <$> pending_members (store newcomers_world))
         ++ (to_member <$>
               [sample_applicant "recB" "Bob" "bob@x.com";
                sample_applicant "recC" "Bobby" "BOB@x.com"])
    /\ length (pending_members (store w'))
       = (length (pending_members (store newcomers_world))
          + length [sample_applicant "recB" "Bob" "bob@x.com";
                    sample_applicant "recC" "Bobby" "BOB@x.com"])%nat)
  /\ PendingMember.airtable_id
       <$> pending_members (store (run airtableFetch newcomers_world).2)
     = ["recZ"; "recB"; "recC"].
Proof.
  split; [|vm_compute; reflexivity].
  apply (sync_imports_unknown_batch newcomers_world
           (Airtable.mkResponse
              [sample_applicant "recB" "Bob" "bob@x.com";
               sample_applicant "recC" "Bobby" "BOB@x.com"])).
  - reflexivity.
  - vm_compute. reflexivity.
  - reflexivity.
  - intros record r Hrecord Hr.
    assert (pending_page (store newcomers_world)
            = [sample_pending 1 "recZ" "Zoe" "zoe@x.com"]) as E
      by (vm_compute; reflexivity).
    rewrite E in Hr. clear E.
    apply elem_of_cons in Hr as [->|Hr]; [|inversion Hr].
    cbn [Airtable.records] in Hrecord.
    repeat (apply elem_of_cons in Hrecord as [->|Hrecord];
            [split; intros Heq; vm_compute in Heq; discriminate Heq|]).
    inversion Hrecord.
Defined.

(** ** authProvider.ts *)

Lemma truthy_Some (x : option string) :
  truthy x = true <-> exists s, x = Some s /\ s <> EmptyString.
Proof.
  destruct x as [s|]; cbn.
  - rewrite negb_true_iff, bool_decide_eq_false. split.
    + intros H. exists s. auto.
    + intros (s' & [= <-] & H). exact H.
  - split; [discriminate|]. intros (s & [=] & _).
Qed.

Lemma role_or_base_truthy (user : SiteUser.t) :
  truthy (Some (authProvider.role_or_base user)) = true.
Proof.
  unfold authProvider.role_or_base.
  destruct (SiteUser.role user) as [r|]; [|reflexivity].
  destruct (truthy (Some r)) eqn:T; [exact T | reflexivity].
Qed.

(** What [login] does, by the answer of the site. *)
Lemma login_cases (apiUrl : string)
    (fetch : string -> error + SiteUsers.Response)
    (bcrypt_compare : string -> string -> bool)
    (username password : string) (b : Browser) :
  (exists user users response,
     fetch (apiUrl +:+ "/site_users?email=" +:+ username) = inr response
     /\ SiteUsers.ok response = true
     /\ SiteUsers.json response = Some (user :: users)
     /\ bcrypt_compare password (SiteUser.password user) = true
     /\ authProvider.login apiUrl fetch bcrypt_compare username password b
        = (Resolved tt,
           setItem "role" (authProvider.role_or_base user)
             (setItem "username" username b)))
  \/ (exists lines cause,
        authProvider.login apiUrl fetch bcrypt_compare username password b
        = (Rejected
             (reason_Error
                (Error "Invalid username, password, or network error")),
           mkBrowser (localStorage b)
             (console b ++ lines ++ [("Login Error:", cause)]))
        /\ (lines = []
            \/ exists response,
                 fetch (apiUrl +:+ "/site_users?email=" +:+ username)
                 = inr response
                 /\ SiteUsers.ok response = false
                 /\ lines = [("Error Response Body:", SiteUsers.text response)]
                 /\ cause = "Network response was not ok")
        /\ ~ (exists user users response,
                fetch (apiUrl +:+ "/site_users?email=" +:+ username)
                = inr response
                /\ SiteUsers.ok response = true
                /\ SiteUsers.json response = Some (user :: users)
                /\ bcrypt_compare password (SiteUser.password user) = true)).
Proof.
  unfold authProvider.login, authProvider.login_try, console_error_line.
  destruct (fetch _) as [e|response] eqn:F.
  { right. exists [], (error_message e). cbn. split; [reflexivity|].
    split; [auto|]. intros (? & ? & ? & [=] & _). }
  destruct (SiteUsers.ok response) eqn:Hok; cbn [negb].
  2:{ right. eexists [_], _. cbn. rewrite <- app_assoc.
      split; [reflexivity|]. split.
      - right. exists response. auto.
      - intros (? & ? & ? & [= <-] & Hok' & _). congruence. }
  destruct (SiteUsers.json response) as [[|user users]|] eqn:J.
  - right. exists [], "User not found". cbn. split; [reflexivity|].
    split; [auto|]. intros (? & ? & ? & [= <-] & _ & J' & _). congruence.
  - destruct (bcrypt_compare password (SiteUser.password user)) eqn:C;
      cbn [negb].
    + left. exists user, users, response. auto.
    + right. exists [], "Invalid password". cbn. split; [reflexivity|].
      split; [auto|]. intros (? & ? & ? & [= <-] & _ & J' & C').
      rewrite J in J'. injection J' as <- <-. congruence.
  - right. exists [], "SyntaxError: the body is not JSON". cbn.
    split; [reflexivity|]. split; [auto|].
    intros (? & ? & ? & [= <-] & _ & J' & _). congruence.
Qed.

(** X17: a [login] that fails tells its caller the same thing whatever
    went wrong (the request, the status, the body, no such user, a
    wrong password): the promise is rejected with the error 'Invalid
    username, password, or network error', the session in
    [localStorage] is left as it was, and the cause is on the console
    only, in the 'Login Error:' line that ends it.  It fails exactly
    when the site does not answer with a first user whose hash the
    password matches. *)
Theorem login_failure_is_uniform (apiUrl : string)
    (fetch : string -> error + SiteUsers.Response)
    (bcrypt_compare : string -> string -> bool)
    (username password : string) (b b' : Browser) (r : reason) :
  authProvider.login apiUrl fetch bcrypt_compare username password b
  = (Rejected r, b') ->
  r = reason_Error (Error "Invalid username, password, or network error")
  /\ localStorage b' = localStorage b
  /\ (exists lines cause,
        console b' = console b ++ lines ++ [("Login Error:", cause)])
  /\ ~ (exists user users response,
          fetch (apiUrl +:+ "/site_users?email=" +:+ username) = inr response
          /\ SiteUsers.ok response = true
          /\ SiteUsers.json response = Some (user :: users)
          /\ bcrypt_compare password (SiteUser.password user) = true).
Proof.
  intros H.
  destruct (login_cases apiUrl fetch bcrypt_compare username password b)
    as [(user & users & response & _ & _ & _ & _ & E)
       |(lines & cause & E & _ & Hno)];
    rewrite E in H; [discriminate|].
  injection H as <- <-. cbn. repeat split; try exact Hno.
  exists lines, cause. reflexivity.
Qed.

Lemma login_failure_is_uniform_witness :
  reason_Error (Error "Invalid username, password, or network error")
  = reason_Error (Error "Invalid username, password, or network error")
  /\ localStorage
       (authProvider.login "https://x" sample_site sample_compare
          "ada@x.com" "guess" sample_browser).2
     = localStorage sample_browser
  /\ (exists lines cause,
        console
          (authProvider.login "https://x" sample_site sample_compare
             "ada@x.com" "guess" sample_browser).2
        = console sample_browser ++ lines ++ [("Login Error:", cause)])
  /\ ~ (exists user users response,
          sample_site ("https://x" +:+ "/site_users?email=" +:+ "ada@x.com")
          = inr response
          /\ SiteUsers.ok response = true
          /\ SiteUsers.json response = Some (user :: users)
          /\ sample_compare "guess" (SiteUser.password user) = true).
Proof.
  apply (login_failure_is_uniform "https://x" sample_site sample_compare
           "ada@x.com" "guess" sample_browser).
  vm_compute. reflexivity.
Defined.

(** X18: after a [login] that succeeded, [getPermissions] resolves with
    the role of the first user the site returned, or with 'base' when
    that user has no role or an empty one; [checkAuth] resolves, and
    [getIdentity] resolves with the username and that role, as long as
    the username is not empty.  With an empty username the login can
    succeed and the session still not count: [checkAuth] and
    [getIdentity] reject.  Other keys of [localStorage] are left as they
    were, and nothing is written to the console. *)
Theorem login_opens_session (apiUrl : string)
    (fetch : string -> error + SiteUsers.Response)
    (bcrypt_compare : string -> string -> bool)
    (username password : string) (b b' : Browser) :
  authProvider.login apiUrl fetch bcrypt_compare username password b
  = (Resolved tt, b') ->
  exists user users response,
    fetch (apiUrl +:+ "/site_users?email=" +:+ username) = inr response
    /\ SiteUsers.json response = Some (user :: users)
    /\ authProvider.getPermissions b'
       = Resolved (authProvider.role_or_base user)
    /\ (authProvider.role_or_base user = "base"
        \/ SiteUser.role user = Some (authProvider.role_or_base user))
    /\ authProvider.checkAuth b'
       = (if bool_decide (username = EmptyString)
          then Rejected no_reason else Resolved tt)
    /\ authProvider.getIdentity b'
       = (if bool_decide (username = EmptyString)
          then Rejected (reason_string "No user found")
          else Resolved
                 (UserIdentity.mk username (authProvider.role_or_base user)))
    /\ (forall key, key <> "username" -> key <> "role" ->
        getItem key b' = getItem key b)
    /\ console b' = console b.
Proof.
  intros H.
  destruct (login_cases apiUrl fetch bcrypt_compare username password b)
    as [(user & users & response & F & _ & J & _ & E)
       |(lines & cause & E & _)];
    rewrite E in H; [|discriminate].
  injection H as <-. exists user, users, response.
  split; [exact F|]. split; [exact J|].
  pose proof (role_or_base_truthy user) as T.
  unfold authProvider.getPermissions, authProvider.checkAuth,
    authProvider.getIdentity, getItem, setItem. cbn [localStorage console].
  rewrite lookup_insert_eq, lookup_insert_ne by discriminate.
  rewrite lookup_insert_eq, T. cbn [negb default].
  split; [reflexivity|]. split.
  { unfold authProvider.role_or_base.
    destruct (SiteUser.role user) as [r|]; [|auto].
    destruct (truthy (Some r)); auto. }
  split. { cbn [truthy]. destruct (bool_decide (username = EmptyString)); reflexivity. }
  split. { cbn [truthy]. destruct (bool_decide (username = EmptyString)); reflexivity. }
  split; [|reflexivity]. intros key H1 H2.
  rewrite !lookup_insert_ne by congruence. reflexivity.
Qed.

Lemma login_opens_session_witness :
  exists user users response,
    sample_site ("https://x" +:+ "/site_users?email=" +:+ "ada@x.com")
    = inr response
    /\ SiteUsers.json response = Some (user :: users)
    /\ authProvider.getPermissions
         (authProvider.login "https://x" sample_site sample_compare
            "ada@x.com" "secret" sample_browser).2
       = Resolved (authProvider.role_or_base user)
    /\ (authProvider.role_or_base user = "base"
        \/ SiteUser.role user = Some (authProvider.role_or_base user))
    /\ authProvider.checkAuth
         (authProvider.login "https://x" sample_site sample_compare
            "ada@x.com" "secret" sample_browser).2
       = (if bool_decide ("ada@x.com" = EmptyString)
          then Rejected no_reason else Resolved tt)
    /\ authProvider.getIdentity
         (authProvider.login "https://x" sample_site sample_compare
            "ada@x.com" "secret" sample_browser).2
       = (if bool_decide ("ada@x.com" = EmptyString)
          then Rejected (reason_string "No user found")
          else Resolved
                 (UserIdentity.mk "ada@x.com" (authProvider.role_or_base user)))
    /\ (forall key, key <> "username" -> key <> "role" ->
        getItem key
          (authProvider.login "https://x" sample_site sample_compare
             "ada@x.com" "secret" sample_browser).2
        = getItem key sample_browser)
    /\ console
         (authProvider.login "https://x" sample_site sample_compare
            "ada@x.com" "secret" sample_browser).2
       = console sample_browser.
Proof.
  apply (login_opens_session "https://x" sample_site sample_compare
           "ada@x.com" "secret" sample_browser).
  vm_compute. reflexivity.
Defined.

(** X19: [logout] always resolves and ends the session, whatever it
    was: after it [checkAuth] and [getPermissions] reject and
    [getIdentity] rejects with 'No user found'.  [checkError] does the
    same on the status 401 or 403, and rejects; on any other status it
    resolves and leaves the browser as it was.  Neither touches another
    key of [localStorage]. *)
Theorem session_ends (status : Z) (b : Browser) :
  let ended b' :=
    authProvider.checkAuth b' = Rejected no_reason
    /\ authProvider.getPermissions b' = Rejected no_reason
    /\ authProvider.getIdentity b' = Rejected (reason_string "No user found")
    /\ (forall key, key <> "username" -> key <> "role" ->
        getItem key b' = getItem key b)
    /\ console b' = console b in
  (authProvider.logout b).1 = Resolved tt
  /\ ended (authProvider.logout b).2
  /\ (if bool_decide (status = 401 \/ status = 403)
      then (authProvider.checkError status b).1 = Rejected no_reason
           /\ ended (authProvider.checkError status b).2
      else authProvider.checkError status b = (Resolved tt, b)).
Proof.
  assert (forall b',
    b' = removeItem "role" (removeItem "username" b) ->
    authProvider.checkAuth b' = Rejected no_reason
    /\ authProvider.getPermissions b' = Rejected no_reason
    /\ authProvider.getIdentity b' = Rejected (reason_string "No user found")
    /\ (forall key, key <> "username" -> key <> "role" ->
        getItem key b' = getItem key b)
    /\ console b' = console b) as Hended.
  { intros b' ->.
    unfold authProvider.checkAuth, authProvider.getPermissions,
      authProvider.getIdentity, getItem, removeItem.
    cbn [localStorage console].
    rewrite lookup_delete_eq, lookup_delete_ne, lookup_delete_eq
      by discriminate.
    repeat (split; [reflexivity|]). split; [|reflexivity].
    intros key H1 H2. rewrite !lookup_delete_ne by congruence. reflexivity. }
  cbn zeta. split; [reflexivity|]. split; [apply Hended; reflexivity|].
  unfold authProvider.checkError.
  case_bool_decide as Hs.
  - assert (bool_decide (status = 401) || bool_decide (status = 403) = true)
      as ->.
    { destruct Hs as [->| ->]; reflexivity. }
    split; [reflexivity|]. apply Hended. reflexivity.
  - rewrite !bool_decide_eq_false_2 by tauto. reflexivity.
Qed.

(** X20: [getIdentity] resolves exactly when [checkAuth] and
    [getPermissions] both resolve, and then with the stored username as
    the id and the role that [getPermissions] gives; when both the
    username and the role are missing it is the missing user that is
    reported. *)
Theorem getIdentity_agrees (b : Browser) :
  (forall identity,
     authProvider.getIdentity b = Resolved identity <->
     authProvider.checkAuth b = Resolved tt
     /\ authProvider.getPermissions b = Resolved (UserIdentity.role identity)
     /\ getItem "username" b = Some (UserIdentity.id identity))
  /\ (authProvider.checkAuth b = Rejected no_reason ->
      authProvider.getIdentity b = Rejected (reason_string "No user found")).
Proof.
  unfold authProvider.getIdentity, authProvider.checkAuth,
    authProvider.getPermissions.
  destruct (getItem "username" b) as [u|], (getItem "role" b) as [r|];
    cbn [truthy negb default from_option]; unfold id;
    repeat match goal with
           | |- context [bool_decide (?x = EmptyString)] =>
               destruct (bool_decide (x = EmptyString)); cbn [negb]
           end;
    (split;
     [intros [i rl]; cbn [UserIdentity.id UserIdentity.role]; split;
      [intros H; repeat split; congruence
      |intros (H1 & H2 & H3); congruence]
     |intros H; congruence]).
Qed.

(** ** Dashboard.tsx *)

Lemma leaderboard_fold (logs : list Dashboard.ScanLog.t) :
  forall (acc : gmap Z nat) (i : Z),
  foldl (fun acc log =>
           <[Dashboard.ScanLog.member_id log :=
               (default 0 (acc !! Dashboard.ScanLog.member_id log) + 1)%nat]>
             acc) acc logs !! i
  = match Dashboard.scans_of i logs with
    | O => acc !! i
    | S n => Some (default 0 (acc !! i) + S n)%nat
    end.
Proof.
  unfold Dashboard.scans_of.
  induction logs as [|log logs IH]; intros acc i; [reflexivity|].
  cbn [foldl]. rewrite IH. rewrite filter_cons.
  destruct (decide (Dashboard.ScanLog.member_id log = i)) as [->|Hne].
  - rewrite lookup_insert_eq. cbn [length default from_option id].
    destruct (length _); apply (f_equal Some); unfold id; lia.
  - rewrite lookup_insert_ne by exact Hne. reflexivity.
Qed.

(** The tally of the leaderboard: a member is in it when it has a scan
    among the logs, with the number of its scans. *)
Lemma leaderboard_lookup (logs : list Dashboard.ScanLog.t) (i : Z) (c : nat) :
  Dashboard.leaderboard logs !! i = Some c <->
  c = Dashboard.scans_of i logs /\ (0 < c)%nat.
Proof.
  unfold Dashboard.leaderboard. rewrite leaderboard_fold, lookup_empty.
  destruct (Dashboard.scans_of i logs) as [|n]; cbn.
  - split; [discriminate|lia].
  - split; [intros [= <-]; lia|intros [-> _]; reflexivity].
Qed.

Lemma insert_entry_Permutation (a : Dashboard.Entry.t)
    (l : list Dashboard.Entry.t) :
  Dashboard.insert_entry a l ≡ₚ a :: l.
Proof.
  induction l as [|b l IH]; cbn; [reflexivity|].
  destruct (_ <=? _)%nat; [reflexivity|].
  rewrite IH. apply Permutation_swap.
Qed.

Lemma sort_by_scans_Permutation (l : list Dashboard.Entry.t) :
  Dashboard.sort_by_scans l ≡ₚ l.
Proof.
  induction l as [|a l IH]; cbn; [reflexivity|].
  rewrite insert_entry_Permutation, IH. reflexivity.
Qed.

Lemma insert_entry_sorted (a : Dashboard.Entry.t)
    (l : list Dashboard.Entry.t) :
  StronglySorted
    (fun a b => (Dashboard.Entry.scans b <= Dashboard.Entry.scans a)%nat) l ->
  StronglySorted
    (fun a b => (Dashboard.Entry.scans b <= Dashboard.Entry.scans a)%nat)
    (Dashboard.insert_entry a l).
Proof.
  induction l as [|b l IH]; intros S; cbn.
  - repeat constructor.
  - apply StronglySorted_inv in S as [S F].
    destruct (Nat.leb_spec (Dashboard.Entry.scans b) (Dashboard.Entry.scans a)).
    + constructor; [constructor; assumption|].
      constructor; [assumption|].
      eapply Forall_impl; [exact F|]. intros x Hx. cbn in Hx |- *. lia.
    + constructor; [apply IH, S|].
      rewrite insert_entry_Permutation. constructor; [lia|exact F].
Qed.

Lemma sort_by_scans_sorted (l : list Dashboard.Entry.t) :
  StronglySorted
    (fun a b => (Dashboard.Entry.scans b <= Dashboard.Entry.scans a)%nat)
    (Dashboard.sort_by_scans l).
Proof.
  induction l as [|a l IH]; [constructor|].
  apply (insert_entry_sorted a _ IH).
Qed.

Lemma StronglySorted_lookup {A : Type} (R : relation A) (l : list A) :
  StronglySorted R l ->
  forall (i j : nat) (a b : A),
  (i < j)%nat -> l !! i = Some a -> l !! j = Some b -> R a b.
Proof.
  induction 1 as [|x l _ IH F]; intros i j a b Hij Ha Hb; [discriminate|].
  destruct j as [|j]; [lia|]. cbn in Hb. destruct i as [|i].
  - injection Ha as <-. rewrite Forall_forall in F.
    apply F. eapply list_elem_of_lookup_2, Hb.
  - cbn in Ha. apply (IH i j); [lia|assumption..].
Qed.

(** The entries of the whole leaderboard, before it is cut to ten. *)
Lemma leaderboard_entries (members : gmap Z Dashboard.Member.t)
    (logs : list Dashboard.ScanLog.t) :
  Dashboard.sort_by_scans
    (Dashboard.entry_of members
       <$> Dashboard.Object_entries (Dashboard.leaderboard logs))
  ≡ₚ Dashboard.entry_of members <$> map_to_list (Dashboard.leaderboard logs).
Proof.
  rewrite sort_by_scans_Permutation. unfold Dashboard.Object_entries.
  rewrite merge_sort_Permutation. reflexivity.
Qed.

(** X21: the leaderboard of the dashboard has at most ten entries, one
    per member at most, each with the number of scans of that member
    among the logs of the date range, of which there is at least one;
    the entries come with the most scans first, and a member with a scan
    in the range that is not shown has at most as many scans as every
    member shown, of which there are then ten. *)
Theorem leaderboard_is_top_ten (in_range : string -> bool)
    (members : gmap Z Dashboard.Member.t)
    (scanLogs : list Dashboard.ScanLog.t) :
  let logs :=
    Dashboard.filterLogsByDate in_range Dashboard.ScanLog.created_at scanLogs in
  let entries := Dashboard.leaderboardData members logs in
  (length entries <= 10)%nat
  /\ NoDup (Dashboard.Entry.memberId <$> entries)
  /\ (forall entry, entry ∈ entries ->
      Dashboard.Entry.scans entry
      = Dashboard.scans_of (Dashboard.Entry.memberId entry) logs
      /\ (0 < Dashboard.Entry.scans entry)%nat)
  /\ (forall i j a b, (i <= j)%nat ->
      entries !! i = Some a -> entries !! j = Some b ->
      (Dashboard.Entry.scans b <= Dashboard.Entry.scans a)%nat)
  /\ (forall log, log ∈ logs ->
      Dashboard.ScanLog.member_id log ∉ Dashboard.Entry.memberId <$> entries ->
      length entries = 10%nat
      /\ forall entry, entry ∈ entries ->
           (Dashboard.scans_of (Dashboard.ScanLog.member_id log) logs
            <= Dashboard.Entry.scans entry)%nat).
Proof.
  intros logs entries. unfold entries, Dashboard.leaderboardData.
  set (sorted := Dashboard.sort_by_scans _).
  pose proof (leaderboard_entries members logs) as Hperm. fold sorted in Hperm.
  pose proof (sort_by_scans_sorted
                (Dashboard.entry_of members
                   <$> Dashboard.Object_entries (Dashboard.leaderboard logs)))
    as Hsorted. fold sorted in Hsorted.
  assert (forall entry, entry ∈ sorted <->
            exists i c, Dashboard.leaderboard logs !! i = Some c
                        /\ entry = Dashboard.entry_of members (i, c)) as Hin.
  { intros entry. rewrite Hperm, list_elem_of_fmap. split.
    - intros ([i c] & -> & H). apply elem_of_map_to_list in H. eauto.
    - intros (i & c & H & ->). exists (i, c). split; [reflexivity|].
      apply elem_of_map_to_list. exact H. }
  assert (NoDup (Dashboard.Entry.memberId <$> sorted)) as Hnd.
  { rewrite Hperm, <- list_fmap_compose.
    apply (NoDup_fst_map_to_list (Dashboard.leaderboard logs)). }
  assert (sorted = take 10 sorted ++ drop 10 sorted) as Hsplit
    by (symmetry; apply take_drop).
  split; [rewrite length_take; lia|].
  split. { eapply sublist_NoDup; [exact Hnd|]. apply fmap_sublist, sublist_take. }
  split.
  { intros entry He. apply elem_of_take in He as (k & He & _).
    apply list_elem_of_lookup_2, Hin in He as (i & c & Hl & ->).
    apply leaderboard_lookup in Hl as [-> Hpos]. cbn. auto. }
  split.
  { intros i j a b Hij Ha Hb.
    destruct (decide (i = j)) as [->|Hne].
    { rewrite Ha in Hb. injection Hb as ->. lia. }
    rewrite lookup_take_Some in Ha, Hb. destruct Ha as [Ha _], Hb as [Hb _].
    apply (StronglySorted_lookup _ _ Hsorted i j a b); [lia|assumption..]. }
  intros log Hlog Hout.
  assert (exists c, Dashboard.entry_of members
                      (Dashboard.ScanLog.member_id log, c) ∈ sorted
                    /\ c = Dashboard.scans_of
                             (Dashboard.ScanLog.member_id log) logs)
    as (c & Hc & Hcount).
  { exists (Dashboard.scans_of (Dashboard.ScanLog.member_id log) logs).
    split; [|reflexivity]. apply Hin. eexists _, _. split; [|reflexivity].
    apply leaderboard_lookup. split; [reflexivity|].
    unfold Dashboard.scans_of.
    assert (log ∈ filter (fun l => Dashboard.ScanLog.member_id l
                                   = Dashboard.ScanLog.member_id log) logs)
      as Hf by (apply list_elem_of_filter; auto).
    destruct (filter _ logs); [inversion Hf|cbn; lia]. }
  rewrite Hsplit in Hc. apply elem_of_app in Hc as [Hc|Hc].
  { exfalso. apply Hout.
    apply (list_elem_of_fmap_2 Dashboard.Entry.memberId) in Hc. exact Hc. }
  split.
  { rewrite length_take. apply list_elem_of_lookup_1 in Hc as (k & Hk).
    apply lookup_lt_Some in Hk. rewrite length_drop in Hk. lia. }
  intros entry He. rewrite <- Hcount.
  rewrite Hsplit in Hsorted.
  apply (StronglySorted_app_1_elem_of _ _ _ _ _ Hsorted He Hc).
Qed.

Lemma memberMap_fold (memberData : list Dashboard.Member.t) :
  forall (acc : gmap Z Dashboard.Member.t) (i : Z) (m : Dashboard.Member.t),
  foldl (fun acc member => <[Dashboard.Member.id member := member]> acc)
    acc memberData !! i = Some m ->
  (m ∈ memberData /\ Dashboard.Member.id m = i) \/ acc !! i = Some m.
Proof.
  induction memberData as [|member rest IH]; intros acc i m; cbn [foldl].
  - auto.
  - intros H. apply IH in H as [[Hin Hid]|H].
    + left. split; [right; exact Hin | exact Hid].
    + destruct (decide (Dashboard.Member.id member = i)) as [E|E].
      * rewrite E, lookup_insert_eq in H. injection H as <-.
        left. split; [left | exact E].
      * rewrite lookup_insert_ne in H by exact E. auto.
Qed.

(** X22: the name a leaderboard entry shows is never empty: it is the
    name of a member that was fetched with the id of the entry, or
    'Unknown'; it is 'Unknown' when no member with that id was fetched. *)
Theorem leaderboard_names (in_range : string -> bool)
    (memberData : list Dashboard.Member.t)
    (scanLogs : list Dashboard.ScanLog.t) (entry : Dashboard.Entry.t) :
  entry ∈ Dashboard.leaderboardData (Dashboard.memberMap memberData)
            (Dashboard.filterLogsByDate in_range Dashboard.ScanLog.created_at
               scanLogs) ->
  Dashboard.Entry.name entry <> EmptyString
  /\ (Dashboard.Entry.name entry = "Unknown"
      \/ exists member,
           member ∈ memberData
           /\ Dashboard.Member.id member = Dashboard.Entry.memberId entry
           /\ Dashboard.Member.name member = Dashboard.Entry.name entry)
  /\ ((forall member, member ∈ memberData ->
       Dashboard.Member.id member <> Dashboard.Entry.memberId entry) ->
      Dashboard.Entry.name entry = "Unknown").
Proof.
  unfold Dashboard.leaderboardData. intros H.
  apply elem_of_take in H as (k & H & _). apply list_elem_of_lookup_2 in H.
  rewrite leaderboard_entries in H.
  apply list_elem_of_fmap in H as ([i c] & -> & _).
  unfold Dashboard.entry_of. cbn [fst snd Dashboard.Entry.name
    Dashboard.Entry.memberId].
  destruct (Dashboard.memberMap memberData !! i) as [m|] eqn:L.
  - apply memberMap_fold in L as [[Hin Hid]|L];
      [|rewrite lookup_empty in L; discriminate].
    destruct (truthy (Some (Dashboard.Member.name m))) eqn:T.
    + apply truthy_Some in T as (s & [= <-] & Hs).
      split; [exact Hs|]. split; [right; exists m; auto|].
      intros Hno. destruct (Hno m Hin Hid).
    + split; [discriminate|]. split; [left; reflexivity|reflexivity].
  - split; [discriminate|]. split; [left; reflexivity|reflexivity].
Qed.

Lemma leaderboard_names_witness :
  Dashboard.Entry.name (Dashboard.Entry.mk 7 2 "Ada") <> EmptyString
  /\ (Dashboard.Entry.name (Dashboard.Entry.mk 7 2 "Ada") = "Unknown"
      \/ exists member,
           member ∈ [Dashboard.Member.mk 7 "Ada"]
           /\ Dashboard.Member.id member
              = Dashboard.Entry.memberId (Dashboard.Entry.mk 7 2 "Ada")
           /\ Dashboard.Member.name member
              = Dashboard.Entry.name (Dashboard.Entry.mk 7 2 "Ada"))
  /\ ((forall member, member ∈ [Dashboard.Member.mk 7 "Ada"] ->
       Dashboard.Member.id member
       <> Dashboard.Entry.memberId (Dashboard.Entry.mk 7 2 "Ada")) ->
      Dashboard.Entry.name (Dashboard.Entry.mk 7 2 "Ada") = "Unknown").
Proof.
  apply (leaderboard_names (fun _ => true) [Dashboard.Member.mk 7 "Ada"]
           [Dashboard.ScanLog.mk 1 7 "2025-01-01";
            Dashboard.ScanLog.mk 2 9 "2025-01-02";
            Dashboard.ScanLog.mk 3 7 "2025-01-03"]).
  vm_compute. left.
Defined.
